(** * PandaCode: the workspace-scoped command and file sandbox

    A shallow embedding of [file_service.py], [terminal_service.py],
    [git_service.py], [ai_service.py] and the path helper of [app.py],
    with the Python library primitives they call ([str] methods,
    [posixpath], [shlex], text-mode file I/O, [os] and [shutil]) modelled
    next to them.

    Python [str] values are sequences of Unicode code points; a code point
    is an [N].  The operating system is modelled on a Linux host
    ([os.sep = "/"], [os.linesep = "\n"], file names in UTF-8 with
    [surrogateescape], [NAME_MAX = 255], [PATH_MAX = 4096]) without
    symbolic links, special files or permissions, on which nothing but
    the modelled calls changes the files.  A path is resolved by its
    text, so the model follows the host on paths in normal form, as
    [normpath] returns them. *)

From Stdlib Require Import NArith ZArith List String Ascii Bool Lia.
From stdpp Require Import gmap list.
Import ListNotations.

Local Open Scope N_scope.

(** ** Python strings *)

Module PyStr.

(** A Python [str]: a sequence of code points. *)
Abbreviation pstr := (list N).

(** A literal of the source, written as an ASCII string. *)
Definition py (s : string) : pstr :=
  map N_of_ascii (list_ascii_of_string s).

Definition str_eqb (a b : pstr) : bool := bool_decide (a = b).

(** [s.startswith(prefix)] *)
Fixpoint startswith (s prefix : pstr) {struct prefix} : bool :=
  match prefix, s with
  | [], _ => true
  | _ :: _, [] => false
  | p :: prefix', c :: s' => (c =? p) && startswith s' prefix'
  end.

(** [s.endswith(suffix)] *)
Definition endswith (s suffix : pstr) : bool :=
  startswith (rev s) (rev suffix).

(** [Py_UNICODE_ISSPACE]: the characters [str.strip()] and
    [str.split(None)] treat as whitespace. *)
Definition isspace (c : N) : bool :=
  ((9 <=? c) && (c <=? 13)) || ((28 <=? c) && (c <=? 32))
  || (c =? 133) || (c =? 160) || (c =? 5760)
  || ((8192 <=? c) && (c <=? 8202))
  || (c =? 8232) || (c =? 8233) || (c =? 8239) || (c =? 8287)
  || (c =? 12288).

Fixpoint lstrip (s : pstr) : pstr :=
  match s with
  | [] => []
  | c :: s' => if isspace c then lstrip s' else s
  end.

Definition rstrip (s : pstr) : pstr := rev (lstrip (rev s)).

(** [s.strip()] *)
Definition strip (s : pstr) : pstr := rstrip (lstrip s).

(** The first whitespace-delimited word of [s] and what follows it. *)
Fixpoint span_word (s : pstr) : pstr * pstr :=
  match s with
  | [] => ([], [])
  | c :: s' =>
      if isspace c then ([], s)
      else let '(w, r) := span_word s' in (c :: w, r)
  end.

(** [s.split(None, 1)]: at most one split, on a run of whitespace. *)
Definition split_ws_1 (s : pstr) : list pstr :=
  match lstrip s with
  | [] => []
  | s1 =>
      let '(w, r) := span_word s1 in
      match lstrip r with
      | [] => [w]
      | rest => [w; rest]
      end
  end.

(** [s.split(sep)] for a one-character separator: never empty. *)
Fixpoint split_on (sep : N) (s : pstr) : list pstr :=
  match s with
  | [] => [[]]
  | c :: s' =>
      if c =? sep then [] :: split_on sep s'
      else match split_on sep s' with
           | [] => [[c]]
           | w :: ws => (c :: w) :: ws
           end
  end.

(** [sep.join(parts)] for a one-character separator. *)
Fixpoint join_with (sep : N) (parts : list pstr) : pstr :=
  match parts with
  | [] => []
  | [w] => w
  | w :: ws => w ++ sep :: join_with sep ws
  end.

(** The line boundaries of [str.splitlines()]. *)
Definition is_linebreak (c : N) : bool :=
  ((10 <=? c) && (c <=? 13)) || ((28 <=? c) && (c <=? 30))
  || (c =? 133) || (c =? 8232) || (c =? 8233).

(** [s.splitlines()]: [cur] is the line being read, reversed. *)
Fixpoint splitlines_from (cur : pstr) (s : pstr) : list pstr :=
  match s with
  | [] => match cur with [] => [] | _ => [rev cur] end
  | c :: s' =>
      if is_linebreak c then
        match c, s' with
        | 13, 10 :: s'' => rev cur :: splitlines_from [] s''
        | _, _ => rev cur :: splitlines_from [] s'
        end
      else splitlines_from (c :: cur) s'
  end.

Definition splitlines (s : pstr) : list pstr := splitlines_from [] s.

(** [s[i:]] *)
Definition slice_from (i : nat) (s : pstr) : pstr := drop i s.
(** [s[:i]] *)
Definition slice_to (i : nat) (s : pstr) : pstr := take i s.

(** [str.lower()] on an ASCII character. *)
Definition lower_ascii (c : N) : N :=
  if (65 <=? c) && (c <=? 90) then c + 32 else c.

Definition is_ascii (s : pstr) : bool := forallb (fun c => c <? 128) s.

(** [s.rfind(c) + 1] for a character [c]: the length of [s] up to and
    including the last [c], or 0. *)
Fixpoint after_last (c : N) (s : pstr) : nat :=
  match s with
  | [] => 0%nat
  | x :: s' =>
      let i := after_last c s' in
      if (i =? 0)%nat then (if x =? c then 1%nat else 0%nat) else S i
  end.

(** [s.rfind(c)] *)
Definition rfind (s : pstr) (c : N) : Z := (Z.of_nat (after_last c s) - 1)%Z.

(** [needle in s] *)
Fixpoint contains (s needle : pstr) : bool :=
  startswith s needle
  || match s with
     | [] => false
     | _ :: s' => contains s' needle
     end.

End PyStr.
Export PyStr.

(** ** Exceptions and results *)

(** The exception classes the modelled code raises or catches.  Every one
    of them derives from [Exception]; the [OSError] family is marked by
    [is_OSError]. *)
Inductive exc_class :=
| ValueError | IndexError | UnicodeEncodeError | RuntimeError
| OSError | FileNotFoundError | FileExistsError
| IsADirectoryError | NotADirectoryError | PermissionError
| TimeoutExpired.

Definition is_OSError (c : exc_class) : bool :=
  match c with
  | OSError | FileNotFoundError | FileExistsError
  | IsADirectoryError | NotADirectoryError | PermissionError => true
  | _ => false
  end.

Record exc := Exc { exc_cls : exc_class; exc_msg : pstr }.

(** A computation that returns a value or raises. *)
Inductive res (A : Type) :=
| Ok (a : A)
| Raise (e : exc).
Arguments Ok {A} a.
Arguments Raise {A} e.

#[global] Instance res_ret : MRet res := fun A a => Ok a.
#[global] Instance res_bind : MBind res := fun A B k m =>
  match m with
  | Ok a => k a
  | Raise e => Raise e
  end.

#[global] Instance exc_class_eq_dec : EqDecision exc_class.
Proof. solve_decision. Defined.

(** ** [posixpath] *)

Module posixpath.

Definition sep : N := 47.
Definition dot : pstr := [46].
Definition dotdot : pstr := [46; 46].

(** [os.path.isabs] *)
Definition isabs (s : pstr) : bool := startswith s [sep].

(** [os.path.join(a, b)] *)
Definition join (a b : pstr) : pstr :=
  if startswith b [sep] then b
  else if (match a with [] => true | _ => false end) || endswith a [sep]
       then a ++ b
       else a ++ sep :: b.

(** The number of leading slashes [normpath] keeps: none, one, or two
    when the path starts with exactly two. *)
Definition initial_slashes (path : pstr) : nat :=
  if startswith path [sep] then
    if startswith path [sep; sep] && negb (startswith path [sep; sep; sep])
    then 2%nat else 1%nat
  else 0%nat.

(** The loop of [normpath] over the components; [new_comps] is kept
    reversed, so that its head is [new_comps[-1]]. *)
Fixpoint norm_comps (slashes : nat) (new_comps : list pstr)
         (comps : list pstr) : list pstr :=
  match comps with
  | [] => rev new_comps
  | comp :: comps' =>
      if str_eqb comp [] || str_eqb comp dot then
        norm_comps slashes new_comps comps'
      else if negb (str_eqb comp dotdot)
              || ((slashes =? 0)%nat
                  && match new_comps with [] => true | _ => false end)
              || match new_comps with
                 | last :: _ => str_eqb last dotdot
                 | [] => false
                 end
      then norm_comps slashes (comp :: new_comps) comps'
      else match new_comps with
           | _ :: popped => norm_comps slashes popped comps'
           | [] => norm_comps slashes new_comps comps'
           end
  end.

(** [os.path.normpath] *)
Definition normpath (path : pstr) : pstr :=
  match path with
  | [] => dot
  | _ =>
      let k := initial_slashes path in
      let comps := norm_comps k [] (split_on sep path) in
      match repeat sep k ++ join_with sep comps with
      | [] => dot
      | p => p
      end
  end.

(** [s.rfind("/") + 1]: the length of [s] up to and including its last
    slash. *)
Fixpoint after_last_sep (s : pstr) : nat :=
  match s with
  | [] => 0%nat
  | c :: s' =>
      let i := after_last_sep s' in
      if (i =? 0)%nat then (if c =? sep then 1%nat else 0%nat) else S i
  end.

Fixpoint lstrip_sep (s : pstr) : pstr :=
  match s with
  | c :: s' => if c =? sep then lstrip_sep s' else s
  | [] => []
  end.

(** [os.path.split]: the head loses its trailing slashes unless it
    consists of slashes only. *)
Definition split (p : pstr) : pstr * pstr :=
  let i := after_last_sep p in
  let head := take i p in
  let tail := drop i p in
  let head' :=
    if forallb (fun c => c =? sep) head then head
    else rev (lstrip_sep (rev head))
  in (head', tail).

(** [os.path.dirname] *)
Definition dirname (p : pstr) : pstr := fst (split p).

(** [os.path.splitext]: the extension starts at the last dot of the last
    component, unless only dots precede it there. *)
Definition splitext (p : pstr) : pstr * pstr :=
  let sepIndex := rfind p sep in
  let dotIndex := rfind p 46 in
  if (sepIndex <? dotIndex)%Z then
    let filenameIndex := (sepIndex + 1)%Z in
    if existsb (fun x => negb (x =? 46))
               (take (Z.to_nat (dotIndex - filenameIndex))
                     (drop (Z.to_nat filenameIndex) p))
    then (take (Z.to_nat dotIndex) p, drop (Z.to_nat dotIndex) p)
    else (p, [])
  else (p, []).

End posixpath.

(** ** [shlex.split] *)

Module shlex.

(** The [state] attribute of the lexer: [None] after the end of the
    input, a space between tokens, the letter a inside a word, a quote
    character inside a quoted part, the escape character after a
    backslash. *)
Inductive lex_state :=
| AtEnd
| Blank
| InWord
| InQuote (q : N)
| InEscape (e : N).

(** [self.whitespace]: space, tab, carriage return, line feed. *)
Definition whitespace (c : N) : bool :=
  (c =? 32) || (c =? 9) || (c =? 13) || (c =? 10).
(** [self.quotes]: the single and the double quote. *)
Definition quotes (c : N) : bool := (c =? 39) || (c =? 34).
(** [self.escape]: the backslash. *)
Definition escape (c : N) : bool := c =? 92.
(** [self.escapedquotes]: the double quote. *)
Definition escapedquotes (c : N) : bool := c =? 34.

Definition state_in_quotes (s : lex_state) : bool :=
  match s with InQuote q => quotes q | _ => false end.

Definition state_char_neq (c : N) (s : lex_state) : bool :=
  match s with
  | InQuote q => negb (c =? q)
  | InEscape e => negb (c =? e)
  | Blank => negb (c =? 32)
  | InWord => negb (c =? 97)
  | AtEnd => true
  end.

Definition no_closing_quotation : exc :=
  Exc ValueError (py "No closing quotation").
Definition no_escaped_character : exc :=
  Exc ValueError (py "No escaped character").

(** The end of one [read_token] call: the token is [None] when it is
    empty and nothing was quoted, and [None] ends the iteration of
    [list(lex)]; otherwise the token is yielded and [rest] reads the
    following ones. *)
Definition yield (quoted : bool) (token : pstr)
           (rest : res (list pstr)) : res (list pstr) :=
  if negb quoted && str_eqb token [] then Ok []
  else toks ← rest; Ok (token :: toks).

(** [list(lex)] for a lexer with [posix = True],
    [whitespace_split = True], no commenters and no punctuation
    characters: the loop of [read_token], restarted with fresh locals
    ([quoted] false, [escapedstate] a space, [token] empty) after each
    [break].  With [whitespace_split] the [wordchars] branch and the
    final [whitespace_split] branch do the same, so they are one
    branch here. *)
Fixpoint read_tokens (state escapedstate : lex_state) (quoted : bool)
         (token : pstr) (instream : pstr) : res (list pstr) :=
  match instream with
  | [] =>
      match state with
      | AtEnd => yield quoted [] (Ok [])
      | Blank | InWord => yield quoted token (Ok [])
      | InQuote _ => Raise no_closing_quotation
      | InEscape _ => Raise no_escaped_character
      end
  | nextchar :: more =>
      match state with
      | AtEnd => yield quoted [] (Ok [])
      | Blank =>
          if whitespace nextchar then
            if negb (str_eqb token []) || quoted
            then yield quoted token (read_tokens Blank Blank false [] more)
            else read_tokens Blank escapedstate quoted token more
          else if escape nextchar then
            read_tokens (InEscape nextchar) InWord quoted token more
          else if quotes nextchar then
            read_tokens (InQuote nextchar) escapedstate quoted token more
          else
            read_tokens InWord escapedstate quoted [nextchar] more
      | InQuote q =>
          if nextchar =? q then
            read_tokens InWord escapedstate true token more
          else if escape nextchar && escapedquotes q then
            read_tokens (InEscape nextchar) (InQuote q) true token more
          else
            read_tokens (InQuote q) escapedstate true
                        (token ++ [nextchar]) more
      | InEscape e =>
          let token1 :=
            if state_in_quotes escapedstate
               && negb (nextchar =? e)
               && state_char_neq nextchar escapedstate
            then token ++ [e] else token in
          read_tokens escapedstate escapedstate quoted
                      (token1 ++ [nextchar]) more
      | InWord =>
          if whitespace nextchar then
            if negb (str_eqb token []) || quoted
            then yield quoted token (read_tokens Blank Blank false [] more)
            else read_tokens Blank escapedstate quoted token more
          else if quotes nextchar then
            read_tokens (InQuote nextchar) escapedstate quoted token more
          else if escape nextchar then
            read_tokens (InEscape nextchar) InWord quoted token more
          else
            read_tokens InWord escapedstate quoted
                        (token ++ [nextchar]) more
      end
  end.

(** [shlex.split(s)] *)
Definition split (s : pstr) : res (list pstr) :=
  read_tokens Blank Blank false [] s.

End shlex.

(** ** UTF-8 text files

    [open(path, 'w', encoding='utf-8')] and
    [open(path, 'r', encoding='utf-8', errors='ignore')] in text mode with
    the default [newline=None]. *)

Module textio.

(** The bytes of one code point; surrogates cannot be encoded. *)
Definition encode_char (c : N) : option (list N) :=
  if c <? 128 then Some [c]
  else if c <? 2048 then Some [192 + c / 64; 128 + c mod 64]
  else if c <? 65536 then
    if (55296 <=? c) && (c <=? 57343) then None
    else Some [224 + c / 4096; 128 + (c / 64) mod 64; 128 + c mod 64]
  else if c <? 1114112 then
    Some [240 + c / 262144; 128 + (c / 4096) mod 64;
          128 + (c / 64) mod 64; 128 + c mod 64]
  else None.

(** [text.encode('utf-8')]: [None] stands for [UnicodeEncodeError]. *)
Fixpoint utf8_encode (text : pstr) : option (list N) :=
  match text with
  | [] => Some []
  | c :: text' =>
      match encode_char c, utf8_encode text' with
      | Some bs, Some bs' => Some (bs ++ bs')
      | _, _ => None
      end
  end.

Definition is_cont (b : N) : bool := (128 <=? b) && (b <=? 191).

(** [data.decode('utf-8', errors='ignore')]: an invalid start byte is
    dropped; a sequence broken by an invalid continuation byte is
    dropped up to that byte, where decoding resumes; a sequence cut by
    the end of the data is dropped. *)
Fixpoint utf8_decode_ignore (data : list N) : pstr :=
  match data with
  | [] => []
  | b1 :: r1 =>
      if b1 <? 128 then b1 :: utf8_decode_ignore r1
      else if b1 <? 194 then utf8_decode_ignore r1
      else if b1 <? 224 then
        match r1 with
        | [] => []
        | b2 :: r2 =>
            if is_cont b2
            then ((b1 - 192) * 64 + (b2 - 128)) :: utf8_decode_ignore r2
            else utf8_decode_ignore r1
        end
      else if b1 <? 240 then
        match r1 with
        | [] => []
        | b2 :: r2 =>
            if negb (is_cont b2)
               || (if b2 <? 160 then b1 =? 224 else b1 =? 237)
            then utf8_decode_ignore r1
            else match r2 with
                 | [] => []
                 | b3 :: r3 =>
                     if is_cont b3
                     then ((b1 - 224) * 4096 + (b2 - 128) * 64 + (b3 - 128))
                            :: utf8_decode_ignore r3
                     else utf8_decode_ignore r2
                 end
        end
      else if b1 <? 245 then
        match r1 with
        | [] => []
        | b2 :: r2 =>
            if negb (is_cont b2)
               || (if b2 <? 144 then b1 =? 240 else b1 =? 244)
            then utf8_decode_ignore r1
            else match r2 with
                 | [] => []
                 | b3 :: r3 =>
                     if negb (is_cont b3) then utf8_decode_ignore r2
                     else match r3 with
                          | [] => []
                          | b4 :: r4 =>
                              if is_cont b4
                              then ((b1 - 240) * 262144 + (b2 - 128) * 4096
                                    + (b3 - 128) * 64 + (b4 - 128))
                                     :: utf8_decode_ignore r4
                              else utf8_decode_ignore r3
                          end
                 end
        end
      else utf8_decode_ignore r1
  end.

(** Universal newlines on reading: CR LF and a lone CR become LF. *)
Fixpoint translate_newlines (text : pstr) : pstr :=
  match text with
  | [] => []
  | 13 :: text' =>
      match text' with
      | 10 :: text'' => 10 :: translate_newlines text''
      | _ => 10 :: translate_newlines text'
      end
  | c :: text' => c :: translate_newlines text'
  end.

(** What [f.write(text)] puts in the file: LF is written as
    [os.linesep], which is LF itself here. *)
Definition write_bytes (text : pstr) : option (list N) := utf8_encode text.

(** What [f.read()] returns for the bytes of a file. *)
Definition read_text (data : list N) : pstr :=
  translate_newlines (utf8_decode_ignore data).

End textio.

(** ** The operating system *)

(** A file-system node: a directory, or a regular file with its bytes. *)
Inductive node :=
| Dir
| File (data : list N).

#[global] Instance node_eq_dec : EqDecision node.
Proof. solve_decision. Defined.

(** Nodes are keyed by the components of their absolute location; a
    name is the string that names it. *)
Abbreviation fs := (gmap (list pstr) node).

(** What [subprocess.run] gives for a started command. *)
Record CompletedProcess := {
  stdout : pstr;
  stderr : pstr;
  returncode : Z;
}.

(** The host: the working directory of the editor process, the
    environment it inherited, the image test on the guessed MIME type of
    a path ([mimetypes.guess_type]), and what launching a command does to
    the files and returns (or raises). *)
Record World := {
  proc_cwd : list pstr;
  environ : gmap pstr pstr;
  guess_image : pstr -> bool;
  launch : list pstr -> pstr -> gmap pstr pstr -> fs -> res CompletedProcess * fs;
}.

(** The state of the host: its files, and the commands handed to the
    process launcher so far, with their working directory. *)
Record OS := {
  files : fs;
  launched : list (list pstr * pstr);
}.

Module os.
Import posixpath.

(** Resolving components from a location kept reversed; [..] goes to
    the parent (there are no symbolic links).  The names are not looked
    up on the way: a [..] or a final slash behind a name that is no
    directory, which the host refuses, resolves here all the same.  A
    path in normal form has its [..] at the head only and no final
    slash. *)
Fixpoint walk (cur : list pstr) (comps : list pstr) : list pstr :=
  match comps with
  | [] => rev cur
  | c :: comps' =>
      if str_eqb c [] || str_eqb c dot then walk cur comps'
      else if str_eqb c dotdot then walk (tail cur) comps'
      else walk (c :: cur) comps'
  end.

(** The location a path names. *)
Definition locate (w : World) (path : pstr) : list pstr :=
  walk (if isabs path then [] else rev (proc_cwd w)) (split_on sep path).

(** A character that the encoding of the file system can write: a code
    point that is not a surrogate, or one of U+DC80 to U+DCFF, which
    stand for the raw bytes 128 to 255 ([surrogateescape]). *)
Definition encodable (c : N) : bool :=
  (c <? 1114112)
  && (negb ((55296 <=? c) && (c <=? 57343))
      || ((56448 <=? c) && (c <=? 56575))).

(** The bytes a character of a path takes. *)
Definition width (c : N) : N :=
  if c <? 128 then 1
  else if c <? 2048 then 2
  else if (56448 <=? c) && (c <=? 56575) then 1
  else if c <? 65536 then 3
  else 4.

Definition byte_length (path : pstr) : N :=
  fold_right (fun c n => width c + n) 0 path.

(** The limits of Linux on a name and on a path with its final NUL. *)
Definition NAME_MAX : N := 255.
Definition PATH_MAX : N := 4096.

Definition name_too_long : exc := Exc OSError (py "File name too long").

(** What Python raises for a path before the system is asked: the path
    cannot be encoded, or it holds a NUL. *)
Definition unusable (path : pstr) : option exc :=
  if negb (forallb encodable path)
  then Some (Exc UnicodeEncodeError (py "surrogates not allowed"))
  else if existsb (N.eqb 0) path
  then Some (Exc ValueError (py "embedded null byte"))
  else None.

(** What a call raises for a path whatever the files are: that, or the
    error of the system for a path or a name in it that is too long. *)
Definition refusal (path : pstr) : option exc :=
  match unusable path with
  | Some e => Some e
  | None =>
      if (PATH_MAX <=? byte_length path)
         || existsb (fun c => NAME_MAX <? byte_length c) (split_on sep path)
      then Some name_too_long
      else None
  end.

(** What [os.stat] finds; an error, a refused path included, counts as
    nothing there. *)
Definition lookup (w : World) (o : OS) (path : pstr) : option node :=
  match path with
  | [] => None
  | _ =>
      match refusal path with
      | Some _ => None
      | None => files o !! locate w path
      end
  end.

(** [os.path.exists] *)
Definition exists_ (w : World) (o : OS) (path : pstr) : bool :=
  match lookup w o path with Some _ => true | None => false end.

(** [os.path.isdir] *)
Definition isdir (w : World) (o : OS) (path : pstr) : bool :=
  match lookup w o path with Some Dir => true | _ => false end.

Definition parent (loc : list pstr) : list pstr := removelast loc.

(** The bytes of the names [todo] in a path, each behind a slash. *)
Definition rest_bytes (todo : list pstr) : N :=
  fold_right (fun c n => byte_length c + 1 + n) 0 todo.

(** Creating the missing directories along [todo] below [done], for a
    path of [len] bytes: [os.makedirs] calls [mkdir] for one prefix of
    the path after the other, so the directories before a name that is
    refused are made. A prefix is refused when its last name cannot be
    used, when the prefix has [PATH_MAX] bytes or more, and, where the
    name is new in a directory, when it has more than [NAME_MAX]. *)
Fixpoint mkdirs (len : N) (f : fs) (done todo : list pstr)
  : res unit * fs :=
  match todo with
  | [] => (Ok tt, f)
  | c :: todo' =>
      let loc := done ++ [c] in
      match unusable c with
      | Some e => (Raise e, f)
      | None =>
          if PATH_MAX + rest_bytes todo' <=? len
          then (Raise name_too_long, f)
          else
            match f !! loc with
            | Some Dir => mkdirs len f loc todo'
            | Some (File _) =>
                (Raise
                   match todo' with
                   | [] => Exc FileExistsError (py "makedirs")
                   | c' :: rest =>
                       match unusable c' with
                       | Some e => e
                       | None =>
                           if PATH_MAX + rest_bytes rest <=? len
                           then name_too_long
                           else Exc NotADirectoryError (py "makedirs")
                       end
                   end, f)
            | None =>
                if NAME_MAX <? byte_length c then (Raise name_too_long, f)
                else mkdirs len (<[loc := Dir]> f) loc todo'
            end
      end
  end.

(** [os.makedirs(name, exist_ok=True)] *)
Definition makedirs (w : World) (o : OS) (name : pstr) : res unit * OS :=
  match name with
  | [] => (Raise (Exc FileNotFoundError (py "makedirs")), o)
  | _ =>
      let '(r, f) :=
        mkdirs (byte_length name) (files o) [] (locate w name) in
      (r, {| files := f; launched := launched o |})
  end.

(** Going through the directories [todo] below [done], as the system
    does on the way to the last name of a path: the error at the first
    that is not there (a name over [NAME_MAX] cannot be) or is a regular
    file. *)
Fixpoint enter (f : fs) (done todo : list pstr) : option exc :=
  match todo with
  | [] => None
  | c :: todo' =>
      match f !! (done ++ [c]) with
      | Some Dir => enter f (done ++ [c]) todo'
      | Some (File _) => Some (Exc NotADirectoryError (py "open"))
      | None =>
          Some (if NAME_MAX <? byte_length c then name_too_long
                else Exc FileNotFoundError (py "open"))
      end
  end.

(** [with open(path, 'w', encoding='utf-8') as f: f.write(text)]:
    opening truncates, so text that cannot be encoded leaves an empty
    file behind. *)
Definition write_text (w : World) (o : OS) (path text : pstr)
  : res unit * OS :=
  match path with
  | [] => (Raise (Exc FileNotFoundError (py "open")), o)
  | _ =>
      match unusable path with
      | Some e => (Raise e, o)
      | None =>
          if PATH_MAX <=? byte_length path then (Raise name_too_long, o)
          else
            let loc := locate w path in
            match enter (files o) [] (parent loc) with
            | Some e => (Raise e, o)
            | None =>
                match last loc, files o !! loc with
                | None, _ | Some _, Some Dir =>
                    (Raise (Exc IsADirectoryError (py "open")), o)
                | Some c, there =>
                    if bool_decide (there = None)
                       && (NAME_MAX <? byte_length c)
                    then (Raise name_too_long, o)
                    else
                      match textio.write_bytes text with
                      | Some data =>
                          (Ok tt,
                           {| files := <[loc := File data]> (files o);
                              launched := launched o |})
                      | None =>
                          (Raise (Exc UnicodeEncodeError (py "write")),
                           {| files := <[loc := File []]> (files o);
                              launched := launched o |})
                      end
                end
            end
      end
  end.

(** [with open(path, 'r', encoding='utf-8', errors='ignore') as f:
    return f.read()] *)
Definition read_text (w : World) (o : OS) (path : pstr) : res pstr :=
  match refusal path with
  | Some e => Raise e
  | None =>
      match lookup w o path with
      | None => Raise (Exc FileNotFoundError (py "open"))
      | Some Dir => Raise (Exc IsADirectoryError (py "open"))
      | Some (File data) => Ok (textio.read_text data)
      end
  end.

(** [subprocess.run(args, cwd=..., env=..., capture_output=True,
    text=True, timeout=30)]: an empty argument list fails on its first
    element before anything is started. *)
Definition subprocess_run (w : World) (o : OS) (args : list pstr)
           (cwd : pstr) (env : gmap pstr pstr)
  : res CompletedProcess * OS :=
  match args with
  | [] => (Raise (Exc IndexError (py "list index out of range")), o)
  | _ =>
      let '(r, f) := launch w args cwd env (files o) in
      (r, {| files := f; launched := launched o ++ [(args, cwd)] |})
  end.

(** [os.makedirs(name)] with [exist_ok=False]: a leaf that exists is an
    error. *)
Definition makedirs_fresh (w : World) (o : OS) (name : pstr) : res unit * OS :=
  match name with
  | [] => (Raise (Exc FileNotFoundError (py "makedirs")), o)
  | _ =>
      match lookup w o name with
      | Some _ => (Raise (Exc FileExistsError (py "makedirs")), o)
      | None =>
          let '(r, f) :=
            mkdirs (byte_length name) (files o) [] (locate w name) in
          (r, {| files := f; launched := launched o |})
      end
  end.

(** [os.remove(path)] *)
Definition remove (w : World) (o : OS) (path : pstr) : res unit * OS :=
  match refusal path with
  | Some e => (Raise e, o)
  | None =>
      match lookup w o path with
      | None => (Raise (Exc FileNotFoundError (py "remove")), o)
      | Some Dir => (Raise (Exc IsADirectoryError (py "remove")), o)
      | Some (File _) =>
          (Ok tt, {| files := delete (locate w path) (files o);
                     launched := launched o |})
      end
  end.

(** The name a call is to remove or to move: the last of the path that
    is not empty. *)
Definition last_name (path : pstr) : option pstr :=
  last (List.filter (fun c => negb (str_eqb c [])) (split_on sep path)).

(** A path that only goes up: nothing but [.] and [..]. *)
Definition goes_up (path : pstr) : bool :=
  forallb (fun c => str_eqb c [] || str_eqb c dot || str_eqb c dotdot)
          (split_on sep path).

(** [shutil.rmtree(path)]: what lies below the directory is removed, and
    then the directory by [rmdir], which refuses the root directory and
    a path whose last name is [.] or [..]; such a directory is left
    empty. *)
Definition rmtree (w : World) (o : OS) (path : pstr) : res unit * OS :=
  match refusal path with
  | Some e => (Raise e, o)
  | None =>
      match lookup w o path with
      | None => (Raise (Exc FileNotFoundError (py "rmtree")), o)
      | Some (File _) => (Raise (Exc NotADirectoryError (py "rmtree")), o)
      | Some Dir =>
          let loc := locate w path in
          let emptied :=
            {| files := filter (fun kn => ~ (loc `prefix_of` kn.1
                                             /\ kn.1 ≠ loc)) (files o);
               launched := launched o |} in
          match last_name path with
          | None => (Raise (Exc OSError (py "rmdir")), emptied)
          | Some c =>
              if str_eqb c dot then (Raise (Exc OSError (py "rmdir")), emptied)
              else if str_eqb c dotdot then
                (Raise (Exc (if goes_up path then OSError
                             else FileNotFoundError) (py "rmdir")), emptied)
              else
                (Ok tt,
                 {| files := filter (fun kn => ~ loc `prefix_of` kn.1)
                                    (files o);
                    launched := launched o |})
          end
      end
  end.

(** What lies at or below [s], by its location relative to [s]. *)
Definition under (s k : list pstr) : option (list pstr) :=
  if decide (s `prefix_of` k) then Some (drop (length s) k) else None.

(** The files after the tree at [s] was moved to [d]. *)
Definition move_tree (s d : list pstr) (f : fs) : fs :=
  list_to_map
    (omap (fun kn => rest ← under s kn.1; Some (d ++ rest, kn.2))
          (map_to_list f))
  ∪ filter (fun kn => ~ s `prefix_of` kn.1) f.

(** Whether something lies strictly below [loc]. *)
Definition has_entries (f : fs) (loc : list pstr) : bool :=
  negb (bool_decide
          (filter (fun kn => loc `prefix_of` kn.1 /\ kn.1 ≠ loc) f = ∅)).

(** Whether [rename] takes the last name of a path: not the root
    directory, not [.], not [..]. *)
Definition movable (path : pstr) : bool :=
  match last_name path with
  | None => false
  | Some c => negb (str_eqb c dot) && negb (str_eqb c dotdot)
  end.

(** [os.rename(src, dst)] *)
Definition rename (w : World) (o : OS) (src dst : pstr) : res unit * OS :=
  match refusal src, refusal dst, lookup w o src, dst with
  | Some e, _, _, _ => (Raise e, o)
  | None, _, _, [] => (Raise (Exc FileNotFoundError (py "rename")), o)
  | None, Some e, _, _ => (Raise e, o)
  | None, None, None, _ => (Raise (Exc FileNotFoundError (py "rename")), o)
  | None, None, Some n, _ =>
      let s := locate w src in
      let d := locate w dst in
      let moved := (Ok tt, {| files := move_tree s d (files o);
                              launched := launched o |}) in
      if negb (movable src && movable dst)
      then (Raise (Exc OSError (py "rename")), o)
      else if decide (s = d) then (Ok tt, o)
      else if decide (s `prefix_of` d) then
        match n with
        | Dir => (Raise (Exc OSError (py "rename")), o)
        | File _ => (Raise (Exc NotADirectoryError (py "rename")), o)
        end
      else
        match files o !! parent d with
        | None => (Raise (Exc FileNotFoundError (py "rename")), o)
        | Some (File _) => (Raise (Exc NotADirectoryError (py "rename")), o)
        | Some Dir =>
            match n, files o !! d with
            | File _, Some Dir =>
                (Raise (Exc IsADirectoryError (py "rename")), o)
            | Dir, Some (File _) =>
                (Raise (Exc NotADirectoryError (py "rename")), o)
            | Dir, Some Dir =>
                if has_entries (files o) d
                then (Raise (Exc OSError (py "rename")), o)
                else moved
            | _, _ => moved
            end
        end
  end.

End os.

(** ** [file_service.py] *)

Module FileService.
Import posixpath.

Record t := { workspace_dir : pstr }.

(** [PathEscapeError] of the specification. *)
Definition path_outside : exc :=
  Exc ValueError (py "Path outside workspace not allowed").

(** [AlreadyExistsError] of the specification. *)
Definition already_exists (file_path : pstr) : exc :=
  Exc ValueError (py "File already exists: " ++ file_path).

Definition not_found (file_path : pstr) : exc :=
  Exc FileNotFoundError (py "File not found: " ++ file_path).

Definition is_directory (file_path : pstr) : exc :=
  Exc ValueError (py "Path is a directory: " ++ file_path).

Definition binary_file (file_path : pstr) : exc :=
  Exc ValueError (py "Cannot read binary file: " ++ file_path).

Definition _get_full_path (self : t) (relative_path : pstr) : res pstr :=
  match relative_path with
  | [] => Ok (workspace_dir self)
  | _ =>
      let full_path := normpath (join (workspace_dir self) relative_path) in
      if negb (startswith full_path (workspace_dir self))
      then Raise path_outside
      else Ok full_path
  end.

(** The [except] clauses of the methods below log and re-raise, so they
    leave results as they are. *)
Definition read_file (w : World) (self : t) (o : OS) (file_path : pstr)
  : res pstr :=
  full_path ← _get_full_path self file_path;
  if negb (os.exists_ w o full_path) then Raise (not_found file_path)
  else if os.isdir w o full_path then Raise (is_directory file_path)
  else if guess_image w full_path then Raise (binary_file file_path)
  else os.read_text w o full_path.

Definition write_file (w : World) (self : t) (o : OS)
           (file_path content : pstr) : res unit * OS :=
  match _get_full_path self file_path with
  | Raise e => (Raise e, o)
  | Ok full_path =>
      match os.makedirs w o (dirname full_path) with
      | (Raise e, o1) => (Raise e, o1)
      | (Ok _, o1) => os.write_text w o1 full_path content
      end
  end.

Definition create_file (w : World) (self : t) (o : OS) (file_path : pstr)
  : res unit * OS :=
  match _get_full_path self file_path with
  | Raise e => (Raise e, o)
  | Ok full_path =>
      if os.exists_ w o full_path then (Raise (already_exists file_path), o)
      else
        match os.makedirs w o (dirname full_path) with
        | (Raise e, o1) => (Raise e, o1)
        | (Ok _, o1) => os.write_text w o1 full_path []
        end
  end.

Definition directory_exists (dir_path : pstr) : exc :=
  Exc ValueError (py "Directory already exists: " ++ dir_path).

Definition destination_exists (new_path : pstr) : exc :=
  Exc ValueError (py "Destination already exists: " ++ new_path).

Definition create_directory (w : World) (self : t) (o : OS)
           (dir_path : pstr) : res unit * OS :=
  match _get_full_path self dir_path with
  | Raise e => (Raise e, o)
  | Ok full_path =>
      if os.exists_ w o full_path then (Raise (directory_exists dir_path), o)
      else os.makedirs_fresh w o full_path
  end.

Definition delete_file (w : World) (self : t) (o : OS) (file_path : pstr)
  : res unit * OS :=
  match _get_full_path self file_path with
  | Raise e => (Raise e, o)
  | Ok full_path =>
      if negb (os.exists_ w o full_path) then (Raise (not_found file_path), o)
      else if os.isdir w o full_path then os.rmtree w o full_path
      else os.remove w o full_path
  end.

Definition rename_file (w : World) (self : t) (o : OS)
           (old_path new_path : pstr) : res unit * OS :=
  match _get_full_path self old_path with
  | Raise e => (Raise e, o)
  | Ok old_full_path =>
      match _get_full_path self new_path with
      | Raise e => (Raise e, o)
      | Ok new_full_path =>
          if negb (os.exists_ w o old_full_path)
          then (Raise (not_found old_path), o)
          else if os.exists_ w o new_full_path
          then (Raise (destination_exists new_path), o)
          else
            match os.makedirs w o (dirname new_full_path) with
            | (Raise e, o1) => (Raise e, o1)
            | (Ok _, o1) => os.rename w o1 old_full_path new_full_path
            end
      end
  end.

(** [self.language_map] *)
Definition language_map : list (pstr * pstr) :=
  [(py ".py", py "python"); (py ".js", py "javascript");
   (py ".ts", py "typescript"); (py ".java", py "java"); (py ".c", py "c");
   (py ".cpp", py "cpp"); (py ".cxx", py "cpp"); (py ".cc", py "cpp");
   (py ".h", py "c"); (py ".hpp", py "cpp"); (py ".html", py "html");
   (py ".css", py "css"); (py ".scss", py "scss"); (py ".less", py "less");
   (py ".json", py "json"); (py ".xml", py "xml"); (py ".yaml", py "yaml");
   (py ".yml", py "yaml"); (py ".md", py "markdown");
   (py ".txt", py "plaintext"); (py ".sql", py "sql"); (py ".sh", py "shell");
   (py ".bash", py "shell"); (py ".php", py "php"); (py ".rb", py "ruby");
   (py ".go", py "go"); (py ".rs", py "rust"); (py ".swift", py "swift");
   (py ".kt", py "kotlin"); (py ".scala", py "scala"); (py ".r", py "r");
   (py ".m", py "objective-c"); (py ".pl", py "perl"); (py ".lua", py "lua");
   (py ".dart", py "dart")].

(** [d.get(key)] on a dictionary written as its list of items. *)
Fixpoint dict_get (d : list (pstr * pstr)) (key : pstr) : option pstr :=
  match d with
  | [] => None
  | (k, v) :: d' => if str_eqb k key then Some v else dict_get d' key
  end.

(** [detect_language]; [lower] is [str.lower], which follows the Unicode
    tables of the host outside ASCII. *)
Definition detect_language (lower : pstr -> pstr) (self : t)
           (file_path : pstr) : pstr :=
  let '(_, ext) := splitext (lower file_path) in
  default (py "plaintext") (dict_get language_map ext).

End FileService.

(** ** [terminal_service.py] *)

Record TerminalResult := {
  output : pstr;
  error : pstr;
  exit_code : Z;
}.

(** A session dictionary: the keys [cwd] and [env], and, once the
    terminal was resized, [rows] and [cols]. *)
Record Session := {
  cwd : pstr;
  env : gmap pstr pstr;
  rows : option Z;
  cols : option Z;
}.

Module TerminalService.
Import posixpath.

Record t := {
  workspace_dir : pstr;
  sessions : gmap pstr Session;
}.

Definition new_session (w : World) (self : t) : Session :=
  {| cwd := workspace_dir self; env := environ w;
     rows := None; cols := None |}.

Definition set_cwd (session : Session) (new_path : pstr) : Session :=
  {| cwd := new_path; env := env session;
     rows := rows session; cols := cols session |}.

Definition failure (message : pstr) (code : Z) : TerminalResult :=
  {| output := []; error := message; exit_code := code |}.

Definition access_denied : TerminalResult :=
  failure (py "Access denied: path outside workspace" ++ [10]) 1.

(** The body of the [try] of [_handle_cd_command]; the session
    dictionary is updated in place, so the new one is returned. *)
Definition cd_body (w : World) (self : t) (o : OS) (command : pstr)
           (session : Session) : res (TerminalResult * Session) :=
  let parts := split_ws_1 (strip command) in
  target ←
    (if (length parts =? 1)%nat then
       Ok (inr (workspace_dir self, py "~"))
     else
       match parts !! 1%nat with
       | None => Raise (Exc IndexError (py "list index out of range"))
       | Some path =>
           let new_path :=
             if isabs path then normpath path
             else normpath (join (cwd session) path) in
           if negb (startswith new_path (workspace_dir self))
           then Ok (inl access_denied)
           else Ok (inr (new_path, path))
       end);
  match target with
  | inl denied => Ok (denied, session)
  | inr (new_path, path_name) =>
      if negb (os.exists_ w o new_path) then
        Ok (failure (py "No such file or directory: " ++ path_name ++ [10]) 1,
            session)
      else if negb (os.isdir w o new_path) then
        Ok (failure (py "Not a directory: " ++ path_name ++ [10]) 1,
            session)
      else
        Ok ({| output := []; error := []; exit_code := 0 |},
            set_cwd session new_path)
  end.

Definition _handle_cd_command (w : World) (self : t) (o : OS)
           (command : pstr) (session : Session)
  : TerminalResult * Session :=
  match cd_body w self o command session with
  | Ok r => r
  | Raise e => (failure (py "cd error: " ++ exc_msg e ++ [10]) 1, session)
  end.

Definition dangerous_commands : list pstr :=
  [py "rm"; py "rmdir"; py "del"; py "format"; py "fdisk"; py "mkfs"].

Definition is_dangerous (arg : pstr) : bool :=
  bool_decide (arg ∈ dangerous_commands).

(** The [except] clauses of the inner [try]; [args] is what the
    variable held when the exception was raised. *)
Definition command_failed (command : pstr) (args : list pstr) (e : exc)
  : TerminalResult :=
  match exc_cls e with
  | TimeoutExpired =>
      failure (py "Command timed out after 30 seconds" ++ [10]) 124
  | FileNotFoundError =>
      failure (py "Command not found: "
               ++ match args with a :: _ => a | [] => command end
               ++ [10]) 127
  | _ => failure (py "Error executing command: " ++ exc_msg e ++ [10]) 1
  end.

Definition completed (result : CompletedProcess) : TerminalResult :=
  {| output := stdout result; error := stderr result;
     exit_code := returncode result |}.

Definition not_allowed (arg : pstr) : TerminalResult :=
  failure (py "Command " ++ [34] ++ arg ++ [34]
           ++ py " is not allowed for security reasons" ++ [10]) 1.

(** The inner [try] block with its [except] clauses. *)
Definition run_external (w : World) (o : OS) (command : pstr)
           (session : Session) : TerminalResult * OS :=
  match shlex.split command with
  | Raise e => (command_failed command [] e, o)
  | Ok args =>
      match args with
      | a :: _ =>
          if is_dangerous a then (not_allowed a, o)
          else
            match os.subprocess_run w o args (cwd session) (env session) with
            | (Ok result, o1) => (completed result, o1)
            | (Raise e, o1) => (command_failed command args e, o1)
            end
      | [] =>
          match os.subprocess_run w o [] (cwd session) (env session) with
          | (Ok result, o1) => (completed result, o1)
          | (Raise e, o1) => (command_failed command [] e, o1)
          end
      end
  end.

(** [self.sessions] after the lazy initialisation of [session_id]. *)
Definition ensure_session (w : World) (self : t) (session_id : pstr)
  : gmap pstr Session :=
  match sessions self !! session_id with
  | Some _ => sessions self
  | None => <[session_id := new_session w self]> (sessions self)
  end.

(** [self.sessions[session_id]] after that initialisation. *)
Definition current_session (w : World) (self : t) (session_id : pstr)
  : Session :=
  default (new_session w self) (sessions self !! session_id).

Definition with_sessions (self : t) (m : gmap pstr Session) : t :=
  {| workspace_dir := workspace_dir self; sessions := m |}.

(** The body of the outer [try] of [execute_command]. *)
Definition execute_body (w : World) (self : t) (o : OS)
           (command session_id : pstr) : res TerminalResult * t * OS :=
  let sessions1 := ensure_session w self session_id in
  let session := current_session w self session_id in
  if startswith (strip command) (py "cd ") then
    let '(result, session') := _handle_cd_command w self o command session in
    (Ok result, with_sessions self (<[session_id := session']> sessions1), o)
  else if str_eqb (strip command) (py "pwd") then
    (Ok {| output := cwd session ++ [10]; error := []; exit_code := 0 |},
     with_sessions self sessions1, o)
  else if str_eqb (strip command) (py "clear") then
    (Ok {| output := [27] ++ py "[2J" ++ [27] ++ py "[H";
           error := []; exit_code := 0 |},
     with_sessions self sessions1, o)
  else
    let '(result, o1) := run_external w o command session in
    (Ok result, with_sessions self sessions1, o1).

(** [execute_command]: whatever the body raises becomes a result. *)
Definition execute_command (w : World) (self : t) (o : OS)
           (command session_id : pstr) : TerminalResult * t * OS :=
  match execute_body w self o command session_id with
  | (Ok result, self1, o1) => (result, self1, o1)
  | (Raise e, self1, o1) =>
      (failure (py "Terminal error: " ++ exc_msg e ++ [10]) 1, self1, o1)
  end.

(** [resize_terminal] *)
Definition resize_terminal (w : World) (self : t) (session_id : pstr)
           (r c : Z) : t :=
  let session := current_session w self session_id in
  with_sessions self
    (<[session_id := {| cwd := cwd session; env := env session;
                        rows := Some r; cols := Some c |}]> (sessions self)).

(** [get_session_info]: the session is created when missing, and a copy
    of its dictionary is returned. *)
Definition get_session_info (w : World) (self : t) (session_id : pstr)
  : Session * t :=
  (current_session w self session_id,
   with_sessions self (ensure_session w self session_id)).

End TerminalService.

(** ** [git_service.py]: the repository status *)

Record GitStatus := {
  branch : pstr;
  modified_files : list pstr;
  staged_files : list pstr;
  untracked_files : list pstr;
}.

Module GitService.

Record t := { workspace_dir : pstr }.

(** [c in chars] for the character at an index of the status code. *)
Definition char_in (c : option N) (chars : list N) : bool :=
  match c with
  | Some c => existsb (N.eqb c) chars
  | None => false
  end.

(** The lists [modified_files], [staged_files], [untracked_files]
    the loop of [get_status] appends to. *)
Record lists := {
  modified : list pstr;
  staged : list pstr;
  untracked : list pstr;
}.

(** The body of the loop over the porcelain lines. *)
Definition status_line (acc : lists) (line : pstr) : lists :=
  if (length line <? 3)%nat then acc
  else
    let status_code := slice_to 2 line in
    let file_path := slice_from 3 line in
    if char_in (status_code !! 0%nat) (py "MADRC") then
      {| modified := modified acc; staged := staged acc ++ [file_path];
         untracked := untracked acc |}
    else if char_in (status_code !! 1%nat) (py "MD") then
      {| modified := modified acc ++ [file_path]; staged := staged acc;
         untracked := untracked acc |}
    else if str_eqb status_code (py "??") then
      {| modified := modified acc; staged := staged acc;
         untracked := untracked acc ++ [file_path] |}
    else acc.

Definition parse_status (out : pstr) : lists :=
  fold_left status_line (splitlines out)
            {| modified := []; staged := []; untracked := [] |}.

(** [_run_git_command]: [subprocess.run(['git'] + command, ...)] in the
    workspace directory, with the inherited environment. *)
Definition _run_git_command (w : World) (self : t) (o : OS)
           (command : list pstr) : res CompletedProcess * OS :=
  os.subprocess_run w o (py "git" :: command) (workspace_dir self)
                    (environ w).

(** [is_git_repo]: any exception counts as no. *)
Definition is_git_repo (w : World) (self : t) (o : OS) : bool * OS :=
  match _run_git_command w self o [py "status"] with
  | (Ok result, o1) => (bool_decide (returncode result = 0%Z), o1)
  | (Raise _, o1) => (false, o1)
  end.

Definition init_repo (w : World) (self : t) (o : OS) : res unit * OS :=
  match _run_git_command w self o [py "init"] with
  | (Ok result, o1) =>
      if bool_decide (returncode result = 0%Z) then (Ok tt, o1)
      else (Raise (Exc RuntimeError
                       (py "Failed to initialize git repo: "
                        ++ stderr result)), o1)
  | (Raise e, o1) => (Raise e, o1)
  end.

Definition get_status (w : World) (self : t) (o : OS)
  : res GitStatus * OS :=
  let '(is_repo, o1) := is_git_repo w self o in
  let '(initialised, o2) :=
    if is_repo then (Ok tt, o1) else init_repo w self o1 in
  match initialised with
  | Raise e => (Raise e, o2)
  | Ok _ =>
      match _run_git_command w self o2 [py "branch"; py "--show-current"] with
      | (Raise e, o3) => (Raise e, o3)
      | (Ok branch_result, o3) =>
          let branch :=
            match strip (stdout branch_result) with
            | [] => py "main"
            | b => b
            end in
          match _run_git_command w self o3 [py "status"; py "--porcelain"] with
          | (Raise e, o4) => (Raise e, o4)
          | (Ok status_result, o4) =>
              let l := parse_status (stdout status_result) in
              (Ok {| branch := branch;
                     modified_files := modified l;
                     staged_files := staged l;
                     untracked_files := untracked l |}, o4)
          end
      end
  end.

(** [branch_result.stdout.strip() or 'main'] *)
Definition branch_or_main (out : pstr) : pstr :=
  match strip out with
  | [] => py "main"
  | b => b
  end.

Definition not_a_repository : pstr := py "Not a git repository".

(** [get_diff]: outside a repository the message is the result; an empty
    [file_path] counts as none. *)
Definition get_diff (w : World) (self : t) (o : OS)
           (file_path : option pstr) : res pstr * OS :=
  let '(is_repo, o1) := is_git_repo w self o in
  if negb is_repo then (Ok not_a_repository, o1)
  else
    let command :=
      py "diff" :: match file_path with
                   | Some (c :: p) => [c :: p]
                   | _ => []
                   end in
    match _run_git_command w self o1 command with
    | (Ok result, o2) => (Ok (stdout result), o2)
    | (Raise e, o2) => (Raise e, o2)
    end.

(** The loop of [add_files]: it ends at the first file that cannot be
    added. *)
Fixpoint add_each (w : World) (self : t) (o : OS) (files : list pstr)
  : res unit * OS :=
  match files with
  | [] => (Ok tt, o)
  | file_path :: files' =>
      match _run_git_command w self o [py "add"; file_path] with
      | (Ok result, o1) =>
          if bool_decide (returncode result = 0%Z)
          then add_each w self o1 files'
          else (Raise (Exc RuntimeError
                           (py "Failed to add file " ++ file_path
                            ++ py ": " ++ stderr result)), o1)
      | (Raise e, o1) => (Raise e, o1)
      end
  end.

Definition add_files (w : World) (self : t) (o : OS) (files : list pstr)
  : res unit * OS :=
  let '(is_repo, o1) := is_git_repo w self o in
  if negb is_repo then (Raise (Exc RuntimeError not_a_repository), o1)
  else add_each w self o1 files.

(** [commit_changes]: [files] that are [None] or empty stage everything;
    [add_files] asks again whether this is a repository. *)
Definition commit_changes (w : World) (self : t) (o : OS) (message : pstr)
           (files : option (list pstr)) : res unit * OS :=
  let '(is_repo, o1) := is_git_repo w self o in
  if negb is_repo then (Raise (Exc RuntimeError not_a_repository), o1)
  else
    let '(added, o2) :=
      match files with
      | Some (f :: fs) => add_files w self o1 (f :: fs)
      | _ =>
          match _run_git_command w self o1 [py "add"; py "-A"] with
          | (Ok result, o2) =>
              if bool_decide (returncode result = 0%Z) then (Ok tt, o2)
              else (Raise (Exc RuntimeError
                               (py "Failed to add files: "
                                ++ stderr result)), o2)
          | (Raise e, o2) => (Raise e, o2)
          end
      end in
    match added with
    | Raise e => (Raise e, o2)
    | Ok _ =>
        match _run_git_command w self o2 [py "commit"; py "-m"; message] with
        | (Raise e, o3) => (Raise e, o3)
        | (Ok result, o3) =>
            if bool_decide (returncode result = 0%Z) then (Ok tt, o3)
            else if contains (stdout result) (py "nothing to commit")
            then (Raise (Exc RuntimeError (py "Nothing to commit")), o3)
            else (Raise (Exc RuntimeError
                             (py "Failed to commit: " ++ stderr result)), o3)
        end
    end.

(** The branch [push_changes] and [pull_changes] work on: the one given,
    or the current one when none or an empty one is given. *)
Definition branch_to_use (w : World) (self : t) (o : OS)
           (branch : option pstr) : res pstr * OS :=
  match branch with
  | Some (c :: b) => (Ok (c :: b), o)
  | _ =>
      match _run_git_command w self o [py "branch"; py "--show-current"] with
      | (Ok branch_result, o1) => (Ok (branch_or_main (stdout branch_result)), o1)
      | (Raise e, o1) => (Raise e, o1)
      end
  end.

(** [push_changes]: a push that fails is tried again with [-u]. *)
Definition push_changes (w : World) (self : t) (o : OS) (remote : pstr)
           (branch : option pstr) : res unit * OS :=
  let '(is_repo, o1) := is_git_repo w self o in
  if negb is_repo then (Raise (Exc RuntimeError not_a_repository), o1)
  else
    match branch_to_use w self o1 branch with
    | (Raise e, o2) => (Raise e, o2)
    | (Ok branch, o2) =>
        match _run_git_command w self o2 [py "push"; remote; branch] with
        | (Raise e, o3) => (Raise e, o3)
        | (Ok result, o3) =>
            if bool_decide (returncode result = 0%Z) then (Ok tt, o3)
            else
              match _run_git_command w self o3
                                     [py "push"; py "-u"; remote; branch] with
              | (Raise e, o4) => (Raise e, o4)
              | (Ok result, o4) =>
                  if bool_decide (returncode result = 0%Z) then (Ok tt, o4)
                  else (Raise (Exc RuntimeError
                                   (py "Failed to push: "
                                    ++ stderr result)), o4)
              end
        end
    end.

Definition pull_changes (w : World) (self : t) (o : OS) (remote : pstr)
           (branch : option pstr) : res unit * OS :=
  let '(is_repo, o1) := is_git_repo w self o in
  if negb is_repo then (Raise (Exc RuntimeError not_a_repository), o1)
  else
    match branch_to_use w self o1 branch with
    | (Raise e, o2) => (Raise e, o2)
    | (Ok branch, o2) =>
        match _run_git_command w self o2 [py "pull"; remote; branch] with
        | (Raise e, o3) => (Raise e, o3)
        | (Ok result, o3) =>
            if bool_decide (returncode result = 0%Z) then (Ok tt, o3)
            else (Raise (Exc RuntimeError
                             (py "Failed to pull: " ++ stderr result)), o3)
        end
    end.

End GitService.

(** ** [ai_service.py]: the assistant *)

(** [models.AIResponse] *)
Module AIResponse.
Record t := {
  success : bool;
  content : pstr;
  error : option pstr;
}.
End AIResponse.

Module AIService.

(** The client of the language model: what [models.generate_content]
    gives for a model name and a prompt, the [text] of the response
    (which may be [None]) or the exception raised, with the text [str]
    gives for it. *)
Record Client := {
  generate_content : pstr -> pstr -> res (option pstr);
}.

Record t := { client : option Client }.

(** The dictionaries of [context], for callers that fill them as the
    editor does: a file with the keys [path] and [language] and, for the
    current file, [content]; an exchange with the keys [user] and
    [assistant]. A key that is missing, [None] or empty counts the same
    for [get]. *)
Record file := {
  path : pstr;
  language : pstr;
  content : option pstr;
}.

Record exchange := {
  user : pstr;
  assistant : pstr;
}.

Record context := {
  currentFile : option file;
  openFiles : list file;
  conversationHistory : list exchange;
}.

(** [context or {}] for a missing context. *)
Definition no_context : context :=
  {| currentFile := None; openFiles := []; conversationHistory := [] |}.

(** [__init__]: the client is made from [GEMINI_API_KEY], if it is set
    and not empty. *)
Definition __init__ (w : World) (connect : pstr -> Client) : t :=
  match environ w !! py "GEMINI_API_KEY" with
  | Some (c :: api_key) => {| client := Some (connect (c :: api_key)) |}
  | _ => {| client := None |}
  end.

Definition _is_available (self : t) : bool :=
  match client self with
  | Some _ => true
  | None => false
  end.

Definition not_available : AIResponse.t :=
  {| AIResponse.success := false;
     AIResponse.content := [];
     AIResponse.error :=
       Some (py "AI service not available. Please set GEMINI_API_KEY environment variable.") |}.

Definition preamble : pstr :=
  py "You are an expert programming assistant. You help developers with code analysis, refactoring, debugging, and general programming tasks.".

(** The parts for the current file. *)
Definition current_file_parts (ctx : context) : list pstr :=
  match currentFile ctx with
  | None => []
  | Some current_file =>
      (10 :: py "Current file: " ++ path current_file ++ py " ("
          ++ language current_file ++ py ")")
      :: match content current_file with
         | Some (c :: text) =>
             [py "```" ++ language current_file ++ [10]
                 ++ slice_to 2000 (c :: text) ++ py "..." ++ [10]
                 ++ py "```"]
         | _ => []
         end
  end.

(** The part for the open files. *)
Definition open_files_parts (ctx : context) : list pstr :=
  match openFiles ctx with
  | [] => []
  | _ =>
      let open_files := take 5 (openFiles ctx) in
      let file_list :=
        map (fun f => py "- " ++ path f ++ py " (" ++ language f ++ py ")")
            open_files in
      [10 :: py "Open files:" ++ [10] ++ join_with 10 file_list]
  end.

(** The parts for the conversation. *)
Definition conversation_parts (ctx : context) : list pstr :=
  match conversationHistory ctx with
  | [] => []
  | history =>
      (10 :: py "Recent conversation:")
      :: flat_map
           (fun e => [py "User: " ++ user e;
                      py "Assistant: " ++ slice_to 200 (assistant e)
                         ++ py "..."])
           (drop (length history - 3) history)
  end.

Definition _build_context_prompt (self : t) (message : pstr) (ctx : context)
  : pstr :=
  let prompt_parts :=
    [preamble]
    ++ current_file_parts ctx
    ++ open_files_parts ctx
    ++ conversation_parts ctx
    ++ [10 :: py "User request: " ++ message] in
  join_with 10 prompt_parts.

(** What the three operations do with a prompt: the answer of the model
    [gemini-2.5-flash], a fixed text in place of an empty one, or the
    error it raised. *)
Definition generate (c : Client) (prompt : pstr) : AIResponse.t :=
  match generate_content c (py "gemini-2.5-flash") prompt with
  | Ok text =>
      {| AIResponse.success := true;
         AIResponse.content :=
           match text with
           | Some (x :: s) => x :: s
           | _ => py "No response generated"
           end;
         AIResponse.error := None |}
  | Raise e =>
      {| AIResponse.success := false;
         AIResponse.content := [];
         AIResponse.error := Some (py "AI service error: " ++ exc_msg e) |}
  end.

Definition chat (self : t) (message : pstr) (ctx : option context)
  : AIResponse.t :=
  match client self with
  | None => not_available
  | Some c =>
      generate c (_build_context_prompt self message
                                        (default no_context ctx))
  end.

Definition refactor_prompt (code language instruction : pstr) : pstr :=
  py "You are an expert " ++ language
     ++ py " developer. Please refactor the following code according to the instruction."
     ++ [10; 10] ++ py "Instruction: " ++ instruction
     ++ [10; 10] ++ py "Code to refactor:" ++ [10]
     ++ py "```" ++ language ++ [10] ++ code ++ [10] ++ py "```"
     ++ [10; 10]
     ++ py "Please provide only the refactored code without additional explanation.".

Definition refactor_code (self : t) (code language instruction : pstr)
  : AIResponse.t :=
  match client self with
  | None => not_available
  | Some c => generate c (refactor_prompt code language instruction)
  end.

Definition tests_prompt (code language : pstr) : pstr :=
  py "You are an expert " ++ language
     ++ py " developer. Generate comprehensive unit tests for the following code."
     ++ [10; 10] ++ py "Code to test:" ++ [10]
     ++ py "```" ++ language ++ [10] ++ code ++ [10] ++ py "```"
     ++ [10; 10]
     ++ py "Please provide complete unit tests with proper test framework setup and assertions.".

Definition generate_tests (self : t) (code language : pstr) : AIResponse.t :=
  match client self with
  | None => not_available
  | Some c => generate c (tests_prompt code language)
  end.

End AIService.

(** ** [app.py] *)

Module app.
Import posixpath.

(** [PandaCodeApp.get_test_file_path] *)
Definition get_test_file_path (file_path : pstr) : pstr :=
  let '(directory, filename) := split file_path in
  let '(name, ext) := splitext filename in
  join directory (py "test_" ++ name ++ ext).

End app.

(** ** Notions the statements use *)

(** The components of a path: what lies between its slashes. *)
Definition components (path : pstr) : list pstr :=
  filter (fun c => c ≠ []) (split_on posixpath.sep path).

(** A path lies inside a directory when the directory's components begin
    the path's components. *)
Definition inside (root path : pstr) : Prop :=
  components root `prefix_of` components path.

(** The command lines [execute_command] answers itself. *)
Definition is_builtin (command : pstr) : bool :=
  startswith (strip command) (py "cd ")
  || str_eqb (strip command) (py "pwd")
  || str_eqb (strip command) (py "clear").

(** The lexer states inside a token: in a word, in quotes, or after a
    backslash that returns to one of these. *)
Definition in_token (state escapedstate : shlex.lex_state) : Prop :=
  match state with
  | shlex.InWord | shlex.InQuote _ => True
  | shlex.InEscape _ =>
      match escapedstate with
      | shlex.InWord | shlex.InQuote _ => True
      | _ => False
      end
  | _ => False
  end.

(** A host without any installed command and without files but the root
    directory; its MIME table knows the [.png] images. *)
Definition bare_host : World := {|
  proc_cwd := [];
  environ := ∅;
  guess_image := fun path => endswith path (py ".png");
  launch := fun args _ _ f => (Raise (Exc FileNotFoundError (py "execvp")), f);
|}.

(** The state of a host with the root directory alone, before any
    command was launched. *)
Definition empty_os : OS := {| files := {[ [] := Dir ]}; launched := [] |}.

(** The host with the directories [/ws] and [/wsX] next to each other. *)
Definition sibling_os : OS := {|
  files := {[ [] := Dir; [py "ws"] := Dir; [py "wsX"] := Dir ]};
  launched := [];
|}.

(** A terminal service on the workspace [/ws] with no session yet. *)
Definition ws_service : TerminalService.t :=
  {| TerminalService.workspace_dir := py "/ws";
     TerminalService.sessions := ∅ |}.

(** What the containment checks of the terminal service maintain: the
    working directory of every session begins, as a string, with the
    workspace directory. *)
Definition cwd_prefixed (self : TerminalService.t) : Prop :=
  forall sid s,
    TerminalService.sessions self !! sid = Some s ->
    startswith (cwd s) (TerminalService.workspace_dir self) = true.

(** The file service of the editor: [FileService('workspace')]. *)
Definition app_files : FileService.t :=
  {| FileService.workspace_dir := py "workspace" |}.

(** A file service on the workspace [/ws]. *)
Definition ws_files : FileService.t :=
  {| FileService.workspace_dir := py "/ws" |}.

(** A name that designates an entry of a directory: not empty, not [.],
    not [..]. *)
Definition plain_name (c : pstr) : bool :=
  negb (str_eqb c []) && negb (str_eqb c posixpath.dot)
  && negb (str_eqb c posixpath.dotdot).

Definition is_file (n : option node) : bool :=
  match n with Some (File _) => true | _ => false end.

Definition is_dir (n : option node) : bool :=
  match n with Some Dir => true | _ => false end.

(** The locations on the way to a location, from the root to itself. *)
Fixpoint prefixes (loc : list pstr) : list (list pstr) :=
  [] :: match loc with
        | [] => []
        | c :: loc' => map (cons c) (prefixes loc')
        end.

(** A resolved path at which a file can be put: it has a directory part
    and a plain last name, the root directory exists, and nothing on the
    way to its directory is a regular file. *)
Definition reachable (w : World) (o : OS) (full : pstr) : bool :=
  negb (str_eqb (posixpath.dirname full) [])
  && plain_name (posixpath.split full).2
  && is_dir (files o !! [])
  && forallb (fun k => negb (is_file (files o !! k)))
             (prefixes (os.locate w (posixpath.dirname full))).

(** Text that UTF-8 can hold: code points up to U+10FFFF that are not
    surrogates. *)
Definition representable (text : pstr) : bool :=
  forallb (fun c => (c <? 1114112) && negb ((55296 <=? c) && (c <=? 57343)))
          text.

(** Text without carriage returns. *)
Definition no_cr (text : pstr) : bool :=
  forallb (fun c => negb (c =? 13)) text.



(** A component [normpath] keeps: not empty, not [.], without a slash. *)
Definition kept_component (c : pstr) : bool :=
  negb (str_eqb c []) && negb (str_eqb c posixpath.dot)
  && forallb (fun x => negb (x =? posixpath.sep)) c.

(** The end of [normpath]: the slashes, the joined components, and [.]
    when that is empty. *)
Definition finish (k : nat) (comps : list pstr) : pstr :=
  match repeat posixpath.sep k ++ join_with posixpath.sep comps with
  | [] => posixpath.dot
  | p => p
  end.

(** A terminal service on [/ws] whose session [a] has moved to
    [/ws/src]. *)
Definition moved_service : TerminalService.t :=
  TerminalService.with_sessions ws_service
    {[ py "a" := {| cwd := py "/ws/src"; env := ∅;
                    rows := None; cols := None |} ]}.

(** The host with the directory [/ws/src] and the regular file
    [/ws/readme]. *)
Definition src_os : OS := {|
  files := {[ [] := Dir; [py "ws"] := Dir; [py "ws"; py "src"] := Dir;
              [py "ws"; py "readme"] := File [104; 105] ]};
  launched := [];
|}.

(** A host on which every command runs and prints its first argument. *)
Definition echo_host : World := {|
  proc_cwd := [];
  environ := ∅;
  guess_image := fun path => endswith path (py ".png");
  launch := fun args _ _ f =>
    (Ok {| stdout := default [] (head args); stderr := [];
           returncode := 0 |}, f);
|}.

(** The terminal service of the editor: on the relative workspace
    directory [workspace], with no session yet. *)
Definition app_service : TerminalService.t :=
  {| TerminalService.workspace_dir := py "workspace";
     TerminalService.sessions := ∅ |}.

(** A resolved path to which directories can be made: the root directory
    exists and nothing on the way, the place itself included, is a
    regular file. *)
Definition way_clear (w : World) (o : OS) (full : pstr) : bool :=
  is_dir (files o !! [])
  && forallb (fun k => negb (is_file (files o !! k)))
             (prefixes (os.locate w full)).


(** A character every host takes in a name: not NUL, not a surrogate. *)
Definition name_char (c : N) : bool :=
  (0 <? c) && (c <? 1114112) && negb ((55296 <=? c) && (c <=? 57343)).

(** A name the host takes for a new entry: such characters, in at most
    [NAME_MAX] bytes. *)
Definition good_name (c : pstr) : bool :=
  forallb name_char c && (os.byte_length c <=? os.NAME_MAX).

(** A path the host takes as it is written: it holds no NUL and no
    surrogate, it has less than [PATH_MAX] bytes, and the names in it
    and on the way to the place it names are good names. *)
Definition well_named (w : World) (full : pstr) : bool :=
  forallb name_char full
  && (os.byte_length full <? os.PATH_MAX)
  && forallb (fun c => os.byte_length c <=? os.NAME_MAX)
             (split_on posixpath.sep full)
  && forallb good_name (os.locate w full).

(** A directory part: empty, or ending with a slash. *)
Definition dir_part (d : pstr) : Prop :=
  d = [] \/ exists d', d = d' ++ [posixpath.sep].

(** The call [git command] in the workspace directory of a service, as
    the launcher records it. *)
Definition git_call (self : GitService.t) (command : list pstr)
  : list pstr * pstr :=
  (py "git" :: command, GitService.workspace_dir self).

(** Between two states of the host at most [n] processes were launched,
    each of them [git] in the workspace directory. *)
Definition git_calls (self : GitService.t) (n : nat) (o o' : OS) : Prop :=
  exists l, launched o' = launched o ++ l /\ (length l <= n)%nat
            /\ Forall (fun c => exists command, c = git_call self command) l.

(** A host on which every command succeeds and prints its arguments. *)
Definition yes_host : World := {|
  proc_cwd := [];
  environ := ∅;
  guess_image := fun path => endswith path (py ".png");
  launch := fun args _ _ f =>
    (Ok {| stdout := concat args; stderr := [];
           returncode := 0 |}, f);
|}.

(** The git service of the editor. *)
Definition app_git : GitService.t :=
  {| GitService.workspace_dir := py "workspace" |}.

(** The files [files] are added with [git add] one after the other,
    each with the exit code 0, which takes the host from one state to
    another. *)
Inductive staged_all (w : World) (self : GitService.t)
  : OS -> list pstr -> OS -> Prop :=
| staged_none (o : OS) : staged_all w self o [] o
| staged_next (o o1 o2 : OS) (f : pstr) (files : list pstr)
              (r : CompletedProcess) :
    GitService._run_git_command w self o [py "add"; f] = (Ok r, o1) ->
    returncode r = 0%Z ->
    staged_all w self o1 files o2 ->
    staged_all w self o (f :: files) o2.








(** A response as the editor reads it: an answer that is not empty and
    no error, or no answer and an error of the service. *)
Definition well_formed (r : AIResponse.t) : Prop :=
  (AIResponse.success r = true /\ AIResponse.content r <> []
   /\ AIResponse.error r = None)
  \/ (AIResponse.success r = false /\ AIResponse.content r = []
      /\ exists m, AIResponse.error r = Some (py "AI service " ++ m)).

(** What [_build_context_prompt] reads of a context: the first 2000
    characters of the current file, path and language of the first five
    open files, and the last three exchanges with the first 200
    characters of each answer. *)
Definition trimmed (ctx : AIService.context) : AIService.context :=
  {| AIService.currentFile :=
       (fun f => {| AIService.path := AIService.path f;
                    AIService.language := AIService.language f;
                    AIService.content := take 2000 <$> AIService.content f |})
       <$> AIService.currentFile ctx;
     AIService.openFiles :=
       map (fun f => {| AIService.path := AIService.path f;
                        AIService.language := AIService.language f;
                        AIService.content := None |})
           (take 5 (AIService.openFiles ctx));
     AIService.conversationHistory :=
       map (fun e => {| AIService.user := AIService.user e;
                        AIService.assistant :=
                          take 200 (AIService.assistant e) |})
           (drop (length (AIService.conversationHistory ctx) - 3)
                 (AIService.conversationHistory ctx)) |}.

(** A client that gives every prompt back as its answer. *)
Definition parrot : AIService.Client :=
  {| AIService.generate_content := fun _ prompt => Ok (Some prompt) |}.

(** ** Strings *)

Section string_facts.

Lemma startswith_app (p r : pstr) : startswith (p ++ r) p = true.
Proof.
  induction p as [|c p IH]; simpl; [done|].
  by rewrite N.eqb_refl, IH.
Qed.

Lemma startswith_refl (p : pstr) : startswith p p = true.
Proof. rewrite <- (app_nil_r p) at 1. apply startswith_app. Qed.

Lemma startswith_inv (s p : pstr) :
  startswith s p = true -> exists r, s = p ++ r.
Proof.
  revert s; induction p as [|c p IH]; intros s H; simpl in *.
  - by exists s.
  - destruct s as [|d s]; [done|].
    apply andb_true_iff in H as [Hc Hs]. apply N.eqb_eq in Hc as ->.
    destruct (IH _ Hs) as [r ->]. by exists r.
Qed.

Lemma startswith_trans (a b c : pstr) :
  startswith a b = true -> startswith b c = true -> startswith a c = true.
Proof.
  intros [r ->]%startswith_inv [r' ->]%startswith_inv.
  rewrite <- app_assoc. apply startswith_app.
Qed.

Lemma str_eqb_eq (a b : pstr) : str_eqb a b = true <-> a = b.
Proof. unfold str_eqb. apply bool_decide_eq_true. Qed.

Lemma str_eqb_neq (a b : pstr) : str_eqb a b = false <-> a ≠ b.
Proof. unfold str_eqb. apply bool_decide_eq_false. Qed.

(** [lstrip] removes a run of whitespace and stops at the first other
    character. *)
Lemma lstrip_split (s : pstr) :
  exists ws, s = ws ++ lstrip s /\ forallb isspace ws = true.
Proof.
  induction s as [|c s [ws [E F]]]; simpl.
  - by exists [].
  - destruct (isspace c) eqn:Hc.
    + exists (c :: ws). split; [by rewrite E at 1|].
      simpl. by rewrite Hc.
    + by exists [].
Qed.

Lemma lstrip_head (s : pstr) (c : N) (r : pstr) :
  lstrip s = c :: r -> isspace c = false.
Proof.
  induction s as [|d s IH]; simpl; [done|].
  destruct (isspace d) eqn:Hd; [done|]. by intros [= <- _].
Qed.

Lemma lstrip_id (c : N) (s : pstr) :
  isspace c = false -> lstrip (c :: s) = c :: s.
Proof. intros H. simpl. by rewrite H. Qed.

Lemma rstrip_split (s : pstr) :
  exists ws, s = rstrip s ++ ws /\ forallb isspace ws = true.
Proof.
  unfold rstrip. destruct (lstrip_split (rev s)) as [ws [E F]].
  exists (rev ws). split.
  - rewrite <- rev_app_distr, <- E. by rewrite rev_involutive.
  - rewrite forallb_forall in *. intros x Hx. apply F. by apply in_rev.
Qed.

(** A stripped string that is not empty ends with a character that is
    not whitespace. *)
Lemma rstrip_last (s r : pstr) (c : N) :
  rstrip s = r ++ [c] -> isspace c = false.
Proof.
  unfold rstrip. intros H.
  apply (f_equal (@rev N)) in H.
  rewrite rev_involutive, rev_app_distr in H. simpl in H.
  by apply lstrip_head in H.
Qed.

Lemma strip_first (s r : pstr) (c : N) :
  strip s = c :: r -> lstrip s = c :: drop 1 (lstrip s).
Proof.
  unfold strip. intros H.
  destruct (rstrip_split (lstrip s)) as [ws [E _]].
  rewrite H in E. rewrite E. done.
Qed.

End string_facts.

(** ** The first token of [shlex.split] *)

Section shlex_facts.
Import shlex.

Lemma yield_cons (quoted : bool) (token : pstr) (rest : res (list pstr))
      (toks : list pstr) :
  token ≠ [] -> yield quoted token rest = Ok toks ->
  exists more, toks = token :: more.
Proof.
  intros Hne. unfold yield.
  apply str_eqb_neq in Hne. rewrite Hne, andb_false_r.
  destruct rest as [l|e]; simpl; [|done].
  intros [= <-]. by exists l.
Qed.

(** Once a token has been started, it is the beginning of the first
    token of the result. *)
Lemma started_token_first (instream : pstr) :
  forall state escapedstate quoted token toks,
    in_token state escapedstate -> token ≠ [] ->
    read_tokens state escapedstate quoted token instream = Ok toks ->
    exists t more, toks = t :: more /\ token `prefix_of` t.
Proof.
  induction instream as [|c s IH]; intros st es q tok toks Hin Hne H.
  - destruct st; simpl in *; try done;
      apply yield_cons in H as [more ->]; eauto.
  - assert (Hgrow : forall x, tok ++ x ≠ []) by (by destruct tok).
    assert (Hpre : forall x t, tok ++ x `prefix_of` t -> tok `prefix_of` t).
    { intros x t [k ->]. exists (x ++ k). by rewrite app_assoc. }
    destruct st; simpl in H; try done.
    + (* in a word *)
      destruct (whitespace c).
      * apply str_eqb_neq in Hne. rewrite Hne in H. simpl in H.
        apply str_eqb_neq in Hne.
        apply yield_cons in H as [more ->]; eauto.
      * destruct (quotes c); [by eapply IH; [| |exact H]|].
        destruct (escape c); [by eapply IH; [| |exact H]|].
        eapply IH in H as (t & more & -> & Hp); [|done|done]. eauto.
    + (* in quotes *)
      destruct (c =? q0); [by eapply IH; [| |exact H]|].
      destruct (escape c && escapedquotes q0); [by eapply IH; [| |exact H]|].
      eapply IH in H as (t & more & -> & Hp); [|done|done]. eauto.
    + (* after a backslash *)
      eapply IH in H as (t & more & -> & Hp).
      * exists t, more. split; [done|].
        destruct (_ && _ && _) in Hp; eauto.
        rewrite <- app_assoc in Hp. eauto.
      * by destruct es.
      * destruct (_ && _ && _); [rewrite <- app_assoc|]; eauto.
Qed.

Lemma whitespace_isspace (c : N) : whitespace c = true -> isspace c = true.
Proof.
  unfold whitespace. rewrite !orb_true_iff, !N.eqb_eq.
  by intros [[[-> | ->] | ->] | ->].
Qed.

Lemma isspace_plain (c : N) :
  isspace c = true -> quotes c = false /\ escape c = false.
Proof.
  unfold quotes, escape. intros H.
  destruct (N.eqb_spec c 39) as [->|]; [done|].
  destruct (N.eqb_spec c 34) as [->|]; [done|].
  by destruct (N.eqb_spec c 92) as [->|].
Qed.

(** The first token begins with the first character that is not
    whitespace for [str.strip], or with a character before it that is
    whitespace for [str.strip] but not for the lexer. *)
Lemma first_token_head (command : pstr) (c0 : N) (r : pstr)
      (toks : list pstr) :
  lstrip command = c0 :: r ->
  quotes c0 = false -> escape c0 = false ->
  split command = Ok toks ->
  exists c t more,
    toks = (c :: t) :: more /\ (c = c0 \/ isspace c = true).
Proof.
  unfold split. intros Hl Hq He.
  induction command as [|x s IH]; [done|]. simpl in Hl. simpl.
  destruct (isspace x) eqn:Hx.
  - destruct (whitespace x) eqn:Hw; [by auto|].
    destruct (isspace_plain x Hx) as [-> ->].
    intros (t & more & -> & [k ->])%started_token_first; [|done..].
    exists x, k, more. auto.
  - injection Hl as -> ->.
    destruct (whitespace c0) eqn:Hw.
    { apply whitespace_isspace in Hw. congruence. }
    rewrite He, Hq.
    intros (t & more & -> & [k ->])%started_token_first; [|done..].
    exists c0, k, more. auto.
Qed.

(** A command line that [execute_command] answers itself does not
    begin with a token of the deny-list. *)
Lemma builtin_not_dangerous (command a : pstr) (args : list pstr) :
  is_builtin command = true ->
  split command = Ok (a :: args) ->
  TerminalService.is_dangerous a = false.
Proof.
  intros Hb Hs.
  assert (exists c0 r, strip command = c0 :: r /\ (c0 = 99 \/ c0 = 112))
    as (c0 & r & Hstrip & Hc0).
  { unfold is_builtin in Hb. rewrite !orb_true_iff, !str_eqb_eq in Hb.
    destruct Hb as [[H | ->] | ->].
    - apply startswith_inv in H as [r ->]. eexists _, _. split; [done|auto].
    - eexists _, _. split; [done|auto].
    - eexists _, _. split; [done|auto]. }
  apply strip_first in Hstrip.
  eapply first_token_head in Hs as (c & t & more & [= -> ->] & Hc);
    [|exact Hstrip|by destruct Hc0 as [-> | ->]..].
  unfold TerminalService.is_dangerous. apply bool_decide_eq_false.
  intros Hin. unfold TerminalService.dangerous_commands in Hin.
  rewrite !elem_of_cons, elem_of_nil in Hin.
  assert (c = 114 \/ c = 100 \/ c = 102 \/ c = 109) as Hhead.
  { destruct Hin as [H|[H|[H|[H|[H|[H|[]]]]]]];
      injection H as -> _; auto. }
  destruct Hc as [Hc | Hc].
  - destruct Hhead as [? | [? | [? | ?]]], Hc0; congruence.
  - by destruct Hhead as [-> | [-> | [-> | ->]]]; vm_compute in Hc.
Qed.

End shlex_facts.

(** ** The command sandbox *)

Section terminal_facts.
Import TerminalService.
Variable w : World.
Variable self : TerminalService.t.
Variable o : OS.

(** A command line that is not built in goes to the inner block. *)
Lemma execute_external (command session_id : pstr) :
  is_builtin command = false ->
  execute_command w self o command session_id =
    (let '(result, o1) :=
       run_external w o command (current_session w self session_id) in
     (result, with_sessions self (ensure_session w self session_id), o1)).
Proof.
  unfold is_builtin. rewrite !orb_false_iff. intros [[Hcd Hpwd] Hclear].
  unfold execute_command, execute_body. rewrite Hcd, Hpwd, Hclear.
  by destruct (run_external _ _ _ _).
Qed.

Lemma lstrip_blank (s : pstr) : forallb isspace s = true -> lstrip s = [].
Proof.
  induction s as [|c s IH]; simpl; [done|].
  intros [-> ?]%andb_true_iff. auto.
Qed.

Lemma strip_blank (s : pstr) : forallb isspace s = true -> strip s = [].
Proof. intros H. unfold strip. by rewrite lstrip_blank. Qed.

Lemma blank_not_builtin (s : pstr) :
  forallb isspace s = true -> is_builtin s = false.
Proof. intros H. unfold is_builtin. by rewrite strip_blank. Qed.

Lemma split_blank (s : pstr) :
  forallb shlex.whitespace s = true -> shlex.split s = Ok [].
Proof.
  unfold shlex.split. induction s as [|c s IH]; simpl; [done|].
  intros [-> ?]%andb_true_iff. auto.
Qed.

Lemma whitespace_all_isspace (s : pstr) :
  forallb shlex.whitespace s = true -> forallb isspace s = true.
Proof.
  rewrite !forallb_forall. intros H x Hx.
  apply whitespace_isspace. auto.
Qed.

Lemma current_session_ensure (session_id sid : pstr) :
  current_session w (with_sessions self (ensure_session w self session_id))
                  sid
  = current_session w self sid.
Proof.
  unfold current_session, ensure_session, with_sessions, new_session. simpl.
  destruct (sessions self !! session_id) eqn:E; [done|].
  destruct (decide (session_id = sid)) as [->|Hne].
  - by rewrite lookup_insert_eq, E.
  - by rewrite lookup_insert_ne.
Qed.

End terminal_facts.

(** C4: a command line whose first token is on the deny-list is answered
    with exit code 1 and the message naming the command; nothing is
    launched, the files are untouched, and the only change to the service
    is the lazy creation of the session, which leaves every session as the
    service sees it in place. *)
Theorem dangerous_command_denied (w : World) (self : TerminalService.t)
        (o : OS) (command session_id a : pstr) (args : list pstr) :
  shlex.split command = Ok (a :: args) ->
  a ∈ TerminalService.dangerous_commands ->
  exists self1,
    TerminalService.execute_command w self o command session_id
    = ({| output := [];
          error := py "Command " ++ [34] ++ a ++ [34]
                   ++ py " is not allowed for security reasons" ++ [10];
          exit_code := 1 |}, self1, o)
    /\ TerminalService.workspace_dir self1 = TerminalService.workspace_dir self
    /\ forall sid, TerminalService.current_session w self1 sid
                   = TerminalService.current_session w self sid.
Proof.
  intros Hsplit Hin.
  assert (Hd : TerminalService.is_dangerous a = true)
    by by apply bool_decide_eq_true.
  assert (Hb : is_builtin command = false).
  { destruct (is_builtin command) eqn:Hb; [|done].
    pose proof (builtin_not_dangerous _ _ _ Hb Hsplit). congruence. }
  eexists. rewrite execute_external by done.
  unfold TerminalService.run_external. rewrite Hsplit, Hd.
  split; [reflexivity|]. split; [done|].
  apply current_session_ensure.
Qed.


Lemma dangerous_command_denied_witness :
  exists self1,
    TerminalService.execute_command bare_host ws_service empty_os
                                    (py "rm -rf /") (py "default")
    = ({| output := [];
          error := py "Command " ++ [34] ++ py "rm" ++ [34]
                   ++ py " is not allowed for security reasons" ++ [10];
          exit_code := 1 |}, self1, empty_os)
    /\ TerminalService.workspace_dir self1
       = TerminalService.workspace_dir ws_service
    /\ forall sid, TerminalService.current_session bare_host self1 sid
                   = TerminalService.current_session bare_host ws_service sid.
Proof.
  apply (dangerous_command_denied bare_host ws_service empty_os
           (py "rm -rf /") (py "default") (py "rm") [py "-rf"; py "/"]).
  - reflexivity.
  - apply list_elem_of_here.
Defined.

(** C10 (as amended): a command line made only of spaces, tabs, carriage
    returns and line feeds matches no built-in, reaches the process
    launcher with an empty argument list, which fails before anything is
    started, and the failure is returned as the generic error result with
    exit code 1. *)
Theorem blank_command_fails (w : World) (self : TerminalService.t) (o : OS)
        (command session_id : pstr) :
  forallb shlex.whitespace command = true ->
  is_builtin command = false
  /\ shlex.split command = Ok []
  /\ TerminalService.execute_command w self o command session_id
     = (TerminalService.failure
          (py "Error executing command: list index out of range" ++ [10]) 1,
        TerminalService.with_sessions
          self (TerminalService.ensure_session w self session_id),
        o).
Proof.
  intros H.
  pose proof (blank_not_builtin _ (whitespace_all_isspace _ H)) as Hb.
  pose proof (split_blank _ H) as Hs.
  split; [done|]. split; [done|].
  rewrite execute_external by done.
  unfold TerminalService.run_external. by rewrite Hs.
Qed.

Lemma blank_command_fails_witness :
  is_builtin (py "   ") = false
  /\ shlex.split (py "   ") = Ok []
  /\ TerminalService.execute_command bare_host ws_service empty_os
                                     (py "   ") (py "default")
     = (TerminalService.failure
          (py "Error executing command: list index out of range" ++ [10]) 1,
        TerminalService.with_sessions
          ws_service
          (TerminalService.ensure_session bare_host ws_service (py "default")),
        empty_os).
Proof.
  apply (blank_command_fails bare_host ws_service empty_os
           (py "   ") (py "default")).
  reflexivity.
Defined.

(** The vertical tab is whitespace for [str.strip] and [str.isspace], but
    not for the lexer: the command line made of it matches no built-in,
    yet it is handed to the process launcher on every host, and where no
    such program exists the exit code is 127. *)
Lemma vertical_tab_is_launched :
  forallb isspace [11] = true
  /\ is_builtin [11] = false
  /\ (forall w self o session_id,
        launched
          (TerminalService.execute_command w self o [11] session_id).2
        = launched o
          ++ [([[11]],
               cwd (TerminalService.current_session w self session_id))])
  /\ exit_code
       (TerminalService.execute_command
          bare_host ws_service empty_os [11] (py "default")).1.1 = 127%Z.
Proof.
  split; [reflexivity|]. split; [reflexivity|]. split; [|reflexivity].
  intros w self o sid. rewrite execute_external by reflexivity.
  unfold TerminalService.run_external.
  change (shlex.split [11]) with (Ok (A:=list pstr) [[11]]).
  change (TerminalService.is_dangerous [11]) with false.
  cbv iota. unfold os.subprocess_run.
  by destruct (launch w _ _ _ _) as [[result|e] f].
Qed.

Section bare_cd.
Import shlex.

(** Without quotes and backslashes the lexer does not fail. *)
Lemma read_tokens_plain (instream : pstr) :
  forallb (fun c => negb (quotes c || escape c)) instream = true ->
  forall state escapedstate quoted token,
    state = Blank \/ state = InWord ->
    exists toks,
      read_tokens state escapedstate quoted token instream = Ok toks.
Proof.
  assert (Hy : forall quoted token rest,
             (exists toks, rest = Ok toks) ->
             exists toks, yield quoted token rest = Ok toks).
  { intros q t rest [toks ->]. unfold yield.
    destruct (_ && _); simpl; eauto. }
  induction instream as [|c s IH]; intros Hplain st es q tok Hst.
  - destruct Hst as [-> | ->]; simpl; apply Hy; eauto.
  - simpl in Hplain. apply andb_true_iff in Hplain as [Hc Hs].
    apply negb_true_iff, orb_false_iff in Hc as [Hq He].
    destruct Hst as [-> | ->]; simpl; rewrite Hq, He;
      destruct (whitespace c); try destruct (_ || _); auto.
Qed.

(** A command line that strips to the word [cd] holds nothing but that
    word and whitespace. *)
Lemma stripped_cd_plain (command : pstr) :
  strip command = py "cd" ->
  lstrip command = 99 :: drop 1 (lstrip command)
  /\ forallb (fun c => negb (quotes c || escape c)) command = true.
Proof.
  intros H. split; [exact (strip_first command [100] 99 H)|].
  destruct (lstrip_split command) as (ws1 & E1 & H1).
  destruct (rstrip_split (lstrip command)) as (ws2 & E2 & H2).
  fold (strip command) in E2. rewrite H in E2.
  rewrite E1, E2, !forallb_app. rewrite !andb_true_iff.
  assert (Hws : forall ws, forallb isspace ws = true ->
                forallb (fun c => negb (quotes c || escape c)) ws = true).
  { intros ws. rewrite !forallb_forall. intros Hall c Hc.
    by destruct (isspace_plain c (Hall c Hc)) as [-> ->]. }
  auto.
Qed.

End bare_cd.

(** The reading of C1 the code does not follow: a command line that is
    the word [cd] alone, with or without whitespace around it, is not
    taken by the change-directory handler.  It is split into one token
    and handed to the process launcher; the working directory of the
    session stays what it was. *)
Theorem bare_cd_is_launched (w : World) (self : TerminalService.t) (o : OS)
        (command session_id : pstr) :
  strip command = py "cd" ->
  exists arg args,
    shlex.split command = Ok (arg :: args)
    /\ let '(result, self1, o1) :=
         TerminalService.execute_command w self o command session_id in
       launched o1
       = launched o
         ++ [(arg :: args,
              cwd (TerminalService.current_session w self session_id))]
       /\ TerminalService.current_session w self1 session_id
          = TerminalService.current_session w self session_id.
Proof.
  intros Hstrip.
  assert (Hb : is_builtin command = false)
    by (unfold is_builtin; by rewrite Hstrip).
  destruct (stripped_cd_plain command Hstrip) as [Hl Hplain].
  destruct (read_tokens_plain command Hplain shlex.Blank shlex.Blank false [])
    as [toks Hs]; [by left|]. fold (shlex.split command) in Hs.
  destruct (first_token_head command 99 _ toks Hl eq_refl eq_refl Hs)
    as (c & t & more & -> & Hc).
  exists (c :: t), more. split; [done|].
  assert (Hd : TerminalService.is_dangerous (c :: t) = false).
  { apply bool_decide_eq_false. intros Hin.
    unfold TerminalService.dangerous_commands in Hin.
    rewrite !elem_of_cons, elem_of_nil in Hin.
    destruct Hin as [H|[H|[H|[H|[H|[H|[]]]]]]]; injection H as -> _;
      by destruct Hc as [Hc | Hc]; vm_compute in Hc. }
  rewrite execute_external by done.
  unfold TerminalService.run_external. rewrite Hs, Hd.
  unfold os.subprocess_run.
  destruct (launch w _ _ _ _) as [[result|e] f];
    (split; [done|apply current_session_ensure]).
Qed.

Lemma bare_cd_is_launched_witness :
  exists arg args,
    shlex.split (py "  cd ") = Ok (arg :: args)
    /\ let '(result, self1, o1) :=
         TerminalService.execute_command bare_host ws_service empty_os
                                         (py "  cd ") (py "default") in
       launched o1
       = launched empty_os
         ++ [(arg :: args,
              cwd (TerminalService.current_session bare_host ws_service
                                                   (py "default")))]
       /\ TerminalService.current_session bare_host self1 (py "default")
          = TerminalService.current_session bare_host ws_service
                                            (py "default").
Proof.
  apply (bare_cd_is_launched bare_host ws_service empty_os
           (py "  cd ") (py "default")).
  reflexivity.
Defined.

(** On a host without a program of that name, [cd] alone ends with exit
    code 127, and a session that had moved to [/ws/sub] stays there. *)
Lemma bare_cd_not_found :
  let self := TerminalService.with_sessions ws_service
                {[ py "default" := {| cwd := py "/ws/sub"; env := ∅;
                                      rows := None; cols := None |} ]} in
  let '(result, self1, o1) :=
    TerminalService.execute_command bare_host self empty_os
                                    (py "cd") (py "default") in
  result = TerminalService.failure (py "Command not found: cd" ++ [10]) 127
  /\ cwd (TerminalService.current_session bare_host self1 (py "default"))
     = py "/ws/sub".
Proof. vm_compute. done. Qed.

(** The branch of [_handle_cd_command] for [cd] without an argument can
    never run: a command line that reaches the handler has a stripped
    form beginning with [cd] and a space, so it always splits in two. *)
Lemma cd_without_argument_unreachable (command : pstr) :
  startswith (strip command) (py "cd ") = true ->
  length (split_ws_1 (strip command)) = 2%nat.
Proof.
  intros [r Hr]%startswith_inv.
  assert (Hlast : exists r' c, r = r' ++ [c] /\ isspace c = false).
  { destruct r as [|x r0 _] using rev_ind.
    - exfalso. unfold strip in Hr.
      change (py "cd " ++ []) with ([99; 100] ++ [32]) in Hr.
      by apply rstrip_last in Hr.
    - exists r0, x. split; [done|].
      unfold strip in Hr. rewrite app_assoc in Hr.
      by apply rstrip_last in Hr. }
  destruct Hlast as (r' & c & -> & Hc).
  rewrite Hr.
  change (split_ws_1 (py "cd " ++ r' ++ [c]))
    with (match lstrip (r' ++ [c]) with
          | [] => [[99; 100]]
          | rest => [[99; 100]; rest]
          end).
  destruct (lstrip (r' ++ [c])) eqn:E; [|reflexivity].
  exfalso. destruct (lstrip_split (r' ++ [c])) as (ws & Hws & Hall).
  rewrite E, app_nil_r in Hws. subst ws.
  rewrite forallb_app in Hall. simpl in Hall.
  rewrite Hc in Hall. by rewrite andb_false_r in Hall.
Qed.

(** ** Every failure becomes a result *)

(** A message that ends with a line feed is not empty. *)
Ltac message_not_empty :=
  let H := fresh in
  intros H; apply (f_equal length) in H;
  repeat rewrite length_app in H; simpl in H; lia.

Section failure_paths.
Import TerminalService.

(** The lexer raises nothing but [ValueError]. *)
Lemma read_tokens_raises (instream : pstr) :
  forall state escapedstate quoted token e,
    shlex.read_tokens state escapedstate quoted token instream = Raise e ->
    exc_cls e = ValueError.
Proof.
  assert (Hy : forall quoted token rest e,
             shlex.yield quoted token rest = Raise e -> rest = Raise e).
  { intros q t rest e. unfold shlex.yield.
    destruct (_ && _); [done|]. by destruct rest. }
  induction instream as [|c s IH]; intros st es q tok e H.
  - destruct st; simpl in H; try apply Hy in H; try done;
      by injection H as <-.
  - destruct st; simpl in H.
    + by apply Hy in H.
    + repeat (match type of H with
              | context [if ?b then _ else _] => destruct b
              end); try apply Hy in H; eauto.
    + repeat (match type of H with
              | context [if ?b then _ else _] => destruct b
              end); try apply Hy in H; eauto.
    + repeat (match type of H with
              | context [if ?b then _ else _] => destruct b
              end); try apply Hy in H; eauto.
    + eauto.
Qed.

Lemma split_raises (command : pstr) (e : exc) :
  shlex.split command = Raise e -> exc_cls e = ValueError.
Proof. apply read_tokens_raises. Qed.

(** What the change-directory handler returns: success without a
    message, or exit code 1 with one. *)
Lemma handle_cd_result (w : World) (self : t) (o : OS) (command : pstr)
      (session : Session) :
  let r := (_handle_cd_command w self o command session).1 in
  (exit_code r = 0%Z /\ error r = [])
  \/ (exit_code r = 1%Z /\ error r ≠ []).
Proof.
  unfold _handle_cd_command, cd_body.
  destruct (length _ =? 1)%nat; simpl.
  - destruct (negb (os.exists_ _ _ _)); simpl;
      [right; split; [done|message_not_empty]|].
    destruct (negb (os.isdir _ _ _)); simpl; [|by left].
    right; split; [done|message_not_empty].
  - destruct (_ !! 1%nat) as [path|]; simpl.
    2: { right. split; [done|message_not_empty]. }
    destruct (negb (startswith _ _)); simpl; [by right|].
    destruct (negb (os.exists_ _ _ _)); simpl;
      [right; split; [done|message_not_empty]|].
    destruct (negb (os.isdir _ _ _)); simpl; [|by left].
    right; split; [done|message_not_empty].
Qed.

Lemma command_failed_result (command : pstr) (args : list pstr) (e : exc) :
  let r := command_failed command args e in
  exit_code r ≠ 0%Z /\ error r ≠ [].
Proof.
  unfold command_failed.
  destruct (exc_cls e); simpl; (split; [done|message_not_empty]).
Qed.

Lemma not_allowed_result (a : pstr) :
  exit_code (not_allowed a) = 1%Z /\ error (not_allowed a) ≠ [].
Proof. split; [done|]. unfold not_allowed. simpl. message_not_empty. Qed.

End failure_paths.

(** C5: [execute_command] always returns a result, and the body of its
    outer [try] never raises.  A result is the success of a built-in, the
    result of a process that ran to completion, or a failure with an exit
    code other than 0 and a message.  The failures of the external path:
    a command line the lexer rejects and a failure to start the process
    give exit code 1 with the underlying message, a deny-listed command
    gives exit code 1, a timeout 124, a missing executable 127. *)
Theorem execute_command_total (w : World) (self : TerminalService.t) (o : OS)
        (command session_id : pstr) :
  let session := TerminalService.current_session w self session_id in
  let r := (TerminalService.execute_command w self o command session_id).1.1 in
  (TerminalService.execute_body w self o command session_id).1.1 = Ok r
  /\ ((is_builtin command = true /\ exit_code r = 0%Z /\ error r = [])
      \/ (exists args result f,
            shlex.split command = Ok args
            /\ launch w args (cwd session) (env session) (files o)
               = (Ok result, f)
            /\ r = TerminalService.completed result)
      \/ (exit_code r ≠ 0%Z /\ error r ≠ []))
  /\ (is_builtin command = false ->
      (forall e, shlex.split command = Raise e ->
         r = TerminalService.failure
               (py "Error executing command: " ++ exc_msg e ++ [10]) 1)
      /\ (forall a args, shlex.split command = Ok (a :: args) ->
            TerminalService.is_dangerous a = true ->
            r = TerminalService.not_allowed a /\ exit_code r = 1%Z)
      /\ (shlex.split command = Ok [] ->
            r = TerminalService.failure
                  (py "Error executing command: list index out of range"
                   ++ [10]) 1)
      /\ (forall a args e f, shlex.split command = Ok (a :: args) ->
            TerminalService.is_dangerous a = false ->
            launch w (a :: args) (cwd session) (env session) (files o)
            = (Raise e, f) ->
            r = match exc_cls e with
                | TimeoutExpired =>
                    TerminalService.failure
                      (py "Command timed out after 30 seconds" ++ [10]) 124
                | FileNotFoundError =>
                    TerminalService.failure
                      (py "Command not found: " ++ a ++ [10]) 127
                | _ =>
                    TerminalService.failure
                      (py "Error executing command: " ++ exc_msg e ++ [10]) 1
                end)).
Proof.
  intros session r. split; [|split].
  - subst r. unfold TerminalService.execute_command.
    by destruct (TerminalService.execute_body _ _ _ _ _) as [[[?|?] ?] ?] eqn:E;
      unfold TerminalService.execute_body in E;
      repeat (match type of E with
              | context [if ?b then _ else _] => destruct b
              | context [let '(_, _) := ?x in _] => destruct x
              end).
  - destruct (is_builtin command) eqn:Hb.
    + subst r. unfold is_builtin in Hb.
      unfold TerminalService.execute_command, TerminalService.execute_body.
      destruct (startswith _ _) eqn:Hcd.
      * pose proof (handle_cd_result w self o command session) as Hr.
        fold session.
        destruct (TerminalService._handle_cd_command _ _ _ _ _) as [res s'].
        simpl in *. destruct Hr as [[? ?]|[? ?]]; [by left|].
        right; right. split; [congruence|done].
      * simpl in Hb. destruct (str_eqb _ (py "pwd")); [by left|].
        simpl in Hb. rewrite Hb. by left.
    + right. subst r. rewrite execute_external by done. fold session.
      unfold TerminalService.run_external, os.subprocess_run.
      destruct (shlex.split command) as [[|a args]|e] eqn:Hs; simpl.
      * by right.
      * destruct (TerminalService.is_dangerous a).
        { right. simpl. split; [done|message_not_empty]. }
        destruct (launch w _ _ _ _) as [[result|e] f] eqn:Hl; simpl.
        { left. eexists _, _, _. split; [reflexivity|]. split; [exact Hl|done]. }
        right. apply command_failed_result.
      * right. apply command_failed_result.
  - intros Hb. subst r. rewrite execute_external by done. fold session.
    unfold TerminalService.run_external, os.subprocess_run.
    split; [|split; [|split]].
    + intros e He. rewrite He. simpl.
      unfold TerminalService.command_failed.
      by rewrite (split_raises _ _ He).
    + intros a args Hs Hd. by rewrite Hs, Hd.
    + intros Hs. by rewrite Hs.
    + intros a args e f Hs Hd Hl. rewrite Hs, Hd, Hl. simpl.
      unfold TerminalService.command_failed. by destruct (exc_cls e).
Qed.

(** ** The working directory of a session *)


Section session_cwd.
Import TerminalService.
Variable w : World.

Lemma new_session_prefixed (self : t) :
  startswith (cwd (new_session w self)) (workspace_dir self) = true.
Proof. apply startswith_refl. Qed.

Lemma current_session_prefixed (self : t) (sid : pstr) :
  cwd_prefixed self ->
  startswith (cwd (current_session w self sid)) (workspace_dir self) = true.
Proof.
  intros H. unfold current_session.
  destruct (sessions self !! sid) eqn:E; simpl; [by eapply H|].
  apply startswith_refl.
Qed.

Lemma ensure_session_prefixed (self : t) (sid : pstr) :
  cwd_prefixed self ->
  cwd_prefixed (with_sessions self (ensure_session w self sid)).
Proof.
  intros H sid' s. unfold ensure_session. simpl.
  destruct (sessions self !! sid) eqn:E; [by apply H|].
  destruct (decide (sid = sid')) as [->|Hne].
  - rewrite lookup_insert_eq. intros [= <-]. apply startswith_refl.
  - rewrite lookup_insert_ne by done. apply H.
Qed.

(** The handler changes the working directory only to a path that
    passed its test. *)
Lemma handle_cd_prefixed (self : t) (o : OS) (command : pstr)
      (session : Session) :
  startswith (cwd session) (workspace_dir self) = true ->
  startswith (cwd (_handle_cd_command w self o command session).2)
             (workspace_dir self) = true.
Proof.
  intros H. unfold _handle_cd_command, cd_body.
  destruct (length _ =? 1)%nat; simpl.
  - destruct (negb (os.exists_ _ _ _)); simpl; [done|].
    destruct (negb (os.isdir _ _ _)); simpl; [done|].
    apply startswith_refl.
  - destruct (_ !! 1%nat) as [path|]; simpl; [|done].
    destruct (startswith (if posixpath.isabs path then _ else _) _) eqn:Hp;
      simpl; [|done].
    destruct (negb (os.exists_ _ _ _)); simpl; [done|].
    by destruct (negb (os.isdir _ _ _)); simpl.
Qed.

(** The invariant the code keeps: every [execute_command] call leaves
    the working directory of every session prefixed by the workspace
    directory. *)
Lemma execute_command_prefixed (self : t) (o : OS)
      (command session_id : pstr) :
  cwd_prefixed self ->
  cwd_prefixed (execute_command w self o command session_id).1.2.
Proof.
  intros H. unfold execute_command, execute_body.
  destruct (startswith _ _).
  - pose proof (handle_cd_prefixed self o command
                  (current_session w self session_id)
                  (current_session_prefixed _ _ H)) as Hcd.
    destruct (_handle_cd_command _ _ _ _ _) as [r s']. simpl in *.
    intros sid s. simpl. destruct (decide (session_id = sid)) as [->|Hne].
    + rewrite lookup_insert_eq. by intros [= <-].
    + rewrite lookup_insert_ne by done.
      apply (ensure_session_prefixed self session_id H).
  - destruct (str_eqb _ _); [by apply ensure_session_prefixed|].
    destruct (str_eqb _ _); [by apply ensure_session_prefixed|].
    destruct (run_external _ _ _ _). by apply ensure_session_prefixed.
Qed.

Lemma resize_terminal_prefixed (self : t) (session_id : pstr) (r c : Z) :
  cwd_prefixed self -> cwd_prefixed (resize_terminal w self session_id r c).
Proof.
  intros H sid s. unfold resize_terminal. simpl.
  destruct (decide (session_id = sid)) as [->|Hne].
  - rewrite lookup_insert_eq. intros [= <-]. simpl.
    by apply current_session_prefixed.
  - rewrite lookup_insert_ne by done. apply H.
Qed.

Lemma get_session_info_prefixed (self : t) (session_id : pstr) :
  cwd_prefixed self -> cwd_prefixed (get_session_info w self session_id).2.
Proof. apply ensure_session_prefixed. Qed.

End session_cwd.

Section other_commands.
Import TerminalService.
Variable w : World.

(** A command line that does not go to the change-directory handler
    leaves every session, as the service sees it, where it was. *)
Lemma other_commands_keep_cwd (self : t) (o : OS) (command session_id : pstr) :
  startswith (strip command) (py "cd ") = false ->
  forall sid,
    current_session w (execute_command w self o command session_id).1.2 sid
    = current_session w self sid.
Proof.
  intros Hcd sid. unfold execute_command, execute_body. rewrite Hcd.
  destruct (str_eqb _ _); [apply current_session_ensure|].
  destruct (str_eqb _ _); [apply current_session_ensure|].
  destruct (run_external _ _ _ _). apply current_session_ensure.
Qed.

(** Resizing the terminal keeps the working directory of every
    session. *)
Lemma resize_terminal_keeps_cwd (self : t) (session_id : pstr) (r c : Z) :
  forall sid,
    cwd (current_session w (resize_terminal w self session_id r c) sid)
    = cwd (current_session w self sid).
Proof.
  intros sid. unfold resize_terminal, current_session. simpl.
  destruct (decide (session_id = sid)) as [->|Hne].
  - by rewrite lookup_insert_eq.
  - by rewrite lookup_insert_ne.
Qed.

End other_commands.

Lemma inside_ws_wsX : ~ inside (py "/ws") (py "/wsX").
Proof.
  unfold inside. intros [k Hk]. vm_compute in Hk. discriminate.
Qed.

(** The reading of C8 the code does not follow: the containment test of
    the change-directory handler compares strings, so from the workspace
    [/ws] the command line [cd ../wsX] succeeds when the directory [/wsX]
    exists, and the session then works in [/wsX], which is not inside
    the workspace. *)
Theorem cd_leaves_workspace :
  let '(result, self1, o1) :=
    TerminalService.execute_command bare_host ws_service sibling_os
                                    (py "cd ../wsX") (py "default") in
  exit_code result = 0%Z
  /\ cwd (TerminalService.current_session bare_host self1 (py "default"))
     = py "/wsX"
  /\ ~ inside (TerminalService.workspace_dir self1) (py "/wsX").
Proof.
  vm_compute. split; [done|]. split; [done|]. apply inside_ws_wsX.
Qed.

(** ** The path guard *)


Section path_guard.
Import FileService posixpath.
Variable self : FileService.t.

(** The empty path is the workspace directory itself. *)
Lemma get_full_path_empty : _get_full_path self [] = Ok (workspace_dir self).
Proof. reflexivity. Qed.

(** A resolved path begins, as a string, with the workspace
    directory. *)
Lemma get_full_path_prefixed (p full : pstr) :
  _get_full_path self p = Ok full ->
  startswith full (workspace_dir self) = true.
Proof.
  unfold _get_full_path. destruct p as [|c p].
  - intros [= <-]. apply startswith_refl.
  - destruct (startswith _ _) eqn:E; simpl; [|done]. by intros [= <-].
Qed.

(** A path whose normal form does not begin with the workspace
    directory is rejected. *)
Lemma get_full_path_rejected (p : pstr) :
  p ≠ [] ->
  startswith (normpath (join (workspace_dir self) p)) (workspace_dir self)
  = false ->
  _get_full_path self p = Raise path_outside.
Proof.
  unfold _get_full_path. destruct p as [|c p]; [done|].
  by intros _ ->.
Qed.

(** A path whose normal form extends the string of the workspace
    directory is accepted, whatever follows. *)
Lemma get_full_path_extension (p ext : pstr) :
  p ≠ [] ->
  normpath (join (workspace_dir self) p) = workspace_dir self ++ ext ->
  _get_full_path self p = Ok (workspace_dir self ++ ext).
Proof.
  unfold _get_full_path. destruct p as [|c p]; [done|].
  intros _ ->. by rewrite startswith_app.
Qed.

End path_guard.

(** C3: the path guard accepts a relative path that resolves to a place
    outside the workspace.  From the workspace [/ws] the path [../wsX/f]
    resolves to [/wsX/f], whose string begins with [/ws]; and in general
    every path whose normal form extends the string of the workspace
    directory passes the test. *)
Theorem prefix_check_accepts_sibling :
  (exists root p full,
      posixpath.isabs p = false
      /\ FileService._get_full_path {| FileService.workspace_dir := root |} p
         = Ok full
      /\ startswith full root = true
      /\ ~ inside root full)
  /\ (forall self p ext,
        p ≠ [] ->
        posixpath.normpath (posixpath.join (FileService.workspace_dir self) p)
        = FileService.workspace_dir self ++ ext ->
        FileService._get_full_path self p
        = Ok (FileService.workspace_dir self ++ ext)).
Proof.
  split.
  - exists (py "/ws"), (py "../wsX/f"), (py "/wsX/f").
    split; [reflexivity|]. split; [reflexivity|]. split; [reflexivity|].
    unfold inside. intros [k Hk]. vm_compute in Hk. discriminate.
  - intros self p ext. apply get_full_path_extension.
Qed.

(** The reading of C2 the code does not follow: a relative path with a
    [..] segment that leaves the workspace is accepted when the place it
    reaches has a name extending the name of the workspace.  This holds for
    the workspace [/ws] and for the workspace directory of the editor,
    [workspace]; a path leaving towards another name is rejected. *)
Theorem sibling_escape_accepted :
  (FileService._get_full_path ws_files (py "../ws-backup/key")
   = Ok (py "/ws-backup/key")
   /\ ~ inside (py "/ws") (py "/ws-backup/key"))
  /\ (FileService._get_full_path app_files (py "../workspace2/notes.txt")
      = Ok (py "workspace2/notes.txt")
      /\ ~ inside (py "workspace") (py "workspace2/notes.txt"))
  /\ FileService._get_full_path ws_files (py "../etc/passwd")
     = Raise FileService.path_outside.
Proof.
  split; [|split]; [split; [reflexivity|]|split; [reflexivity|]|reflexivity];
    unfold inside; intros [k Hk]; vm_compute in Hk; discriminate.
Qed.

(** ** The status parser *)

Section status_parser.
Import GitService.

(** A line shorter than three characters is skipped. *)
Lemma status_line_short (acc : lists) (line : pstr) :
  (length line < 3)%nat -> status_line acc line = acc.
Proof.
  intros H. unfold status_line.
  by destruct (Nat.ltb_spec (length line) 3); [|lia].
Qed.

(** A line is appended to at most one list. *)
Lemma status_line_one_list (acc : lists) (line : pstr) :
  (length (staged (status_line acc line))
   + length (modified (status_line acc line))
   + length (untracked (status_line acc line))
   <= 1 + (length (staged acc) + length (modified acc)
           + length (untracked acc)))%nat.
Proof.
  unfold status_line.
  repeat (match goal with
          | |- context [if ?b then _ else _] => destruct b
          end); simpl; rewrite ?length_app; simpl; lia.
Qed.

Lemma char_in_elem (c : N) (chars : list N) :
  char_in (Some c) chars = true <-> c ∈ chars.
Proof.
  unfold char_in. rewrite existsb_exists, list_elem_of_In. split.
  - by intros (d & Hd & ->%N.eqb_eq).
  - intros H. exists c. by rewrite N.eqb_refl.
Qed.

Lemma char_in_not_elem (c : N) (chars : list N) :
  char_in (Some c) chars = false <-> c ∉ chars.
Proof.
  rewrite <- char_in_elem. by destruct (char_in (Some c) chars).
Qed.

End status_parser.

(** A line whose first character is neither a space nor one of the
    letters the parser stages is not staged: the untracked line
    [?? c.txt] goes to the untracked list, and the unmerged line
    [UU d.txt] goes nowhere. *)
Lemma first_character_rule_fails :
  let empty := {| GitService.modified := []; GitService.staged := [];
                  GitService.untracked := [] |} in
  (py "?? c.txt" !! 0%nat ≠ Some 32
   /\ GitService.staged (GitService.status_line empty (py "?? c.txt")) = []
   /\ GitService.untracked (GitService.status_line empty (py "?? c.txt"))
      = [py "c.txt"])
  /\ (py "UU d.txt" !! 0%nat ≠ Some 32
      /\ GitService.status_line empty (py "UU d.txt") = empty).
Proof. vm_compute. done. Qed.

(** C6 (as amended): for a line of at least three characters with the
    status characters [x] and [y] and the path after the third
    character, the parser appends the path to the staged list when [x] is
    one of M, A, D, R, C; otherwise to the modified list when [y] is M or
    D; otherwise to the untracked list when both are question marks;
    otherwise to no list.  The first rule that applies wins, so a line
    is appended to at most one list.  The lines [M  a.txt], [ M b.txt]
    and [?? c.txt] give [a.txt] staged, [b.txt] modified and [c.txt]
    untracked. *)
Theorem status_line_classifies (acc : GitService.lists) (x y z : N)
        (path : pstr) :
  let line := x :: y :: z :: path in
  let acc' := GitService.status_line acc line in
  (x ∈ py "MADRC" ->
     acc' = {| GitService.modified := GitService.modified acc;
               GitService.staged := GitService.staged acc ++ [path];
               GitService.untracked := GitService.untracked acc |})
  /\ (x ∉ py "MADRC" -> y ∈ py "MD" ->
        acc' = {| GitService.modified := GitService.modified acc ++ [path];
                  GitService.staged := GitService.staged acc;
                  GitService.untracked := GitService.untracked acc |})
  /\ (x = 63 -> y = 63 ->
        acc' = {| GitService.modified := GitService.modified acc;
                  GitService.staged := GitService.staged acc;
                  GitService.untracked := GitService.untracked acc ++ [path] |})
  /\ (x ∉ py "MADRC" -> y ∉ py "MD" -> ~ (x = 63 /\ y = 63) -> acc' = acc)
  /\ (length (GitService.staged acc') + length (GitService.modified acc')
      + length (GitService.untracked acc')
      <= 1 + (length (GitService.staged acc) + length (GitService.modified acc)
              + length (GitService.untracked acc)))%nat
  /\ GitService.parse_status
       (py "M  a.txt" ++ [10] ++ py " M b.txt" ++ [10] ++ py "?? c.txt" ++ [10])
     = {| GitService.modified := [py "b.txt"];
          GitService.staged := [py "a.txt"];
          GitService.untracked := [py "c.txt"] |}.
Proof.
  intros line acc'.
  assert (E : acc' =
              if GitService.char_in (Some x) (py "MADRC") then
                {| GitService.modified := GitService.modified acc;
                   GitService.staged := GitService.staged acc ++ [path];
                   GitService.untracked := GitService.untracked acc |}
              else if GitService.char_in (Some y) (py "MD") then
                {| GitService.modified := GitService.modified acc ++ [path];
                   GitService.staged := GitService.staged acc;
                   GitService.untracked := GitService.untracked acc |}
              else if str_eqb [x; y] (py "??") then
                {| GitService.modified := GitService.modified acc;
                   GitService.staged := GitService.staged acc;
                   GitService.untracked :=
                     GitService.untracked acc ++ [path] |}
              else acc) by reflexivity.
  repeat split.
  - intros Hx%char_in_elem. by rewrite E, Hx.
  - intros Hx%char_in_not_elem Hy%char_in_elem. by rewrite E, Hx, Hy.
  - intros -> ->. by rewrite E.
  - intros Hx%char_in_not_elem Hy%char_in_not_elem Hq.
    rewrite E, Hx, Hy.
    destruct (str_eqb [x; y] (py "??")) eqn:Hc; [|done].
    apply str_eqb_eq in Hc. injection Hc as -> ->. by destruct Hq.
  - apply status_line_one_list.
Qed.

(** ** UTF-8: decoding what was encoded *)



Section utf8.
Import textio.




End utf8.

(** ** Paths and locations *)


Section locations.
Import posixpath os.

Lemma split_on_cons (a : pstr) : exists w ws, split_on sep a = w :: ws.
Proof.
  induction a as [|c a (w & ws & IH)]; simpl; [by eauto|].
  rewrite IH. destruct (c =? sep); eauto.
Qed.

Lemma split_on_app (a b : pstr) :
  split_on sep (a ++ sep :: b) = split_on sep a ++ split_on sep b.
Proof.
  induction a as [|c a IH]; simpl; [done|].
  destruct (c =? sep); [by rewrite IH|].
  rewrite IH. by destruct (split_on_cons a) as (w & ws & ->).
Qed.

Lemma split_on_no_sep (b : pstr) :
  forallb (fun c => negb (c =? sep)) b = true -> split_on sep b = [b].
Proof.
  induction b as [|c b IH]; simpl; [done|].
  intros [Hc Hb]%andb_true_iff. rewrite IH by done.
  by destruct (c =? sep).
Qed.

(** A path is cut at its last slash. *)
Lemma last_sep_decomp (p : pstr) :
  (after_last_sep p = 0%nat
   /\ forallb (fun c => negb (c =? sep)) p = true)
  \/ (exists a b, p = a ++ sep :: b
                  /\ forallb (fun c => negb (c =? sep)) b = true
                  /\ after_last_sep p = S (length a)).
Proof.
  induction p as [|c p IH]; simpl; [by left|].
  destruct IH as [[-> Hp]|(a & b & -> & Hb & ->)]; simpl.
  - destruct (c =? sep) eqn:Hc.
    + right. exists [], p. apply N.eqb_eq in Hc as ->. done.
    + left. by rewrite Hp.
  - right. exists (c :: a), b. done.
Qed.

Lemma walk_app (cur xs ys : list pstr) :
  walk cur (xs ++ ys) = walk (rev (walk cur xs)) ys.
Proof.
  revert cur. induction xs as [|x xs IH]; intros cur; simpl.
  - by rewrite rev_involutive.
  - destruct (_ || _); [done|]. by destruct (str_eqb x dotdot).
Qed.

Lemma walk_plain (cur : list pstr) (c : pstr) :
  plain_name c = true -> walk cur [c] = rev cur ++ [c].
Proof.
  unfold plain_name. rewrite !andb_true_iff, !negb_true_iff.
  intros [[H1 H2] H3]. simpl. by rewrite H1, H2, H3.
Qed.

Lemma walk_empties (cur : list pstr) (k : nat) :
  walk cur (repeat [] k) = rev cur.
Proof. induction k; simpl; auto. Qed.

Lemma split_on_seps (k : nat) :
  split_on sep (repeat sep k) = repeat [] (S k).
Proof. induction k; simpl; [done|]. by rewrite IHk. Qed.

(** Trailing slashes do not change the location. *)
Lemma walk_trailing_seps (cur : list pstr) (a : pstr) (k : nat) :
  walk cur (split_on sep (a ++ repeat sep k)) = walk cur (split_on sep a).
Proof.
  destruct k as [|k]; simpl; [by rewrite app_nil_r|].
  rewrite split_on_app, split_on_seps, walk_app.
  by rewrite walk_empties, rev_involutive.
Qed.

(** Removing the trailing slashes of a string. *)
Lemma rstrip_sep_decomp (s : pstr) :
  exists a k, s = a ++ repeat sep k
              /\ rev (lstrip_sep (rev s)) = a
              /\ (forallb (fun c => c =? sep) s = true -> a = [])
              /\ (forallb (fun c => c =? sep) s = false ->
                  exists c a', a = c :: a' /\ head s = Some c).
Proof.
  induction s as [|c s IH] using rev_ind.
  - exists [], 0%nat. by repeat split.
  - destruct IH as (a & k & Hs & Ha & Hall & Hnot).
    rewrite rev_app_distr. simpl. destruct (c =? sep) eqn:Hc.
    + apply N.eqb_eq in Hc as ->.
      exists a, (S k). repeat split.
      * rewrite Hs at 1. rewrite <- app_assoc. f_equal.
        by rewrite <- repeat_cons.
      * done.
      * rewrite forallb_app. intros [? _]%andb_true_iff. auto.
      * rewrite forallb_app. simpl. rewrite !andb_true_r.
        intros H. destruct (Hnot H) as (c & a' & -> & Hh).
        exists c, a'. split; [done|]. by destruct s.
    + exists (s ++ [c]), 0%nat. repeat split.
      * by rewrite app_nil_r.
      * simpl. by rewrite rev_involutive.
      * rewrite forallb_app. simpl. rewrite Hc.
        by rewrite andb_false_r.
      * intros _. destruct s as [|d s]; simpl; eauto.
Qed.

Lemma isabs_head (s s' : pstr) : head s = head s' -> isabs s = isabs s'.
Proof.
  unfold isabs. destruct s, s'; simpl; try done. by intros [= ->].
Qed.

Lemma head_app_sep (a b : pstr) : head (a ++ sep :: b) = head (a ++ [sep]).
Proof. by destruct a. Qed.

(** A path whose last component is a plain name is located in the
    location of its directory name, under that name. *)
Lemma locate_dirname (w : World) (p : pstr) :
  plain_name (split p).2 = true ->
  locate w p = locate w (dirname p) ++ [(split p).2].
Proof.
  unfold dirname, split, locate.
  destruct (last_sep_decomp p) as [[-> Hp]|(a & b & -> & Hb & ->)].
  - rewrite take_0, drop_0. simpl. intros Hplain.
    rewrite split_on_no_sep by done.
    assert (isabs p = false) as ->.
    { unfold isabs. destruct p as [|c p]; simpl in *; [done|].
      apply andb_true_iff in Hp as [Hc _].
      apply negb_true_iff in Hc. by rewrite Hc. }
    rewrite walk_plain by done. by rewrite !rev_involutive.
  - assert (E : a ++ sep :: b = (a ++ [sep]) ++ b) by by rewrite <- app_assoc.
    assert (Ht : take (S (length a)) (a ++ sep :: b) = a ++ [sep]).
    { rewrite E. apply take_app_length'. rewrite length_app. simpl. lia. }
    assert (Hd : drop (S (length a)) (a ++ sep :: b) = b).
    { rewrite E. apply drop_app_length'. rewrite length_app. simpl. lia. }
    rewrite Ht, Hd. clear E Ht Hd.
    simpl. intros Hplain.
    rewrite split_on_app, (split_on_no_sep b) by done.
    rewrite walk_app, walk_plain, rev_involutive by done. f_equal.
    rewrite (isabs_head _ _ (head_app_sep a b)).
    transitivity (walk (if isabs (a ++ [sep]) then [] else rev (proc_cwd w))
                       (split_on sep (a ++ [sep]))).
    { by rewrite (walk_trailing_seps _ a 1). }
    destruct (rstrip_sep_decomp (a ++ [sep])) as (a0 & k & Hs & -> & Hall & Hnot).
    destruct (forallb _ (a ++ [sep])) eqn:E; [done|].
    destruct (Hnot eq_refl) as (c & a' & -> & Hh).
    rewrite (isabs_head (c :: a') (a ++ [sep])) by done.
    rewrite Hs at 2. by rewrite walk_trailing_seps.
Qed.

End locations.

(** ** Files *)


Section files_facts.
Import posixpath os.

Lemma elem_of_prefixes (k loc : list pstr) :
  k ∈ prefixes loc <-> k `prefix_of` loc.
Proof.
  revert k. induction loc as [|c loc IH]; intros k; simpl.
  - rewrite list_elem_of_singleton. split; [intros ->; done|].
    by intros ->%prefix_nil_inv.
  - rewrite elem_of_cons, list_elem_of_fmap. split.
    + intros [->|(k' & -> & Hk%IH)]; [apply prefix_nil|].
      by apply prefix_cons.
    + destruct k as [|d k]; [by left|]. intros H. right.
      pose proof (prefix_cons_inv_1 _ _ _ _ H) as ->.
      apply prefix_cons_inv_2 in H. exists k. split; [done|]. by apply IH.
Qed.

Lemma name_chars_usable (s : pstr) :
  forallb name_char s = true -> unusable s = None.
Proof.
  intros H. unfold unusable.
  assert (forallb encodable s = true /\ existsb (N.eqb 0) s = false)
    as [-> ->]; [|done].
  induction s as [|c s IH]; [done|]. cbn [forallb existsb] in *.
  apply andb_true_iff in H as [Hc Hs]. destruct (IH Hs) as [-> ->].
  unfold name_char in Hc.
  apply andb_true_iff in Hc as [[H0 H1]%andb_true_iff H2].
  apply N.ltb_lt in H0. split.
  - unfold encodable. by rewrite H1, H2.
  - destruct (N.eqb_spec 0 c) as [E|E]; [lia|done].
Qed.

Lemma good_name_inv (c : pstr) :
  good_name c = true ->
  unusable c = None /\ (NAME_MAX <? byte_length c) = false.
Proof.
  unfold good_name. intros [Hc Hl]%andb_true_iff.
  split; [by apply name_chars_usable|].
  apply N.leb_le in Hl. apply N.ltb_ge. exact Hl.
Qed.

Lemma byte_length_app (a b : pstr) :
  byte_length (a ++ b) = byte_length a + byte_length b.
Proof.
  induction a as [|c a IH]; simpl; [done|]. rewrite IH. lia.
Qed.

Lemma within_path_max (len rest : N) :
  len < PATH_MAX -> (PATH_MAX + rest <=? len) = false.
Proof. intros H. apply N.leb_gt. lia. Qed.

(** [mkdirs] succeeds for good names when nothing on the way is a
    regular file; it leaves directories all along the way and touches
    nothing else. *)
Lemma mkdirs_ok (len : N) (todo : list pstr) :
  forall (f : fs) (done : list pstr),
    len < PATH_MAX ->
    forallb good_name todo = true ->
    (forall t, t `prefix_of` todo -> t ≠ [] ->
               is_file (f !! (done ++ t)) = false) ->
    exists f',
      mkdirs len f done todo = (Ok tt, f')
      /\ (forall t, t `prefix_of` todo -> t ≠ [] ->
                    f' !! (done ++ t) = Some Dir)
      /\ (forall k n, f !! k = Some n -> f' !! k = Some n)
      /\ (forall k, (forall t, t `prefix_of` todo -> t ≠ [] ->
                               k ≠ done ++ t) ->
                    f' !! k = f !! k).
Proof.
  induction todo as [|c todo IH]; intros f done Hlen Hgood Hclear;
    cbn [mkdirs].
  - exists f. split; [done|]. split; [|done].
    intros t ->%prefix_nil_inv. done.
  - assert (Hstep : forall t, done ++ c :: t = (done ++ [c]) ++ t)
      by (intros; by rewrite <- app_assoc).
    assert (Hhere : is_file (f !! (done ++ [c])) = false).
    { apply Hclear; [|done]. apply prefix_cons, prefix_nil. }
    cbn [forallb] in Hgood. apply andb_true_iff in Hgood as [Hc Hgood].
    destruct (good_name_inv c Hc) as [-> ->].
    rewrite within_path_max by done. cbv zeta.
    destruct (f !! (done ++ [c])) as [[|data]|] eqn:E; [|done|].
    + destruct (IH f (done ++ [c])) as (f' & Hm & Hdirs & Hkeep & Hframe);
        [done|done| |].
      { intros t Ht Hne. rewrite <- Hstep. apply Hclear; [|done].
        by apply prefix_cons. }
      exists f'. split; [done|]. split; [|split; [done|]].
      * intros [|d t] Ht Hne; [done|].
        pose proof (prefix_cons_inv_1 _ _ _ _ Ht) as ->.
        apply prefix_cons_inv_2 in Ht. rewrite Hstep.
        destruct t as [|e t]; [rewrite app_nil_r; by apply Hkeep|].
        by apply Hdirs.
      * intros k Hk. apply Hframe. intros t Ht Hne. rewrite <- Hstep.
        apply Hk; [by apply prefix_cons|done].
    + destruct (IH (<[done ++ [c] := Dir]> f) (done ++ [c]))
        as (f' & Hm & Hdirs & Hkeep & Hframe); [done|done| |].
      { intros t Ht Hne. rewrite lookup_insert_ne.
        - rewrite <- Hstep. apply Hclear; [|done]. by apply prefix_cons.
        - intros Heq. apply (f_equal length) in Heq.
          rewrite !length_app in Heq. destruct t; [done|]. simpl in Heq. lia. }
      exists f'. split; [done|]. split; [|split].
      * intros [|d t] Ht Hne; [done|].
        pose proof (prefix_cons_inv_1 _ _ _ _ Ht) as ->.
        apply prefix_cons_inv_2 in Ht. rewrite Hstep.
        destruct t as [|e t]; [|by apply Hdirs].
        rewrite app_nil_r. apply Hkeep. by rewrite lookup_insert_eq.
      * intros k n Hk. apply Hkeep. rewrite lookup_insert_ne; [done|].
        intros <-. congruence.
      * intros k Hk. rewrite Hframe.
        -- rewrite lookup_insert_ne; [done|]. intros <-.
           apply (Hk [c]); [apply prefix_cons, prefix_nil|done|done].
        -- intros t Ht Hne. rewrite <- Hstep.
           apply Hk; [by apply prefix_cons|done].
Qed.

(** [mkdirs] touches only the locations on its way. *)
Lemma mkdirs_frame (len : N) (todo : list pstr) :
  forall (f : fs) (base k : list pstr),
    (forall t, t `prefix_of` todo -> t ≠ [] -> k ≠ base ++ t) ->
    (mkdirs len f base todo).2 !! k = f !! k.
Proof.
  induction todo as [|c todo IH]; intros f base k Hk; cbn [mkdirs]; [done|].
  assert (Hstep : forall t, base ++ c :: t = (base ++ [c]) ++ t)
    by (intros; by rewrite <- app_assoc).
  assert (Hrest : forall t, t `prefix_of` todo -> t ≠ [] ->
                            k ≠ (base ++ [c]) ++ t).
  { intros t Ht Hne. rewrite <- Hstep. apply Hk; [by apply prefix_cons|done]. }
  destruct (unusable c); [done|].
  destruct (PATH_MAX + rest_bytes todo <=? len); [done|]. cbv zeta.
  destruct (f !! (base ++ [c])) as [[|data]|] eqn:E; [by apply IH|done|].
  destruct (NAME_MAX <? byte_length c); [done|].
  rewrite IH by done. rewrite lookup_insert_ne; [done|].
  intros <-. apply (Hk [c]); [apply prefix_cons, prefix_nil|done|done].
Qed.

(** [mkdirs] changes nothing where every directory exists. *)
Lemma mkdirs_existing (len : N) (todo : list pstr) :
  forall (f : fs) (base : list pstr),
    len < PATH_MAX ->
    forallb good_name todo = true ->
    (forall t, t `prefix_of` todo -> t ≠ [] -> f !! (base ++ t) = Some Dir) ->
    mkdirs len f base todo = (Ok tt, f).
Proof.
  induction todo as [|c todo IH]; intros f base Hlen Hgood H; cbn [mkdirs];
    [done|].
  cbn [forallb] in Hgood. apply andb_true_iff in Hgood as [Hc Hgood].
  destruct (good_name_inv c Hc) as [-> _].
  rewrite within_path_max by done. cbv zeta.
  rewrite (H [c]); [|apply prefix_cons, prefix_nil|done].
  apply IH; [done|done|]. intros t Ht Hne. rewrite <- app_assoc. simpl.
  apply H; [by apply prefix_cons|done].
Qed.




Lemma enter_ok (todo : list pstr) :
  forall (f : fs) (done : list pstr),
    (forall t, t `prefix_of` todo -> t ≠ [] -> f !! (done ++ t) = Some Dir) ->
    enter f done todo = None.
Proof.
  induction todo as [|c todo IH]; intros f base H; simpl; [done|].
  rewrite (H [c]); [|apply prefix_cons, prefix_nil|done].
  apply IH. intros t Ht Hne. rewrite <- app_assoc. simpl.
  apply H; [by apply prefix_cons|done].
Qed.

(** When [write_text] gets to the file: the path can be used, the
    directories on the way exist, and the place is a regular file or
    free for a name the host takes. *)
Lemma write_text_ok (w : World) (o : OS) (path text : pstr) (c : pstr) :
  path ≠ [] ->
  unusable path = None ->
  byte_length path < PATH_MAX ->
  last (locate w path) = Some c ->
  (NAME_MAX <? byte_length c) = false ->
  is_dir (files o !! locate w path) = false ->
  (forall k, k `prefix_of` parent (locate w path) -> k ≠ [] ->
             files o !! k = Some Dir) ->
  write_text w o path text
  = match textio.utf8_encode text with
    | Some data =>
        (Ok tt, {| files := <[locate w path := File data]> (files o);
                   launched := launched o |})
    | None =>
        (Raise (Exc UnicodeEncodeError (py "write")),
         {| files := <[locate w path := File []]> (files o);
            launched := launched o |})
    end.
Proof.
  unfold write_text, textio.write_bytes. destruct path as [|x path]; [done|].
  intros _ -> Hlen -> Hfit Hdir Hparents.
  destruct (N.leb_spec PATH_MAX (byte_length (x :: path))); [lia|].
  cbv zeta. rewrite enter_ok by (intros t Ht Hne; by apply Hparents).
  rewrite Hfit, andb_false_r.
  by destruct (files o !! locate w (x :: path)) as [[|d]|].
Qed.

Lemma parent_snoc (loc : list pstr) (c : pstr) : parent (loc ++ [c]) = loc.
Proof. apply removelast_last. Qed.

Lemma snoc_not_prefix (loc t : list pstr) (c : pstr) :
  t `prefix_of` loc -> loc ++ [c] ≠ t.
Proof.
  intros [k ->] Heq. apply (f_equal length) in Heq.
  rewrite !length_app in Heq. simpl in Heq. lia.
Qed.

Lemma dirname_prefix (p : pstr) : dirname p `prefix_of` p.
Proof.
  unfold dirname, split. simpl.
  pose proof (prefix_take p (after_last_sep p)) as Hh.
  destruct (forallb _ (take (after_last_sep p) p)); [done|].
  destruct (rstrip_sep_decomp (take (after_last_sep p) p))
    as (a & k & Hs & -> & _).
  etrans; [|exact Hh]. rewrite Hs. by apply prefix_app_r.
Qed.

Lemma byte_length_prefix (a b : pstr) :
  a `prefix_of` b -> byte_length a <= byte_length b.
Proof. intros [k ->]. rewrite byte_length_app. lia. Qed.

(** What [well_named] says. *)
Lemma well_named_inv (w : World) (full : pstr) :
  well_named w full = true ->
  unusable full = None
  /\ byte_length full < PATH_MAX
  /\ refusal full = None
  /\ forallb good_name (locate w full) = true.
Proof.
  unfold well_named. rewrite !andb_true_iff.
  intros [[[Hc Hl] Hn] Hg]. apply N.ltb_lt in Hl.
  pose proof (name_chars_usable full Hc) as Hu.
  split; [done|]. split; [done|]. split; [|done].
  unfold refusal. rewrite Hu.
  destruct (N.leb_spec PATH_MAX (byte_length full)); [lia|]. simpl.
  assert (existsb (fun c => NAME_MAX <? byte_length c) (split_on sep full)
          = false) as ->; [|done].
  induction (split_on sep full) as [|c l IH]; simpl in *; [done|].
  apply andb_true_iff in Hn as [Hc' Hn]. rewrite (IH Hn), orb_false_r.
  apply N.leb_le in Hc'. by apply N.ltb_ge.
Qed.

(** A path that exists is not refused. *)
Lemma lookup_Some (w : World) (o : OS) (path : pstr) (n : node) :
  lookup w o path = Some n ->
  path ≠ [] /\ refusal path = None /\ files o !! locate w path = Some n.
Proof.
  unfold lookup. destruct path as [|c path]; [done|].
  by destruct (refusal (c :: path)).
Qed.

Lemma lookup_accepted (w : World) (o : OS) (path : pstr) :
  path ≠ [] -> refusal path = None ->
  lookup w o path = files o !! locate w path.
Proof. unfold lookup. destruct path; [done|]. by intros _ ->. Qed.

(** Below a reachable path of good names, [makedirs] on its directory
    name succeeds, leaves directories on the whole way, and keeps the
    place of the path itself as it was. *)
Lemma makedirs_reachable (w : World) (o : OS) (full : pstr) :
  reachable w o full = true ->
  well_named w full = true ->
  let loc := locate w full in
  exists f',
    makedirs w o (dirname full)
    = (Ok tt, {| files := f'; launched := launched o |})
    /\ full ≠ []
    /\ last loc = Some (split full).2
    /\ parent loc = locate w (dirname full)
    /\ (forall k, k `prefix_of` parent loc -> f' !! k = Some Dir)
    /\ f' !! loc = files o !! loc
    /\ (forall k n, files o !! k = Some n -> f' !! k = Some n).
Proof.
  intros H Hnamed loc. unfold reachable in H.
  rewrite !andb_true_iff, negb_true_iff, str_eqb_neq in H.
  destruct H as [[[Hdn Hplain] Hroot] Hclear].
  destruct (well_named_inv w full Hnamed) as (Hu & Hlen & Href & Hgood).
  pose proof (locate_dirname w full Hplain) as Hloc. fold loc in Hloc.
  fold loc in Hgood. rewrite Hloc, forallb_app in Hgood.
  apply andb_true_iff in Hgood as [Hgood _].
  rewrite forallb_forall in Hclear.
  destruct (mkdirs_ok (byte_length (dirname full)) (locate w (dirname full))
                      (files o) [])
    as (f' & Hm & Hdirs & Hkeep & Hframe); [|done| |].
  { pose proof (byte_length_prefix _ _ (dirname_prefix full)). lia. }
  { intros t Ht _. simpl. apply negb_true_iff, Hclear.
    by apply list_elem_of_In, elem_of_prefixes. }
  exists f'. unfold makedirs.
  destruct (dirname full) as [|d dn] eqn:Edn; [done|]. rewrite Hm.
  split; [done|]. split.
  { intros ->. by vm_compute in Edn. }
  split; [rewrite Hloc; apply last_snoc|].
  split; [by rewrite Hloc, parent_snoc|]. split; [|split; [|done]].
  - rewrite Hloc, parent_snoc. intros [|e k] Hk.
    + apply Hkeep. by destruct (files o !! []) as [[|?]|].
    + by apply (Hdirs (e :: k)).
  - apply Hframe. intros t Ht _. simpl. rewrite Hloc.
    by apply snoc_not_prefix.
Qed.

(** Writing to a reachable path of good names that is not a directory:
    the directories are made, and the file holds the text, or nothing
    when the text cannot be encoded. *)
Lemma put_text (w : World) (o : OS) (full text : pstr) :
  reachable w o full = true ->
  well_named w full = true ->
  is_dir (files o !! locate w full) = false ->
  exists f',
    makedirs w o (dirname full)
    = (Ok tt, {| files := f'; launched := launched o |})
    /\ full ≠ []
    /\ refusal full = None
    /\ (forall k, k `prefix_of` parent (locate w full) -> f' !! k = Some Dir)
    /\ (forall k, ~ k `prefix_of` parent (locate w full) ->
                  f' !! k = files o !! k)
    /\ (forall k n, files o !! k = Some n -> f' !! k = Some n)
    /\ (forall k, k `prefix_of` parent (locate w full) -> locate w full ≠ k)
    /\ write_text w {| files := f'; launched := launched o |} full text
       = match textio.utf8_encode text with
         | Some data =>
             (Ok tt, {| files := <[locate w full := File data]> f';
                        launched := launched o |})
         | None =>
             (Raise (Exc UnicodeEncodeError (py "write")),
              {| files := <[locate w full := File []]> f';
                 launched := launched o |})
         end.
Proof.
  intros Hreach Hnamed Hdir.
  destruct (makedirs_reachable w o full Hreach Hnamed)
    as (f' & Hm & Hne & Hlast & Hparent & Hdirs & Hsame & Hkeep).
  destruct (well_named_inv w full Hnamed) as (Hu & Hlen & Href & Hgood).
  exists f'. split; [done|]. split; [done|]. split; [done|].
  split; [done|]. split; [|split; [done|split]].
  - intros k Hk. rewrite Hparent in Hk.
    pose proof (mkdirs_frame (byte_length (dirname full))
                  (locate w (dirname full)) (files o) [] k) as Hf.
    unfold makedirs in Hm. destruct (dirname full) as [|d dn]; [done|].
    destruct (mkdirs _ _ _ _) as [r f'']. injection Hm as -> ->.
    apply Hf. intros t Ht _ ->. by apply Hk.
  - intros k Hk. destruct (locate w full) as [|c l _] using rev_ind; [done|].
    rewrite parent_snoc in Hk. by apply snoc_not_prefix.
  - rewrite (write_text_ok w {| files := f'; launched := launched o |}
                           full text (split full).2); try done.
    + rewrite forallb_forall in Hgood.
      apply good_name_inv, Hgood, list_elem_of_In.
      apply last_Some_elem_of. exact Hlast.
    + cbn [files]. by rewrite Hsame.
    + intros k Hk _. cbn [files]. by apply Hdirs.
Qed.

End files_facts.

Section file_service.
Import posixpath os FileService.
Variable w : World.
Variable self : FileService.t.



End file_service.







(** ** Paths the guard accepts *)


Section normal_paths.
Import posixpath.

Lemma split_on_sep_free (s : pstr) :
  Forall (fun c => forallb (fun x => negb (x =? sep)) c = true)
         (split_on sep s).
Proof.
  induction s as [|x s IH]; simpl; [by repeat constructor|].
  destruct (x =? sep) eqn:Hx; [by constructor|].
  destruct (split_on sep s) as [|c cs].
  - constructor; [simpl; by rewrite Hx|constructor].
  - inversion IH; subst. constructor; [|done]. simpl. by rewrite Hx.
Qed.

Lemma norm_comps_kept (k : nat) (comps : list pstr) :
  forall acc,
    Forall (fun c => kept_component c = true) acc ->
    Forall (fun c => forallb (fun x => negb (x =? sep)) c = true) comps ->
    Forall (fun c => kept_component c = true) (norm_comps k acc comps).
Proof.
  induction comps as [|c comps IH]; intros acc Hacc Hcomps; simpl.
  - by apply Forall_rev.
  - inversion Hcomps as [|? ? Hc Hrest]; subst.
    destruct (str_eqb c [] || str_eqb c dot) eqn:Hskip; [by apply IH|].
    apply orb_false_iff in Hskip as [H1 H2].
    destruct (_ || _ || _).
    + apply IH; [|done]. constructor; [|done].
      unfold kept_component. by rewrite H1, H2, Hc.
    + destruct acc as [|a acc]; apply IH; try done. by inversion Hacc.
Qed.

(** [normpath] ends with [finish] on kept components. *)
Lemma normpath_finish (path : pstr) :
  path ≠ [] ->
  exists comps,
    normpath path = finish (initial_slashes path) comps
    /\ Forall (fun c => kept_component c = true) comps.
Proof.
  intros Hne. exists (norm_comps (initial_slashes path) [] (split_on sep path)).
  split.
  - unfold normpath, finish. by destruct path.
  - apply norm_comps_kept; [done|apply split_on_sep_free].
Qed.

Lemma split_on_join (comps : list pstr) :
  comps ≠ [] ->
  Forall (fun c => kept_component c = true) comps ->
  split_on sep (join_with sep comps) = comps.
Proof.
  induction comps as [|c comps IH]; [done|]. intros _ Hall.
  inversion Hall as [|? ? Hc Hrest]; subst.
  unfold kept_component in Hc. apply andb_true_iff in Hc as [_ Hfree].
  destruct comps as [|c' comps].
  - simpl. by apply split_on_no_sep.
  - change (join_with sep (c :: c' :: comps))
      with (c ++ sep :: join_with sep (c' :: comps)).
    rewrite split_on_app, split_on_no_sep by done.
    by rewrite IH.
Qed.

Lemma components_seps (k : nat) (s : pstr) :
  components (repeat sep k ++ s) = components s.
Proof.
  unfold components. induction k as [|k IH]; [done|]. simpl.
  rewrite filter_cons_False by auto. done.
Qed.

Lemma filter_kept (comps : list pstr) :
  Forall (fun c => kept_component c = true) comps ->
  filter (fun c => c ≠ []) comps = comps.
Proof.
  induction 1 as [|c comps Hc _ IH]; [done|].
  rewrite filter_cons_True, IH; [done|].
  unfold kept_component in Hc. rewrite !andb_true_iff in Hc.
  destruct Hc as [[Hc _] _]. by apply negb_true_iff, str_eqb_neq in Hc.
Qed.

(** The components of a finished path. *)
Lemma components_finish (k : nat) (comps : list pstr) :
  Forall (fun c => kept_component c = true) comps ->
  components (finish k comps)
  = match k, comps with
    | 0%nat, [] => [dot]
    | _, _ => comps
    end.
Proof.
  intros Hall. unfold finish.
  destruct comps as [|c comps].
  - simpl. rewrite app_nil_r. destruct k as [|k]; [done|].
    change (repeat sep (S k)) with (sep :: repeat sep k).
    cbn [app]. rewrite <- (app_nil_r (repeat sep k)).
    change (sep :: repeat sep k ++ []) with (repeat sep (S k) ++ []).
    by rewrite components_seps.
  - assert (Hne : join_with sep (c :: comps) ≠ []).
    { inversion Hall as [|? ? Hc _]; subst. unfold kept_component in Hc.
      rewrite !andb_true_iff in Hc. destruct Hc as [[Hc _] _].
      apply negb_true_iff, str_eqb_neq in Hc.
      destruct c; [done|]. by destruct comps. }
    assert (E : match repeat sep k ++ join_with sep (c :: comps) with
                | [] => dot
                | p => p
                end = repeat sep k ++ join_with sep (c :: comps)).
    { destruct (repeat sep k ++ join_with sep (c :: comps)) eqn:E; [|done].
      apply app_eq_nil in E as [_ E]. done. }
    rewrite E, components_seps. unfold components.
    rewrite split_on_join by done. rewrite filter_kept by done.
    by destruct k.
Qed.

Lemma join_with_prefix (a b : list pstr) :
  a ≠ [] -> exists ext, join_with sep (a ++ b) = join_with sep a ++ ext.
Proof.
  induction a as [|c a IH]; [done|]. intros _.
  destruct a as [|c' a].
  - destruct b as [|d b]; simpl; [exists []; by rewrite app_nil_r|eauto].
  - destruct IH as [ext IH]; [done|].
    change (join_with sep ((c :: c' :: a) ++ b))
      with (c ++ sep :: join_with sep ((c' :: a) ++ b)).
    change (join_with sep (c :: c' :: a))
      with (c ++ sep :: join_with sep (c' :: a)).
    rewrite IH. exists ext. by rewrite <- app_assoc.
Qed.

Lemma join_kept_nonempty (c : pstr) (comps : list pstr) :
  kept_component c = true -> join_with sep (c :: comps) ≠ [].
Proof.
  unfold kept_component. rewrite !andb_true_iff.
  intros [[Hc%negb_true_iff%str_eqb_neq _] _].
  destruct c; [done|]. by destruct comps.
Qed.

Lemma finish_not_empty (k : nat) (comps : list pstr) :
  k ≠ 0%nat \/ join_with sep comps ≠ [] ->
  finish k comps = repeat sep k ++ join_with sep comps.
Proof.
  intros H. unfold finish.
  destruct (repeat sep k ++ join_with sep comps) eqn:E; [|done].
  apply app_eq_nil in E as [E1 E2]. destruct H as [H|H]; [|done].
  by destruct k.
Qed.

(** Between finished paths with the same slashes, containment of the
    components gives the prefix of the strings. *)
Lemma finish_inside (k : nat) (rc comps : list pstr) :
  Forall (fun c => kept_component c = true) rc ->
  Forall (fun c => kept_component c = true) comps ->
  inside (finish k rc) (finish k comps) ->
  startswith (finish k comps) (finish k rc) = true.
Proof.
  intros Hrc Hcomps. unfold inside.
  rewrite !components_finish by done.
  assert (Hdot : forall cs, Forall (fun c => kept_component c = true) cs ->
                 forall t, cs ≠ dot :: t).
  { intros cs Hcs t ->. by inversion Hcs. }
  assert (Hgen : forall r rc' ext,
             Forall (fun c => kept_component c = true) (r :: rc') ->
             startswith (finish k ((r :: rc') ++ ext)) (finish k (r :: rc'))
             = true).
  { intros r rc' ext Hall. inversion Hall as [|? ? Hr _]; subst.
    rewrite !finish_not_empty
      by (right; apply join_kept_nonempty; done).
    destruct (join_with_prefix (r :: rc') ext) as [e ->]; [done|].
    rewrite app_assoc. apply startswith_app. }
  destruct k as [|k], rc as [|r rc], comps as [|c comps]; intros [ext Hext];
    try apply startswith_refl; try done.
  - destruct (Hdot _ Hcomps ext Hext).
  - injection Hext as <- _. destruct (Hdot _ Hrc rc eq_refl).
  - rewrite Hext. by apply Hgen.
  - rewrite !finish_not_empty by (by left). simpl join_with.
    rewrite app_nil_r. apply startswith_app.
  - rewrite Hext. by apply Hgen.
Qed.

Lemma initial_slashes_bound (path : pstr) : (initial_slashes path <= 2)%nat.
Proof.
  unfold initial_slashes. destruct (startswith path [sep]); [|lia].
  destruct (_ && _); lia.
Qed.

(** Joining a relative path to a normal path keeps its leading
    slashes. *)
Lemma initial_slashes_join (k0 : nat) (rc : list pstr) (p : pstr) :
  let root := finish k0 rc in
  initial_slashes root = k0 ->
  Forall (fun c => kept_component c = true) rc ->
  p ≠ [] -> isabs p = false ->
  join root p ≠ [] /\ initial_slashes (join root p) = k0.
Proof.
  intros root Hk Hrc Hp Habs.
  destruct p as [|c p]; [done|]. clear Hp.
  assert (Hc : (c =? sep) = false).
  { unfold isabs in Habs. simpl in Habs. by rewrite andb_true_r in Habs. }
  assert (Hjoin : exists r, join root (c :: p) = root ++ c :: r
                            \/ (join root (c :: p) = root ++ sep :: r
                                /\ endswith root [sep] = false)).
  { unfold join. change (startswith (c :: p) [sep]) with (isabs (c :: p)).
    rewrite Habs. destruct root eqn:E; simpl orb; [by eauto|].
    destruct (endswith _ _); eauto. }
  destruct Hjoin as [r Hjoin].
  assert (Hroot : root ≠ []).
  { subst root. unfold finish, dot.
    by destruct (repeat sep k0 ++ join_with sep rc). }
  split; [destruct Hjoin as [-> | [-> _]]; by destruct root|].
  destruct rc as [|x rc].
  - (* the root is made of slashes, or is the dot *)
    subst root. destruct k0 as [|[|[|k0]]].
    + change (finish 0 []) with dot in *.
      by destruct Hjoin as [-> | [-> _]].
    + change (finish 1 []) with [sep] in *.
      destruct Hjoin as [-> | [_ E]]; [|done].
      unfold initial_slashes. simpl. by rewrite Hc.
    + change (finish 2 []) with [sep; sep] in *.
      destruct Hjoin as [-> | [_ E]]; [|done].
      unfold initial_slashes. simpl. by rewrite Hc.
    + pose proof (initial_slashes_bound (finish (S (S (S k0))) [])). lia.
  - (* the root has a first component, which does not begin with a slash *)
    pose proof (Forall_inv Hrc) as Hx. simpl in Hx.
    assert (Hfin : root = repeat sep k0 ++ join_with sep (x :: rc)).
    { apply finish_not_empty. right. by apply join_kept_nonempty. }
    assert (Hhead : exists y rest, join_with sep (x :: rc) = y :: rest
                                   /\ (y =? sep) = false).
    { unfold kept_component in Hx. rewrite !andb_true_iff in Hx.
      destruct Hx as [[Hne _] Hfree].
      apply negb_true_iff, str_eqb_neq in Hne.
      destruct x as [|y x]; [done|]. simpl in Hfree.
      apply andb_true_iff in Hfree as [Hy%negb_true_iff _].
      destruct rc; simpl; eauto. }
    destruct Hhead as (y & rest & Hj & Hy).
    assert (Hshape : exists tail, join root (c :: p)
                                  = repeat sep k0 ++ y :: tail).
    { destruct Hjoin as [-> | [-> _]]; rewrite Hfin, Hj, <- app_assoc;
        simpl; eauto. }
    destruct Hshape as [tail ->].
    rewrite Hfin, Hj in Hk.
    destruct k0 as [|[|[|k0]]].
    + unfold initial_slashes. simpl. by rewrite Hy.
    + unfold initial_slashes. simpl. by rewrite Hy.
    + unfold initial_slashes. simpl. by rewrite Hy.
    + pose proof (initial_slashes_bound
                    (repeat sep (S (S (S k0))) ++ y :: rest)). lia.
Qed.

(** A relative path whose normal form lies inside a normal workspace
    directory passes the guard. *)
Lemma get_full_path_inside (self : FileService.t) (p : pstr) :
  let root := FileService.workspace_dir self in
  normpath root = root ->
  p ≠ [] -> isabs p = false ->
  inside root (normpath (join root p)) ->
  FileService._get_full_path self p = Ok (normpath (join root p))
  /\ startswith (normpath (join root p)) root = true.
Proof.
  intros root Hnorm Hp Habs Hin.
  assert (Hroot : root ≠ []).
  { intros E. rewrite E in Hnorm. done. }
  destruct (normpath_finish root Hroot) as (rc & Hfin & Hrc).
  rewrite Hnorm in Hfin.
  assert (Hk : initial_slashes (finish (initial_slashes root) rc)
               = initial_slashes root) by by rewrite <- Hfin.
  destruct (initial_slashes_join _ rc p Hk Hrc Hp Habs) as [Hne Hk'].
  rewrite <- Hfin in Hne, Hk'.
  destruct (normpath_finish (join root p) Hne) as (comps & Hfull & Hcomps).
  rewrite Hk' in Hfull.
  assert (Hs : startswith (normpath (join root p)) root = true).
  { rewrite Hfull. rewrite Hfin at 2. apply finish_inside; try done.
    by rewrite <- Hfull, <- Hfin. }
  split; [|done].
  unfold FileService._get_full_path. fold root. rewrite Hs.
  by destruct p.
Qed.

End normal_paths.

(** ** More on the command sandbox *)


Section sandbox_more.
Import TerminalService.
Variable w : World.

Lemma ensure_session_other (self : t) (session_id sid : pstr) :
  sid ≠ session_id ->
  ensure_session w self session_id !! sid = sessions self !! sid.
Proof.
  intros Hne. unfold ensure_session.
  destruct (sessions self !! session_id); [done|].
  by rewrite lookup_insert_ne.
Qed.

Lemma ensure_session_current (self : t) (session_id : pstr) :
  ensure_session w self session_id !! session_id
  = Some (current_session w self session_id).
Proof.
  unfold ensure_session, current_session.
  destruct (sessions self !! session_id) eqn:E; [done|].
  by rewrite lookup_insert_eq.
Qed.

(** What the handler returns with exit code 0, and what otherwise. *)
Lemma handle_cd_cases (self : t) (o : OS) (command : pstr)
      (session : Session) :
  startswith (strip command) (py "cd ") = true ->
  exists path,
    split_ws_1 (strip command) !! 1%nat = Some path
    /\ let new_path :=
         if posixpath.isabs path then posixpath.normpath path
         else posixpath.normpath (posixpath.join (cwd session) path) in
       let '(r, s') := _handle_cd_command w self o command session in
       (exit_code r = 0%Z /\ s' = set_cwd session new_path
        /\ startswith new_path (workspace_dir self) = true
        /\ os.isdir w o new_path = true)
       \/ (exit_code r = 1%Z /\ s' = session).
Proof.
  intros Hcd. pose proof (cd_without_argument_unreachable _ Hcd) as Hlen.
  unfold _handle_cd_command, cd_body. rewrite Hlen. simpl.
  destruct (split_ws_1 (strip command)) as [|c0 [|path [|]]]; try done.
  exists path. split; [done|]. simpl.
  destruct (startswith (if posixpath.isabs path then _ else _) _) eqn:Hp;
    simpl; [|by right].
  destruct (os.exists_ _ _ _); simpl; [|by right].
  destruct (os.isdir _ _ _) eqn:Hd; simpl; [|by right].
  by left.
Qed.

End sandbox_more.

(** X1: a call of [execute_command] for one session leaves the entry of
    every other session in the registry as it was. *)
Theorem other_sessions_untouched (w : World) (self : TerminalService.t)
        (o : OS) (command session_id sid : pstr) :
  sid ≠ session_id ->
  TerminalService.sessions
    (TerminalService.execute_command w self o command session_id).1.2 !! sid
  = TerminalService.sessions self !! sid.
Proof.
  intros Hne.
  unfold TerminalService.execute_command, TerminalService.execute_body.
  destruct (startswith _ _).
  - destruct (TerminalService._handle_cd_command _ _ _ _ _). simpl.
    rewrite lookup_insert_ne by done. by apply ensure_session_other.
  - destruct (str_eqb _ _); [by apply ensure_session_other|].
    destruct (str_eqb _ _); [by apply ensure_session_other|].
    destruct (TerminalService.run_external _ _ _ _).
    by apply ensure_session_other.
Qed.

Lemma other_sessions_untouched_witness :
  TerminalService.sessions
    (TerminalService.execute_command bare_host moved_service src_os
                                     (py "cd src") (py "b")).1.2 !! py "a"
  = TerminalService.sessions moved_service !! py "a".
Proof.
  apply (other_sessions_untouched bare_host moved_service src_os
           (py "cd src") (py "b") (py "a")).
  discriminate.
Defined.

(** X2: the working directory of every session begins, as a string,
    with the workspace directory.  This holds for a service without
    sessions and is kept by [execute_command], [resize_terminal] and
    [get_session_info]. *)
Theorem session_cwd_invariant (w : World) (self : TerminalService.t) (o : OS)
        (command session_id : pstr) (r c : Z) :
  cwd_prefixed self ->
  cwd_prefixed
    (TerminalService.execute_command w self o command session_id).1.2
  /\ cwd_prefixed (TerminalService.resize_terminal w self session_id r c)
  /\ cwd_prefixed (TerminalService.get_session_info w self session_id).2
  /\ cwd_prefixed (TerminalService.with_sessions self ∅).
Proof.
  intros H. split; [by apply execute_command_prefixed|].
  split; [by apply resize_terminal_prefixed|].
  split; [by apply get_session_info_prefixed|].
  intros sid s. simpl. by rewrite lookup_empty.
Qed.

Lemma ws_service_prefixed : cwd_prefixed ws_service.
Proof. intros sid s. simpl. by rewrite lookup_empty. Qed.

Lemma session_cwd_invariant_witness :
  cwd_prefixed
    (TerminalService.execute_command bare_host ws_service src_os
                                     (py "cd src") (py "a")).1.2
  /\ cwd_prefixed
       (TerminalService.resize_terminal bare_host ws_service (py "a") 24 80)
  /\ cwd_prefixed
       (TerminalService.get_session_info bare_host ws_service (py "a")).2
  /\ cwd_prefixed (TerminalService.with_sessions ws_service ∅).
Proof.
  apply (session_cwd_invariant bare_host ws_service src_os
           (py "cd src") (py "a") 24 80).
  apply ws_service_prefixed.
Defined.

(** X3: the built-in command lines ([cd] with an argument, [pwd],
    [clear]) launch no process and leave the files as they are. *)
Theorem builtins_stay_inside (w : World) (self : TerminalService.t) (o : OS)
        (command session_id : pstr) :
  is_builtin command = true ->
  (TerminalService.execute_command w self o command session_id).2 = o.
Proof.
  unfold is_builtin, TerminalService.execute_command,
    TerminalService.execute_body.
  destruct (startswith _ _).
  - intros _. by destruct (TerminalService._handle_cd_command _ _ _ _ _).
  - simpl. destruct (str_eqb _ (py "pwd")); [done|]. simpl. by intros ->.
Qed.

Lemma builtins_stay_inside_witness :
  (TerminalService.execute_command echo_host ws_service src_os
                                   (py " cd src") (py "a")).2 = src_os.
Proof.
  apply (builtins_stay_inside echo_host ws_service src_os
           (py " cd src") (py "a")).
  reflexivity.
Defined.

(** X4: after a [cd] that returned exit code 0, [pwd] in the same
    session prints the normal form of the argument of [cd], taken from
    the former working directory unless it is absolute; that path is an
    existing directory and begins with the workspace directory; and
    [pwd] changes neither the service nor the host. *)
Theorem cd_then_pwd (w : World) (self self1 : TerminalService.t) (o o1 : OS)
        (command session_id : pstr) (r : TerminalResult) :
  startswith (strip command) (py "cd ") = true ->
  TerminalService.execute_command w self o command session_id
  = (r, self1, o1) ->
  exit_code r = 0%Z ->
  exists path,
    split_ws_1 (strip command) !! 1%nat = Some path
    /\ let new_path :=
         if posixpath.isabs path then posixpath.normpath path
         else posixpath.normpath
                (posixpath.join
                   (cwd (TerminalService.current_session w self session_id))
                   path) in
       TerminalService.execute_command w self1 o1 (py "pwd") session_id
       = ({| output := new_path ++ [10]; error := []; exit_code := 0 |},
          self1, o1)
       /\ os.isdir w o new_path = true
       /\ startswith new_path (TerminalService.workspace_dir self) = true.
Proof.
  intros Hcd Hex Hr.
  destruct (handle_cd_cases w self o command
              (TerminalService.current_session w self session_id) Hcd)
    as (path & Hpath & Hcases).
  exists path. split; [done|]. cbv zeta in *.
  unfold TerminalService.execute_command, TerminalService.execute_body in Hex.
  rewrite Hcd in Hex.
  destruct (TerminalService._handle_cd_command _ _ _ _ _) as [r' s'].
  injection Hex as -> <- <-.
  destruct Hcases as [(_ & -> & Hpre & Hdir)|[Hone _]]; [|congruence].
  split; [|done].
  unfold TerminalService.execute_command, TerminalService.execute_body.
  change (startswith (strip (py "pwd")) (py "cd ")) with false.
  change (str_eqb (strip (py "pwd")) (py "pwd")) with true. cbv iota.
  unfold TerminalService.current_session, TerminalService.ensure_session.
  simpl. rewrite lookup_insert_eq. simpl. done.
Qed.

Lemma cd_then_pwd_witness :
  exists path,
    split_ws_1 (strip (py "cd src")) !! 1%nat = Some path
    /\ let new_path :=
         if posixpath.isabs path then posixpath.normpath path
         else posixpath.normpath
                (posixpath.join
                   (cwd (TerminalService.current_session
                           bare_host ws_service (py "a")))
                   path) in
       TerminalService.execute_command
         bare_host
         (TerminalService.execute_command bare_host ws_service src_os
                                          (py "cd src") (py "a")).1.2
         src_os (py "pwd") (py "a")
       = ({| output := new_path ++ [10]; error := []; exit_code := 0 |},
          (TerminalService.execute_command bare_host ws_service src_os
                                           (py "cd src") (py "a")).1.2,
          src_os)
       /\ os.isdir bare_host src_os new_path = true
       /\ startswith new_path (TerminalService.workspace_dir ws_service)
          = true.
Proof.
  apply (cd_then_pwd bare_host ws_service _ src_os src_os (py "cd src")
           (py "a")
           (TerminalService.execute_command bare_host ws_service src_os
                                            (py "cd src") (py "a")).1.1);
    reflexivity.
Defined.


(** X5: a [cd] that does not return exit code 0 returns exit code 1 with
    a message, and changes nothing: every session, as the service sees
    it, stays where it was, and so does the host. *)
Theorem failed_cd_changes_nothing (w : World) (self : TerminalService.t)
        (o : OS) (command session_id : pstr) :
  startswith (strip command) (py "cd ") = true ->
  exit_code
    (TerminalService.execute_command w self o command session_id).1.1 ≠ 0%Z ->
  let '(r, self1, o1) :=
    TerminalService.execute_command w self o command session_id in
  exit_code r = 1%Z /\ error r ≠ [] /\ output r = [] /\ o1 = o
  /\ forall sid, TerminalService.current_session w self1 sid
                 = TerminalService.current_session w self sid.
Proof.
  intros Hcd.
  destruct (handle_cd_cases w self o command
              (TerminalService.current_session w self session_id) Hcd)
    as (path & Hpath & Hcases).
  pose proof (handle_cd_result w self o command
                (TerminalService.current_session w self session_id)) as Hres.
  assert (Hout : output (TerminalService._handle_cd_command w self o command
                   (TerminalService.current_session w self session_id)).1
                 = []).
  { unfold TerminalService._handle_cd_command, TerminalService.cd_body.
    destruct (length _ =? 1)%nat; simpl.
    - destruct (negb (os.exists_ _ _ _)); simpl; [done|].
      by destruct (negb (os.isdir _ _ _)).
    - destruct (_ !! 1%nat) as [p|]; simpl; [|done].
      destruct (negb (startswith _ _)); simpl; [done|].
      destruct (negb (os.exists_ _ _ _)); simpl; [done|].
      by destruct (negb (os.isdir _ _ _)). }
  unfold TerminalService.execute_command, TerminalService.execute_body.
  rewrite Hcd. cbv zeta in *.
  destruct (TerminalService._handle_cd_command _ _ _ _ _) as [r s'].
  simpl in *. intros Hr.
  destruct Hcases as [(? & _)|[Hone ->]]; [done|].
  destruct Hres as [[? ?]|[_ Herr]]; [done|].
  repeat split; try done.
  intros sid. unfold TerminalService.current_session. simpl.
  destruct (decide (session_id = sid)) as [->|Hne].
  - by rewrite lookup_insert_eq.
  - rewrite lookup_insert_ne by done.
    by rewrite ensure_session_other.
Qed.

Lemma failed_cd_changes_nothing_witness :
  let '(r, self1, o1) :=
    TerminalService.execute_command bare_host moved_service src_os
                                    (py "cd ../readme") (py "a") in
  exit_code r = 1%Z /\ error r ≠ [] /\ output r = [] /\ o1 = src_os
  /\ forall sid, TerminalService.current_session bare_host self1 sid
                 = TerminalService.current_session bare_host moved_service sid.
Proof.
  apply (failed_cd_changes_nothing bare_host moved_service src_os
           (py "cd ../readme") (py "a")).
  - reflexivity.
  - discriminate.
Defined.

Section absolute_cd.
Import posixpath.

(** The normal form of an absolute path is absolute. *)
Lemma normpath_isabs (path : pstr) :
  isabs path = true -> isabs (normpath path) = true.
Proof.
  intros Habs.
  assert (Hne : path ≠ []) by (by destruct path).
  destruct (normpath_finish path Hne) as (comps & -> & _).
  assert (Hk : exists k, initial_slashes path = S k).
  { unfold initial_slashes. unfold isabs in Habs. rewrite Habs.
    destruct (_ && _); eauto. }
  destruct Hk as [k ->]. by rewrite finish_not_empty by (by left).
Qed.

End absolute_cd.

(** X6: when the workspace directory is a relative path, as it is in the
    editor, [cd] with an absolute argument is always refused, also for a
    directory inside the workspace. *)
Theorem absolute_cd_refused (w : World) (self : TerminalService.t) (o : OS)
        (command session_id path : pstr) :
  TerminalService.workspace_dir self ≠ [] ->
  posixpath.isabs (TerminalService.workspace_dir self) = false ->
  startswith (strip command) (py "cd ") = true ->
  split_ws_1 (strip command) !! 1%nat = Some path ->
  posixpath.isabs path = true ->
  (TerminalService.execute_command w self o command session_id).1.1
  = TerminalService.access_denied.
Proof.
  intros Hroot Hrel Hcd Hpath Habs.
  unfold TerminalService.execute_command, TerminalService.execute_body.
  rewrite Hcd.
  unfold TerminalService._handle_cd_command, TerminalService.cd_body.
  rewrite (cd_without_argument_unreachable _ Hcd), Hpath, Habs. simpl.
  assert (Hs : startswith (posixpath.normpath path)
                          (TerminalService.workspace_dir self) = false).
  { pose proof (normpath_isabs path Habs) as Hn.
    unfold posixpath.isabs in *.
    destruct (TerminalService.workspace_dir self) as [|c root]; [done|].
    destruct (posixpath.normpath path) as [|d rest]; [done|].
    simpl in *. rewrite andb_true_r in *.
    apply N.eqb_eq in Hn as ->. by rewrite N.eqb_sym, Hrel. }
  by rewrite Hs.
Qed.

Lemma absolute_cd_refused_witness :
  (TerminalService.execute_command bare_host app_service src_os
                                   (py "cd /ws/src") (py "a")).1.1
  = TerminalService.access_denied.
Proof.
  apply (absolute_cd_refused bare_host app_service src_os
           (py "cd /ws/src") (py "a") (py "/ws/src")); try reflexivity.
  discriminate.
Defined.

(** X7: a command line that is not built in, splits into tokens and does
    not begin with a deny-listed token is handed to the process launcher
    exactly once, as its list of tokens, with the working directory and
    the environment of the session; the files are what the launch left.
    The result carries the output, the error output and the exit code of
    the process; when the launch raised, it carries no output and the
    message and code of the error: the time-out with 124, the missing
    command with 127, anything else with 1. *)
Theorem external_command_launched_once (w : World) (self : TerminalService.t)
        (o : OS) (command session_id a : pstr) (args : list pstr) :
  is_builtin command = false ->
  shlex.split command = Ok (a :: args) ->
  TerminalService.is_dangerous a = false ->
  let session := TerminalService.current_session w self session_id in
  let '(r, self1, o1) :=
    TerminalService.execute_command w self o command session_id in
  let '(out, f) :=
    launch w (a :: args) (cwd session) (env session) (files o) in
  launched o1 = launched o ++ [(a :: args, cwd session)]
  /\ files o1 = f
  /\ match out with
     | Ok result =>
         output r = stdout result /\ error r = stderr result
         /\ exit_code r = returncode result
     | Raise e =>
         output r = []
         /\ match exc_cls e with
            | TimeoutExpired =>
                error r = py "Command timed out after 30 seconds" ++ [10]
                /\ exit_code r = 124%Z
            | FileNotFoundError =>
                error r = py "Command not found: " ++ a ++ [10]
                /\ exit_code r = 127%Z
            | _ =>
                error r = py "Error executing command: " ++ exc_msg e ++ [10]
                /\ exit_code r = 1%Z
            end
     end
  /\ forall sid, TerminalService.current_session w self1 sid
                 = TerminalService.current_session w self sid.
Proof.
  intros Hb Hs Hd session. rewrite execute_external by done. fold session.
  unfold TerminalService.run_external, os.subprocess_run. rewrite Hs, Hd.
  destruct (launch w _ _ _ _) as [[result|e] f].
  - repeat split. apply current_session_ensure.
  - split; [done|]. split; [done|]. split; [|apply current_session_ensure].
    unfold TerminalService.command_failed. by destruct (exc_cls e).
Qed.

Lemma external_command_launched_once_witness :
  let session := TerminalService.current_session echo_host moved_service
                                                 (py "a") in
  let '(r, self1, o1) :=
    TerminalService.execute_command echo_host moved_service src_os
                                    (py "ls  -l 'my file'") (py "a") in
  let '(out, f) :=
    launch echo_host [py "ls"; py "-l"; py "my file"] (cwd session)
           (env session) (files src_os) in
  launched o1
  = launched src_os ++ [([py "ls"; py "-l"; py "my file"], cwd session)]
  /\ files o1 = f
  /\ match out with
     | Ok result =>
         output r = stdout result /\ error r = stderr result
         /\ exit_code r = returncode result
     | Raise e =>
         output r = []
         /\ match exc_cls e with
            | TimeoutExpired =>
                error r = py "Command timed out after 30 seconds" ++ [10]
                /\ exit_code r = 124%Z
            | FileNotFoundError =>
                error r = py "Command not found: " ++ py "ls" ++ [10]
                /\ exit_code r = 127%Z
            | _ =>
                error r = py "Error executing command: " ++ exc_msg e ++ [10]
                /\ exit_code r = 1%Z
            end
     end
  /\ forall sid, TerminalService.current_session echo_host self1 sid
                 = TerminalService.current_session echo_host moved_service sid.
Proof.
  apply (external_command_launched_once echo_host moved_service src_os
           (py "ls  -l 'my file'") (py "a") (py "ls")
           [py "-l"; py "my file"]); reflexivity.
Defined.

(** X8: the terminal geometry has no effect on commands: after
    [resize_terminal], a command line returns the same result and leaves
    the host in the same state as before the resize, whichever session is
    resized, and the session still reports the recorded geometry and its
    working directory. *)
Theorem resize_is_informational (w : World) (self : TerminalService.t)
        (o : OS) (command session_id sid : pstr) (r c : Z) :
  let resized := TerminalService.resize_terminal w self sid r c in
  (TerminalService.execute_command w resized o command session_id).1.1
  = (TerminalService.execute_command w self o command session_id).1.1
  /\ (TerminalService.execute_command w resized o command session_id).2
     = (TerminalService.execute_command w self o command session_id).2
  /\ rows (TerminalService.get_session_info w resized sid).1 = Some r
  /\ cols (TerminalService.get_session_info w resized sid).1 = Some c
  /\ cwd (TerminalService.get_session_info w resized sid).1
     = cwd (TerminalService.get_session_info w self sid).1.
Proof.
  intros resized.
  assert (Hcwd : cwd (TerminalService.current_session w resized session_id)
                 = cwd (TerminalService.current_session w self session_id))
    by apply resize_terminal_keeps_cwd.
  assert (Henv : env (TerminalService.current_session w resized session_id)
                 = env (TerminalService.current_session w self session_id)).
  { unfold resized, TerminalService.resize_terminal,
      TerminalService.current_session. simpl.
    destruct (decide (sid = session_id)) as [->|Hne].
    - by rewrite lookup_insert_eq.
    - by rewrite lookup_insert_ne. }
  assert (Hrun : forall s1 s2 : Session,
             cwd s1 = cwd s2 -> env s1 = env s2 ->
             TerminalService.run_external w o command s1
             = TerminalService.run_external w o command s2).
  { intros s1 s2 E1 E2. unfold TerminalService.run_external.
    by rewrite E1, E2. }
  assert (Hhandle : forall s1 s2 : Session,
             cwd s1 = cwd s2 ->
             (TerminalService._handle_cd_command w resized o command s1).1
             = (TerminalService._handle_cd_command w self o command s2).1).
  { intros s1 s2 E1.
    unfold TerminalService._handle_cd_command, TerminalService.cd_body.
    rewrite E1. change (TerminalService.workspace_dir resized)
      with (TerminalService.workspace_dir self).
    destruct (length _ =? 1)%nat; simpl.
    - destruct (negb (os.exists_ _ _ _)); simpl; [done|].
      by destruct (negb (os.isdir _ _ _)).
    - destruct (_ !! 1%nat) as [p|]; simpl; [|done].
      destruct (negb (startswith _ _)); simpl; [done|].
      destruct (negb (os.exists_ _ _ _)); simpl; [done|].
      by destruct (negb (os.isdir _ _ _)). }
  split; [|split].
  - unfold TerminalService.execute_command, TerminalService.execute_body.
    destruct (startswith _ _).
    + pose proof (Hhandle _ _ Hcwd) as Hh.
      do 2 destruct (TerminalService._handle_cd_command _ _ _ _ _).
      simpl in *. by subst.
    + destruct (str_eqb _ _); [simpl; by rewrite Hcwd|].
      destruct (str_eqb _ _); [done|].
      rewrite (Hrun _ _ Hcwd Henv).
      by destruct (TerminalService.run_external _ _ _ _).
  - unfold TerminalService.execute_command, TerminalService.execute_body.
    destruct (startswith _ _).
    + by do 2 destruct (TerminalService._handle_cd_command _ _ _ _ _).
    + destruct (str_eqb _ _); [done|].
      destruct (str_eqb _ _); [done|].
      rewrite (Hrun _ _ Hcwd Henv).
      by destruct (TerminalService.run_external _ _ _ _).
  - unfold resized, TerminalService.get_session_info,
      TerminalService.resize_terminal, TerminalService.current_session.
    simpl. by rewrite !lookup_insert_eq.
Qed.

(** ** Directories and deletion *)


Section directories.
Import posixpath os FileService.

Lemma way_clear_inv (w : World) (o : OS) (full : pstr) :
  way_clear w o full = true ->
  files o !! [] = Some Dir
  /\ forall k, k `prefix_of` locate w full -> is_file (files o !! k) = false.
Proof.
  unfold way_clear. rewrite andb_true_iff, forallb_forall.
  intros [Hroot Hall]. split.
  - by destruct (files o !! []) as [[|?]|].
  - intros k Hk. apply negb_true_iff, Hall.
    by apply list_elem_of_In, elem_of_prefixes.
Qed.

Lemma exists_false_inv (w : World) (o : OS) (full : pstr) :
  full ≠ [] -> refusal full = None -> exists_ w o full = false ->
  files o !! locate w full = None.
Proof.
  unfold exists_. intros Hne Href. rewrite lookup_accepted by done.
  destruct (files o !! _); [discriminate|reflexivity].
Qed.

Lemma exists_true_inv (w : World) (o : OS) (full : pstr) :
  exists_ w o full = true ->
  full ≠ [] /\ refusal full = None
  /\ exists n, lookup w o full = Some n
               /\ files o !! locate w full = Some n.
Proof.
  unfold exists_. destruct (lookup w o full) as [n|] eqn:E; [|done].
  intros _. destruct (lookup_Some w o full n E) as (? & ? & ?). eauto.
Qed.

Lemma get_full_path_not_empty (self : t) (p full : pstr) :
  workspace_dir self ≠ [] -> _get_full_path self p = Ok full -> full ≠ [].
Proof.
  intros Hroot H. apply get_full_path_prefixed in H.
  destruct full; [|done]. by destruct (workspace_dir self).
Qed.

(** The last name of a path that ends in a plain name. *)
Lemma last_name_plain (p : pstr) :
  plain_name (split p).2 = true -> last_name p = Some (split p).2.
Proof.
  unfold split, last_name. simpl.
  assert (Hkeep : forall b, plain_name b = true ->
                            negb (str_eqb b []) = true).
  { intros b. unfold plain_name. by intros [[? _]%andb_true_iff _]%andb_true_iff. }
  destruct (last_sep_decomp p) as [[-> Hp]|(a & b & -> & Hb & ->)].
  - rewrite drop_0. intros Hplain. rewrite split_on_no_sep by done.
    simpl. by rewrite (Hkeep _ Hplain).
  - assert (Hd : drop (S (length a)) (a ++ sep :: b) = b).
    { replace (a ++ sep :: b) with ((a ++ [sep]) ++ b)
        by (by rewrite <- app_assoc).
      apply drop_app_length'. rewrite length_app. simpl. lia. }
    rewrite Hd. intros Hplain.
    rewrite split_on_app, (split_on_no_sep b) by done.
    rewrite List.filter_app. simpl. rewrite (Hkeep _ Hplain).
    apply last_snoc.
Qed.

Lemma plain_name_inv (c : pstr) :
  plain_name c = true -> str_eqb c dot = false /\ str_eqb c dotdot = false.
Proof.
  unfold plain_name. rewrite !andb_true_iff, !negb_true_iff. tauto.
Qed.

Lemma plain_movable (p : pstr) :
  plain_name (split p).2 = true -> movable p = true.
Proof.
  intros H. unfold movable. rewrite (last_name_plain p H).
  by destruct (plain_name_inv _ H) as [-> ->].
Qed.

(** Deleting what exists at a path that ends in a plain name. *)
Lemma delete_existing (w : World) (self : t) (o : OS) (p full : pstr) :
  _get_full_path self p = Ok full ->
  exists_ w o full = true ->
  plain_name (split full).2 = true ->
  exists o1,
    delete_file w self o p = (Ok tt, o1)
    /\ files o1 !! locate w full = None
    /\ (isdir w o full = true ->
        forall k, locate w full `prefix_of` k -> files o1 !! k = None)
    /\ (forall k, ~ locate w full `prefix_of` k ->
                  files o1 !! k = files o !! k)
    /\ launched o1 = launched o.
Proof.
  intros Hfull Hex Hplain.
  destruct (exists_true_inv w o full Hex) as (Hne & Href & n & Hlook & Hn).
  assert (Hdel : delete_file w self o p
                 = if isdir w o full then rmtree w o full
                   else remove w o full).
  { unfold delete_file. by rewrite Hfull, Hex. }
  rewrite Hdel. unfold isdir, rmtree, remove. rewrite Href, Hlook.
  destruct n as [|data].
  - rewrite (last_name_plain full Hplain).
    destruct (plain_name_inv _ Hplain) as [-> ->]. cbv zeta.
    eexists. split; [done|]. simpl.
    assert (Hf : forall k, locate w full `prefix_of` k ->
                 filter (fun kn => ~ locate w full `prefix_of` kn.1)
                        (files o) !! k = None).
    { intros k Hk. apply map_lookup_filter_None. right. intros x _ Hx.
      by apply Hx. }
    split; [by apply Hf|]. split; [by intros _|]. split; [|done].
    intros k Hk. destruct (files o !! k) as [x|] eqn:E.
    + by apply map_lookup_filter_Some.
    + apply map_lookup_filter_None. by left.
  - eexists. split; [done|]. simpl.
    split; [by rewrite lookup_delete_eq|]. split; [done|]. split; [|done].
    intros k Hk. rewrite lookup_delete_ne; [done|]. by intros <-.
Qed.

End directories.

(** X9: for a path that is not empty and that the guard resolves to a
    place of good names where nothing exists, with the root directory in
    place and no regular file on the way, [create_directory] succeeds and
    leaves directories all the way to the place, changing no other
    location; after that, [create_directory] and [create_file] of the
    same path both fail with their errors for an existing entry and
    leave the state as it is. *)
Theorem create_directory_once (w : World) (self : FileService.t) (o : OS)
        (p full : pstr) :
  p ≠ [] ->
  FileService._get_full_path self p = Ok full ->
  full ≠ [] ->
  well_named w full = true ->
  way_clear w o full = true ->
  os.exists_ w o full = false ->
  exists o1,
    FileService.create_directory w self o p = (Ok tt, o1)
    /\ os.isdir w o1 full = true
    /\ (forall k, k `prefix_of` os.locate w full -> files o1 !! k = Some Dir)
    /\ (forall k, ~ k `prefix_of` os.locate w full ->
                  files o1 !! k = files o !! k)
    /\ launched o1 = launched o
    /\ FileService.create_directory w self o1 p
       = (Raise (FileService.directory_exists p), o1)
    /\ FileService.create_file w self o1 p
       = (Raise (FileService.already_exists p), o1).
Proof.
  intros _ Hfull Hne Hnamed Hclear Hex.
  destruct (way_clear_inv w o full Hclear) as [Hroot Hway].
  destruct (well_named_inv w full Hnamed) as (_ & Hlen & Href & Hgood).
  pose proof (exists_false_inv w o full Hne Href Hex) as Hnone.
  destruct (mkdirs_ok (os.byte_length full) (os.locate w full) (files o) [])
    as (f' & Hm & Hdirs & Hkeep & Hframe); [done|done| |].
  { intros t Ht _. by apply Hway. }
  assert (Hloc : os.locate w full ≠ []).
  { intros E. rewrite E in Hnone. congruence. }
  assert (Hdir : f' !! os.locate w full = Some Dir) by by apply (Hdirs _).
  assert (Hlook : os.lookup w {| files := f'; launched := launched o |} full
                  = Some Dir).
  { by rewrite lookup_accepted. }
  assert (Hex1 : os.exists_ w {| files := f'; launched := launched o |} full
                 = true).
  { unfold os.exists_. by rewrite Hlook. }
  exists {| files := f'; launched := launched o |}.
  split; [|split; [|split; [|split; [|split; [done|split]]]]].
  - unfold FileService.create_directory, os.makedirs_fresh.
    rewrite Hfull, Hex. destruct full; [done|].
    unfold os.exists_ in Hex.
    destruct (os.lookup w o _); [done|]. by rewrite Hm.
  - unfold os.isdir. by rewrite Hlook.
  - intros [|c k] Hk; [by apply Hkeep|]. by apply (Hdirs (c :: k)).
  - intros k Hk. simpl. apply Hframe. intros t Ht _ ->. by apply Hk.
  - unfold FileService.create_directory. by rewrite Hfull, Hex1.
  - unfold FileService.create_file. by rewrite Hfull, Hex1.
Qed.

Lemma create_directory_once_witness :
  exists o1,
    FileService.create_directory bare_host ws_files src_os (py "a/b")
    = (Ok tt, o1)
    /\ os.isdir bare_host o1 (py "/ws/a/b") = true
    /\ (forall k, k `prefix_of` os.locate bare_host (py "/ws/a/b") ->
                  files o1 !! k = Some Dir)
    /\ (forall k, ~ k `prefix_of` os.locate bare_host (py "/ws/a/b") ->
                  files o1 !! k = files src_os !! k)
    /\ launched o1 = launched src_os
    /\ FileService.create_directory bare_host ws_files o1 (py "a/b")
       = (Raise (FileService.directory_exists (py "a/b")), o1)
    /\ FileService.create_file bare_host ws_files o1 (py "a/b")
       = (Raise (FileService.already_exists (py "a/b")), o1).
Proof.
  apply (create_directory_once bare_host ws_files src_os (py "a/b")
           (py "/ws/a/b")); try reflexivity; discriminate.
Defined.

(** X10: [delete_file] of a path that is not empty, exists and ends in a
    plain name succeeds; the place is then empty, and when it was a
    directory so is every place below it; no place outside it changes
    and no process is launched; a second [delete_file] of the same path
    fails with the error for a missing file and leaves the state as it
    is. *)
Theorem delete_file_removes (w : World) (self : FileService.t) (o : OS)
        (p full : pstr) :
  p ≠ [] ->
  FileService._get_full_path self p = Ok full ->
  os.exists_ w o full = true ->
  plain_name (posixpath.split full).2 = true ->
  exists o1,
    FileService.delete_file w self o p = (Ok tt, o1)
    /\ files o1 !! os.locate w full = None
    /\ (os.isdir w o full = true ->
        forall k, os.locate w full `prefix_of` k -> files o1 !! k = None)
    /\ (forall k, ~ os.locate w full `prefix_of` k ->
                  files o1 !! k = files o !! k)
    /\ launched o1 = launched o
    /\ FileService.delete_file w self o1 p
       = (Raise (FileService.not_found p), o1).
Proof.
  intros _ Hfull Hex Hplain.
  destruct (delete_existing w self o p full Hfull Hex Hplain)
    as (o1 & Hdel & Hgone & Hbelow & Hframe & Hl).
  destruct (exists_true_inv w o full Hex) as (Hne & Href & _).
  exists o1. repeat (split; [done|]).
  unfold FileService.delete_file. rewrite Hfull.
  unfold os.exists_. rewrite lookup_accepted by done. by rewrite Hgone.
Qed.

Lemma delete_file_removes_witness :
  exists o1,
    FileService.delete_file bare_host ws_files src_os (py "src") = (Ok tt, o1)
    /\ files o1 !! os.locate bare_host (py "/ws/src") = None
    /\ (os.isdir bare_host src_os (py "/ws/src") = true ->
        forall k, os.locate bare_host (py "/ws/src") `prefix_of` k ->
                  files o1 !! k = None)
    /\ (forall k, ~ os.locate bare_host (py "/ws/src") `prefix_of` k ->
                  files o1 !! k = files src_os !! k)
    /\ launched o1 = launched src_os
    /\ FileService.delete_file bare_host ws_files o1 (py "src")
       = (Raise (FileService.not_found (py "src")), o1).
Proof.
  apply (delete_file_removes bare_host ws_files src_os (py "src")
           (py "/ws/src")); try reflexivity.
  discriminate.
Defined.

(** X11: [delete_file] of the empty path deletes the workspace directory
    itself: when the workspace directory is written in normal form, ends
    in a plain name and exists as a directory, the call succeeds, and
    afterwards neither the directory nor anything below it exists. *)
Theorem delete_empty_path_removes_workspace (w : World)
        (self : FileService.t) (o : OS) :
  posixpath.normpath (FileService.workspace_dir self)
  = FileService.workspace_dir self ->
  plain_name (posixpath.split (FileService.workspace_dir self)).2 = true ->
  os.isdir w o (FileService.workspace_dir self) = true ->
  exists o1,
    FileService.delete_file w self o [] = (Ok tt, o1)
    /\ os.exists_ w o1 (FileService.workspace_dir self) = false
    /\ forall k, os.locate w (FileService.workspace_dir self) `prefix_of` k ->
                 files o1 !! k = None.
Proof.
  intros _ Hplain Hdir.
  assert (Hex : os.exists_ w o (FileService.workspace_dir self) = true).
  { unfold os.isdir in Hdir. unfold os.exists_.
    by destruct (os.lookup _ _ _) as [[|?]|]. }
  destruct (delete_existing w self o [] _ eq_refl Hex Hplain)
    as (o1 & Hdel & Hloc & Hbelow & _).
  destruct (exists_true_inv w o _ Hex) as (Hne & Href & _).
  exists o1. split; [done|]. split; [|by apply Hbelow].
  unfold os.exists_. rewrite lookup_accepted by done. by rewrite Hloc.
Qed.

Lemma delete_empty_path_removes_workspace_witness :
  exists o1,
    FileService.delete_file bare_host ws_files src_os [] = (Ok tt, o1)
    /\ os.exists_ bare_host o1 (FileService.workspace_dir ws_files) = false
    /\ forall k,
         os.locate bare_host (FileService.workspace_dir ws_files)
           `prefix_of` k ->
         files o1 !! k = None.
Proof.
  apply (delete_empty_path_removes_workspace bare_host ws_files src_os);
    reflexivity.
Defined.

(** ** Writing, once more *)

Section writing.
Import posixpath os FileService.


Lemma not_representable_encode (text : pstr) :
  representable text = false -> textio.utf8_encode text = None.
Proof.
  induction text as [|c text IH]; simpl; [done|].
  intros H. apply andb_false_iff in H as [H|H].
  - assert (textio.encode_char c = None) as ->; [|done].
    unfold textio.encode_char. apply andb_false_iff in H as [H|H].
    + apply N.ltb_ge in H.
      repeat (match goal with
              | |- context [?a <? ?b] =>
                  destruct (N.ltb_spec a b); [lia|]
              end). done.
    + apply negb_false_iff in H. rewrite H.
      apply andb_true_iff in H as [H1 H2].
      apply N.leb_le in H1, H2.
      destruct (N.ltb_spec c 128); [lia|].
      destruct (N.ltb_spec c 2048); [lia|].
      by destruct (N.ltb_spec c 65536); [|lia].
  - rewrite (IH H). by destruct (textio.encode_char c).
Qed.

(** The state after [makedirs] on the directory name of a path, outside
    the way to it. *)
Lemma makedirs_frame (w : World) (o : OS) (name : pstr) (k : list pstr) :
  ~ k `prefix_of` locate w name ->
  files (makedirs w o name).2 !! k = files o !! k
  /\ launched (makedirs w o name).2 = launched o.
Proof.
  intros Hk. unfold makedirs. destruct name as [|c name]; [done|].
  pose proof (mkdirs_frame (byte_length (c :: name))
                (locate w (c :: name)) (files o) [] k) as Hf.
  destruct (mkdirs _ _ _ _) as [r f]. simpl in *. split; [|done].
  apply Hf. intros t Ht _ ->. by apply Hk.
Qed.


End writing.



(** X13: text that UTF-8 cannot hold destroys the file it is written to:
    for a path that is not empty and that the guard resolves to a
    reachable place of good names that is not a directory, [write_file]
    of text that is not representable raises the encoding error and
    leaves an empty file there, whatever the file held before;
    [read_file] then returns the empty text, or refuses the path when
    its MIME type is an image. *)
Theorem write_unencodable_truncates (w : World) (self : FileService.t)
        (o : OS) (p full text : pstr) :
  p ≠ [] ->
  FileService._get_full_path self p = Ok full ->
  well_named w full = true ->
  reachable w o full = true ->
  is_dir (files o !! os.locate w full) = false ->
  representable text = false ->
  exists o1,
    FileService.write_file w self o p text
    = (Raise (Exc UnicodeEncodeError (py "write")), o1)
    /\ files o1 !! os.locate w full = Some (File [])
    /\ FileService.read_file w self o1 p
       = if guess_image w full then Raise (FileService.binary_file p)
         else Ok [].
Proof.
  intros _ Hfull Hnamed Hreach Hdir Hrep.
  destruct (put_text w o full text Hreach Hnamed Hdir)
    as (f' & Hm & Hne & Href & _ & _ & _ & _ & Hput).
  rewrite (not_representable_encode text Hrep) in Hput.
  assert (Hw : FileService.write_file w self o p text
               = (Raise (Exc UnicodeEncodeError (py "write")),
                  {| files := <[os.locate w full := File []]> f';
                     launched := launched o |})).
  { unfold FileService.write_file. by rewrite Hfull, Hm. }
  eexists. split; [exact Hw|]. simpl.
  split; [by rewrite lookup_insert_eq|].
  unfold FileService.read_file. rewrite Hfull. simpl.
  unfold os.exists_, os.isdir, os.read_text. rewrite Href.
  rewrite lookup_accepted by done. cbn [files].
  rewrite lookup_insert_eq. simpl. by destruct (guess_image w _).
Qed.

Lemma write_unencodable_truncates_witness :
  exists o1,
    FileService.write_file bare_host ws_files src_os (py "readme")
                           [104; 55296]
    = (Raise (Exc UnicodeEncodeError (py "write")), o1)
    /\ files o1 !! os.locate bare_host (py "/ws/readme") = Some (File [])
    /\ FileService.read_file bare_host ws_files o1 (py "readme")
       = if guess_image bare_host (py "/ws/readme")
         then Raise (FileService.binary_file (py "readme"))
         else Ok [].
Proof.
  apply (write_unencodable_truncates bare_host ws_files src_os (py "readme")
           (py "/ws/readme")); try reflexivity.
  discriminate.
Defined.



(** ** Renaming *)

Section renaming.
Import posixpath os FileService.

Lemma under_app (s rest : list pstr) : under s (s ++ rest) = Some rest.
Proof.
  unfold under. rewrite decide_True by apply prefix_app_r, reflexivity.
  by rewrite drop_app_length.
Qed.

Lemma under_inv (s k rest : list pstr) : under s k = Some rest -> k = s ++ rest.
Proof.
  unfold under. destruct (decide _) as [[t ->]|]; [|done].
  rewrite drop_app_length. by intros [= ->].
Qed.

Lemma moved_elem (s d : list pstr) (f : fs) (k : list pstr) (n : node) :
  (k, n) ∈ omap (fun kn => rest ← under s kn.1; Some (d ++ rest, kn.2))
                (map_to_list f)
  <-> exists rest, k = d ++ rest /\ f !! (s ++ rest) = Some n.
Proof.
  rewrite list_elem_of_omap. split.
  - intros ([k0 n0] & Hin & Hf). simpl in Hf.
    destruct (under s k0) as [rest|] eqn:E; [|done]. simpl in Hf.
    injection Hf as <- <-. exists rest. split; [done|].
    apply under_inv in E as ->. by apply elem_of_map_to_list.
  - intros (rest & -> & Hn). exists (s ++ rest, n). split.
    + by apply elem_of_map_to_list.
    + simpl. by rewrite under_app.
Qed.

(** What was at or below the source is at or below the destination. *)
Lemma move_tree_moved (s d : list pstr) (f : fs) (rest : list pstr)
      (n : node) :
  f !! (s ++ rest) = Some n -> move_tree s d f !! (d ++ rest) = Some n.
Proof.
  intros Hn. unfold move_tree. apply lookup_union_Some_l.
  apply elem_of_list_to_map_1'.
  - intros y (rest' & Heq & Hy)%moved_elem.
    apply app_inv_head in Heq as <-. congruence.
  - apply moved_elem. eauto.
Qed.

(** Nothing is left at or below the source. *)
Lemma move_tree_gone (s d : list pstr) (f : fs) (k : list pstr) :
  s `prefix_of` k -> ~ d `prefix_of` k -> move_tree s d f !! k = None.
Proof.
  intros Hs Hd. unfold move_tree. apply lookup_union_None. split.
  - apply not_elem_of_list_to_map_1.
    intros ([k' n] & -> & (rest & Hk & _)%moved_elem)%list_elem_of_fmap.
    simpl in Hd. apply Hd. rewrite Hk. by apply prefix_app_r.
  - apply map_lookup_filter_None. right. intros x _ Hx. by apply Hx.
Qed.

(** The other places are as they were. *)
Lemma move_tree_frame (s d : list pstr) (f : fs) (k : list pstr) :
  ~ s `prefix_of` k -> ~ d `prefix_of` k -> move_tree s d f !! k = f !! k.
Proof.
  intros Hs Hd. unfold move_tree. rewrite lookup_union_r.
  - destruct (f !! k) as [x|] eqn:E.
    + by apply map_lookup_filter_Some.
    + apply map_lookup_filter_None. by left.
  - apply not_elem_of_list_to_map_1.
    intros ([k' n] & -> & (rest & Hk & _)%moved_elem)%list_elem_of_fmap.
    simpl in Hd. apply Hd. rewrite Hk. by apply prefix_app_r.
Qed.

(** When [os.rename] moves. *)
Lemma rename_ok (w : World) (o : OS) (src dst : pstr) (n : node) :
  src ≠ [] -> dst ≠ [] ->
  refusal src = None -> refusal dst = None ->
  movable src = true -> movable dst = true ->
  files o !! locate w src = Some n ->
  ~ locate w src `prefix_of` locate w dst ->
  files o !! parent (locate w dst) = Some Dir ->
  files o !! locate w dst = None ->
  rename w o src dst
  = (Ok tt, {| files := move_tree (locate w src) (locate w dst) (files o);
               launched := launched o |}).
Proof.
  intros Hs Hd Hrs Hrd Hms Hmd Hn Hsd Hp Hnone. unfold rename.
  rewrite Hrs, Hrd, Hms, Hmd, (lookup_accepted w o src Hs Hrs), Hn.
  destruct dst as [|y dst]; [done|]. simpl negb. cbv iota.
  rewrite decide_False by (intros E; apply Hsd; by rewrite E).
  rewrite decide_False by done.
  rewrite Hp, Hnone. by destruct n.
Qed.

End renaming.

(** X15: [rename_file] moves a file or a whole directory: for paths
    that are not empty, an old path that exists and ends in a plain
    name, and a new path the guard resolves to a reachable place of good
    names where nothing exists, neither place lying below the other, the
    call succeeds; what was at or below the old place is then at the same
    relative place at or below the new one, nothing is left at or below
    the old place, the directories on the way to the new place exist, no
    other place changes and no process is launched; repeating the call
    fails with the error for a missing file and changes nothing. *)
Theorem rename_file_moves (w : World) (self : FileService.t) (o : OS)
        (old_path new_path old_full new_full : pstr) :
  old_path ≠ [] ->
  new_path ≠ [] ->
  FileService._get_full_path self old_path = Ok old_full ->
  FileService._get_full_path self new_path = Ok new_full ->
  os.exists_ w o old_full = true ->
  plain_name (posixpath.split old_full).2 = true ->
  os.exists_ w o new_full = false ->
  well_named w new_full = true ->
  reachable w o new_full = true ->
  ~ os.locate w old_full `prefix_of` os.locate w new_full ->
  ~ os.locate w new_full `prefix_of` os.locate w old_full ->
  let s := os.locate w old_full in
  let d := os.locate w new_full in
  exists o1,
    FileService.rename_file w self o old_path new_path = (Ok tt, o1)
    /\ (forall rest n, files o !! (s ++ rest) = Some n ->
                       files o1 !! (d ++ rest) = Some n)
    /\ (forall k, s `prefix_of` k -> files o1 !! k = None)
    /\ (forall k, k `prefix_of` os.parent d -> files o1 !! k = Some Dir)
    /\ (forall k, ~ s `prefix_of` k -> ~ d `prefix_of` k ->
                  ~ k `prefix_of` os.parent d ->
                  files o1 !! k = files o !! k)
    /\ launched o1 = launched o
    /\ FileService.rename_file w self o1 old_path new_path
       = (Raise (FileService.not_found old_path), o1).
Proof.
  intros _ _ Hold Hnew Hex Hplain Hnex Hnamed Hreach Hsd Hds s d.
  destruct (makedirs_reachable w o new_full Hreach Hnamed)
    as (f' & Hm & Hne & Hlast & Hparent & Hdirs & Hsame & _).
  destruct (well_named_inv w new_full Hnamed) as (_ & _ & Href & _).
  fold d in Hlast, Hparent, Hdirs, Hsame.
  destruct (exists_true_inv w o old_full Hex)
    as (Hone & Hrefo & n & _ & Hn).
  fold s in Hn.
  pose proof (exists_false_inv w o new_full Hne Href Hnex) as Hnone.
  fold d in Hnone.
  assert (Hd : exists c, d = os.parent d ++ [c]).
  { destruct d as [|c0 d0 _] using rev_ind; [done|].
    exists c0. by rewrite parent_snoc. }
  destruct Hd as [c Hd].
  assert (Hup : forall k, k `prefix_of` os.parent d -> k `prefix_of` d).
  { intros k Hk. rewrite Hd. by apply prefix_app_r. }
  assert (Hframe : forall k, ~ k `prefix_of` os.parent d ->
                             f' !! k = files o !! k).
  { intros k Hk.
    destruct (makedirs_frame w o (posixpath.dirname new_full) k) as [Hf _].
    - by rewrite <- Hparent.
    - by rewrite Hm in Hf. }
  assert (Hbelow : forall rest, ~ s ++ rest `prefix_of` os.parent d).
  { intros rest Hk. apply Hsd, Hup. by eapply prefix_app_l. }
  assert (Hmov : os.movable new_full = true).
  { apply plain_movable. unfold reachable in Hreach.
    rewrite !andb_true_iff in Hreach. tauto. }
  assert (Hr : os.rename w {| files := f'; launched := launched o |}
                         old_full new_full
               = (Ok tt, {| files := os.move_tree s d f';
                            launched := launched o |})).
  { apply (rename_ok w {| files := f'; launched := launched o |}
                     old_full new_full n); try done; cbn [files].
    - by apply plain_movable.
    - fold s. rewrite (Hframe s); [done|].
      rewrite <- (app_nil_r s). apply Hbelow.
    - by apply Hdirs.
    - fold d. by rewrite Hsame. }
  eexists. split.
  { unfold FileService.rename_file. rewrite Hold, Hnew, Hex, Hnex. simpl.
    rewrite Hm. exact Hr. }
  cbn [files launched].
  assert (Hgone : forall k, s `prefix_of` k ->
                            os.move_tree s d f' !! k = None).
  { intros k Hk. apply move_tree_gone; [done|]. intros Hdk.
    destruct (prefix_weak_total _ _ _ Hk Hdk); done. }
  split; [|split; [done|split; [|split; [|split; [done|]]]]].
  - intros rest n' Hn'. apply move_tree_moved.
    rewrite Hframe; [done|apply Hbelow].
  - intros k Hk. rewrite move_tree_frame; [by apply Hdirs| |].
    + intros Hsk. apply Hsd, Hup. by etrans.
    + intros Hdk. apply (prefix_snoc_not (os.parent d) c).
      rewrite <- Hd. by etrans.
  - intros k H1 H2 H3. rewrite move_tree_frame by done. by apply Hframe.
  - assert (Hex1 : os.exists_ w {| files := os.move_tree s d f';
                                   launched := launched o |} old_full
                   = false).
    { unfold os.exists_. rewrite lookup_accepted by done. cbn [files].
      pose proof (Hgone s (reflexivity _)) as Hg.
      fold s. by rewrite Hg. }
    unfold FileService.rename_file. by rewrite Hold, Hnew, Hex1.
Qed.

Lemma rename_file_moves_witness :
  let s := os.locate bare_host (py "/ws/src") in
  let d := os.locate bare_host (py "/ws/lib/code") in
  exists o1,
    FileService.rename_file bare_host ws_files src_os (py "src")
                            (py "lib/code") = (Ok tt, o1)
    /\ (forall rest n, files src_os !! (s ++ rest) = Some n ->
                       files o1 !! (d ++ rest) = Some n)
    /\ (forall k, s `prefix_of` k -> files o1 !! k = None)
    /\ (forall k, k `prefix_of` os.parent d -> files o1 !! k = Some Dir)
    /\ (forall k, ~ s `prefix_of` k -> ~ d `prefix_of` k ->
                  ~ k `prefix_of` os.parent d ->
                  files o1 !! k = files src_os !! k)
    /\ launched o1 = launched src_os
    /\ FileService.rename_file bare_host ws_files o1 (py "src")
                               (py "lib/code")
       = (Raise (FileService.not_found (py "src")), o1).
Proof.
  apply (rename_file_moves bare_host ws_files src_os (py "src")
           (py "lib/code") (py "/ws/src") (py "/ws/lib/code"));
    try reflexivity; try discriminate;
    intros [t Ht]; vm_compute in Ht; discriminate.
Defined.

(** ** Absolute paths *)

(** X16: when the workspace directory is a relative path that is not
    empty, as it is in the editor, the guard refuses every absolute path,
    so reading, writing, creating and deleting by an absolute path all
    fail with the error for a path outside the workspace and change
    nothing. *)
Theorem absolute_paths_refused (w : World) (self : FileService.t) (o : OS)
        (p text : pstr) :
  FileService.workspace_dir self ≠ [] ->
  posixpath.isabs (FileService.workspace_dir self) = false ->
  posixpath.isabs p = true ->
  FileService._get_full_path self p = Raise FileService.path_outside
  /\ FileService.read_file w self o p = Raise FileService.path_outside
  /\ FileService.write_file w self o p text
     = (Raise FileService.path_outside, o)
  /\ FileService.create_file w self o p = (Raise FileService.path_outside, o)
  /\ FileService.create_directory w self o p
     = (Raise FileService.path_outside, o)
  /\ FileService.delete_file w self o p = (Raise FileService.path_outside, o).
Proof.
  intros Hroot Hrel Habs.
  assert (H : FileService._get_full_path self p
              = Raise FileService.path_outside).
  { apply get_full_path_rejected; [by destruct p|].
    unfold posixpath.join. unfold posixpath.isabs in Habs. rewrite Habs.
    pose proof (normpath_isabs p Habs) as Hn.
    unfold posixpath.isabs in *.
    destruct (FileService.workspace_dir self) as [|c root]; [done|].
    destruct (posixpath.normpath p) as [|d rest]; [done|].
    simpl in *. rewrite andb_true_r in *.
    apply N.eqb_eq in Hn as ->. by rewrite N.eqb_sym, Hrel. }
  unfold FileService.read_file, FileService.write_file,
    FileService.create_file, FileService.create_directory,
    FileService.delete_file.
  by rewrite H.
Qed.

Lemma absolute_paths_refused_witness :
  FileService._get_full_path app_files (py "/home/u/workspace/a.py")
  = Raise FileService.path_outside
  /\ FileService.read_file bare_host app_files src_os
                           (py "/home/u/workspace/a.py")
     = Raise FileService.path_outside
  /\ FileService.write_file bare_host app_files src_os
                            (py "/home/u/workspace/a.py") (py "x")
     = (Raise FileService.path_outside, src_os)
  /\ FileService.create_file bare_host app_files src_os
                             (py "/home/u/workspace/a.py")
     = (Raise FileService.path_outside, src_os)
  /\ FileService.create_directory bare_host app_files src_os
                                  (py "/home/u/workspace/a.py")
     = (Raise FileService.path_outside, src_os)
  /\ FileService.delete_file bare_host app_files src_os
                             (py "/home/u/workspace/a.py")
     = (Raise FileService.path_outside, src_os).
Proof.
  apply (absolute_paths_refused bare_host app_files src_os
           (py "/home/u/workspace/a.py") (py "x")); try reflexivity.
  discriminate.
Defined.

(** ** Extensions *)

Section extensions.
Import posixpath.

Lemma after_last_free (c : N) (a b : pstr) :
  forallb (fun x => negb (x =? c)) b = true ->
  after_last c (a ++ b) = after_last c a.
Proof.
  intros Hb. induction a as [|x a IH]; simpl.
  - induction b as [|y b IHb]; simpl; [done|].
    simpl in Hb. apply andb_true_iff in Hb as [Hy Hb].
    rewrite (IHb Hb). simpl. apply negb_true_iff in Hy. by rewrite Hy.
  - by rewrite IH.
Qed.

Lemma after_last_here (c : N) (a b : pstr) :
  forallb (fun x => negb (x =? c)) b = true ->
  after_last c (a ++ c :: b) = S (length a).
Proof.
  intros Hb. induction a as [|x a IH]; simpl.
  - pose proof (after_last_free c [] b Hb) as E. simpl in E. rewrite E.
    simpl. by rewrite N.eqb_refl.
  - by rewrite IH.
Qed.

Lemma after_last_le (c : N) (s : pstr) : (after_last c s <= length s)%nat.
Proof.
  induction s as [|x s IH]; simpl; [done|].
  destruct (after_last c s =? 0)%nat; [destruct (x =? c); lia|lia].
Qed.


Lemma after_last_sep_dir (d name : pstr) :
  dir_part d ->
  forallb (fun x => negb (x =? sep)) name = true ->
  after_last sep (d ++ name) = length d.
Proof.
  intros [-> | [d' ->]] Hname.
  - apply (after_last_free sep [] name Hname).
  - rewrite <- app_assoc. simpl. rewrite after_last_here by done.
    rewrite length_app. simpl. lia.
Qed.

Lemma after_last_dot_dir (d : pstr) :
  dir_part d -> (after_last 46 d <= length d)%nat
                /\ (d ≠ [] -> after_last 46 d < length d)%nat.
Proof.
  intros [-> | [d' ->]]; [done|]. split; [apply after_last_le|]. intros _.
  rewrite (after_last_free 46 d' [sep]) by done.
  pose proof (after_last_le 46 d'). rewrite length_app. simpl. lia.
Qed.

(** The extension of [d/stem.e]. *)
Lemma splitext_ext (d stem e : pstr) :
  dir_part d ->
  forallb (fun x => negb (x =? sep)) stem = true ->
  existsb (fun x => negb (x =? 46)) stem = true ->
  forallb (fun x => negb (x =? sep)) e = true ->
  forallb (fun x => negb (x =? 46)) e = true ->
  splitext (d ++ stem ++ 46 :: e) = (d ++ stem, 46 :: e).
Proof.
  intros Hd Hstem Hnd Hes Hed. unfold splitext, rfind.
  assert (Hsep : after_last sep (d ++ stem ++ 46 :: e) = length d).
  { apply after_last_sep_dir; [done|]. rewrite forallb_app. simpl.
    by rewrite Hstem, Hes. }
  assert (Hdot : after_last 46 (d ++ stem ++ 46 :: e)
                 = S (length d + length stem)).
  { rewrite app_assoc, after_last_here by done. by rewrite length_app. }
  rewrite Hsep, Hdot.
  destruct (Z.ltb_spec (Z.of_nat (length d) - 1)
                       (Z.of_nat (S (length d + length stem)) - 1)); [|lia].
  replace (Z.to_nat (Z.of_nat (length d) - 1 + 1)) with (length d) by lia.
  replace (Z.to_nat (Z.of_nat (S (length d + length stem)) - 1
                     - (Z.of_nat (length d) - 1 + 1)))
    with (length stem) by lia.
  replace (Z.to_nat (Z.of_nat (S (length d + length stem)) - 1))
    with (length (d ++ stem)) by (rewrite length_app; lia).
  rewrite drop_app_length, take_app_length, Hnd.
  rewrite app_assoc. by rewrite take_app_length, drop_app_length.
Qed.

(** A name made of leading dots and a part without dots has no
    extension. *)
Lemma splitext_none (d rest : pstr) (k : nat) :
  dir_part d ->
  forallb (fun x => negb (x =? sep)) rest = true ->
  forallb (fun x => negb (x =? 46)) rest = true ->
  splitext (d ++ repeat 46 k ++ rest) = (d ++ repeat 46 k ++ rest, []).
Proof.
  intros Hd Hrs Hrd. unfold splitext, rfind.
  assert (Hsep : after_last sep (d ++ repeat 46 k ++ rest) = length d).
  { apply after_last_sep_dir; [done|]. rewrite forallb_app, Hrs, andb_true_r.
    clear. induction k; simpl; [done|]. done. }
  rewrite Hsep. destruct k as [|k].
  - simpl. rewrite after_last_free by done.
    destruct (after_last_dot_dir d Hd) as [Hle _].
    by destruct (Z.ltb_spec (Z.of_nat (length d) - 1)
                            (Z.of_nat (after_last 46 d) - 1)); [lia|].
  - assert (Hdot : after_last 46 (d ++ repeat 46 (S k) ++ rest)
                   = S (length d + k)).
    { replace (repeat 46 (S k)) with (repeat 46 k ++ [46])
        by (by rewrite <- repeat_cons).
      rewrite <- app_assoc. simpl. rewrite app_assoc.
      rewrite after_last_here by done.
      by rewrite length_app, repeat_length. }
    rewrite Hdot.
    destruct (Z.ltb_spec (Z.of_nat (length d) - 1)
                         (Z.of_nat (S (length d + k)) - 1)); [|done].
    replace (Z.to_nat (Z.of_nat (length d) - 1 + 1)) with (length d) by lia.
    replace (Z.to_nat (Z.of_nat (S (length d + k)) - 1
                       - (Z.of_nat (length d) - 1 + 1)))
      with k by lia.
    rewrite drop_app_length.
    replace (repeat 46 (S k)) with (repeat 46 k ++ [46])
      by (by rewrite <- repeat_cons).
    rewrite <- app_assoc.
    rewrite (take_app_length' (repeat 46 k)) by (by rewrite repeat_length).
    assert (existsb (fun x => negb (x =? 46)) (repeat 46 k) = false) as ->;
      [|done].
    clear. induction k; simpl; done.
Qed.

(** [splitext] cuts its argument in two. *)
Lemma splitext_app (p : pstr) : (splitext p).1 ++ (splitext p).2 = p.
Proof.
  unfold splitext. repeat case_match; simpl;
    by rewrite ?take_drop, ?app_nil_r.
Qed.

Lemma lower_ascii_plain (c x : N) :
  (x =? 46) = true \/ (x =? sep) = true ->
  (lower_ascii c =? x) = (c =? x).
Proof.
  unfold lower_ascii.
  intros [->%N.eqb_eq | ->%N.eqb_eq];
    destruct (N.leb_spec 65 c), (N.leb_spec c 90); simpl; try done;
    destruct (N.eqb_spec c 46), (N.eqb_spec c sep),
      (N.eqb_spec (c + 32) 46), (N.eqb_spec (c + 32) sep);
    try done; unfold sep in *; lia.
Qed.

Lemma forallb_lower (x : N) (s : pstr) :
  (x =? 46) = true \/ (x =? sep) = true ->
  forallb (fun c => negb (c =? x)) (map lower_ascii s)
  = forallb (fun c => negb (c =? x)) s.
Proof.
  intros Hx. induction s as [|c s IH]; simpl; [done|].
  by rewrite IH, lower_ascii_plain.
Qed.

Lemma existsb_lower (s : pstr) :
  existsb (fun c => negb (c =? 46)) (map lower_ascii s)
  = existsb (fun c => negb (c =? 46)) s.
Proof.
  induction s as [|c s IH]; simpl; [done|].
  rewrite IH, lower_ascii_plain; [done|by left].
Qed.

Lemma dir_part_lower (d : pstr) : dir_part d -> dir_part (map lower_ascii d).
Proof.
  intros [-> | [d' ->]]; [by left|]. right. exists (map lower_ascii d').
  by rewrite map_app.
Qed.

End extensions.

(** X17: for an ASCII path [d/stem.e], where [stem] holds a character
    other than a dot and [e] holds neither dot nor slash, the language is
    what the table gives for the lower-cased extension, and [plaintext]
    when the table does not hold it; directories and upper case do not
    matter. *)
Theorem detect_language_by_extension (lower : pstr -> pstr)
        (self : FileService.t) (d stem e : pstr) :
  (forall s, is_ascii s = true -> lower s = map lower_ascii s) ->
  is_ascii (d ++ stem ++ 46 :: e) = true ->
  dir_part d ->
  forallb (fun x => negb (x =? posixpath.sep)) stem = true ->
  existsb (fun x => negb (x =? 46)) stem = true ->
  forallb (fun x => negb (x =? posixpath.sep)) e = true ->
  forallb (fun x => negb (x =? 46)) e = true ->
  FileService.detect_language lower self (d ++ stem ++ 46 :: e)
  = default (py "plaintext")
            (FileService.dict_get FileService.language_map
                                  (46 :: map lower_ascii e)).
Proof.
  intros Hlower Hascii Hd Hstem Hnd Hes Hed.
  unfold FileService.detect_language. rewrite (Hlower _ Hascii).
  rewrite !map_app. simpl map.
  change (lower_ascii 46) with 46.
  rewrite splitext_ext; [done|by apply dir_part_lower|..].
  - rewrite forallb_lower; [done|by right].
  - by rewrite existsb_lower.
  - rewrite forallb_lower; [done|by right].
  - rewrite forallb_lower; [done|by left].
Qed.

Lemma detect_language_by_extension_witness :
  FileService.detect_language (map lower_ascii) ws_files
                              (py "src/v1.2/" ++ py "Main" ++ 46 :: py "PY")
  = default (py "plaintext")
            (FileService.dict_get FileService.language_map
                                  (46 :: map lower_ascii (py "PY"))).
Proof.
  apply (detect_language_by_extension (map lower_ascii) ws_files
           (py "src/v1.2/") (py "Main") (py "PY")); try reflexivity.
  right. by exists (py "src/v1.2").
Defined.

(** X18: for an ASCII path, a name that has no dot after its leading
    dots has no extension, so a path to such a name ([Makefile],
    [.gitignore], a name below a directory with a dot) is [plaintext]. *)
Theorem no_extension_is_plaintext (lower : pstr -> pstr)
        (self : FileService.t) (d rest : pstr) (k : nat) :
  (forall s, is_ascii s = true -> lower s = map lower_ascii s) ->
  is_ascii (d ++ repeat 46 k ++ rest) = true ->
  dir_part d ->
  forallb (fun x => negb (x =? posixpath.sep)) rest = true ->
  forallb (fun x => negb (x =? 46)) rest = true ->
  FileService.detect_language lower self (d ++ repeat 46 k ++ rest)
  = py "plaintext".
Proof.
  intros Hlower Hascii Hd Hrs Hrd.
  unfold FileService.detect_language. rewrite (Hlower _ Hascii).
  rewrite !map_app.
  assert (map lower_ascii (repeat 46 k) = repeat 46 k) as ->.
  { clear. induction k; simpl; [done|]. by rewrite IHk. }
  rewrite splitext_none; [done|by apply dir_part_lower|..].
  - rewrite forallb_lower; [done|by right].
  - rewrite forallb_lower; [done|by left].
Qed.

Lemma no_extension_is_plaintext_witness :
  FileService.detect_language (map lower_ascii) ws_files
                              (py "app.py/" ++ repeat 46 1 ++ py "gitignore")
  = py "plaintext".
Proof.
  apply (no_extension_is_plaintext (map lower_ascii) ws_files
           (py "app.py/") (py "gitignore") 1); try reflexivity.
  right. by exists (py "app.py").
Defined.

Section test_file_path.
Import posixpath.

Lemma after_last_sep_eq (s : pstr) : after_last_sep s = after_last sep s.
Proof. induction s as [|x s IH]; simpl; [done|]. by rewrite IH. Qed.

Lemma lstrip_sep_nil (s : pstr) :
  lstrip_sep s = [] -> forallb (fun c => c =? sep) s = true.
Proof.
  induction s as [|x s IH]; simpl; [done|].
  destruct (x =? sep); [done|discriminate].
Qed.

Lemma lstrip_sep_head (s r : pstr) (x : N) :
  lstrip_sep s = x :: r -> (x =? sep) = false.
Proof.
  induction s as [|y s IH]; simpl; [done|].
  destruct (y =? sep) eqn:E; [done|]. by intros [= <- _].
Qed.

Lemma forallb_rev_sep (s : pstr) :
  forallb (fun c => c =? sep) (rev s) = forallb (fun c => c =? sep) s.
Proof.
  induction s as [|x s IH]; simpl; [done|].
  rewrite forallb_app, IH. simpl. rewrite andb_true_r. apply andb_comm.
Qed.

(** The head [split] returns is made of slashes or does not end with
    one. *)
Lemma split_head_shape (p : pstr) :
  forallb (fun c => c =? sep) (split p).1 = true
  \/ exists h x, (split p).1 = h ++ [x] /\ (x =? sep) = false.
Proof.
  unfold split. simpl.
  destruct (forallb _ (take (after_last_sep p) p)) eqn:E; [by left|].
  right. rewrite <- forallb_rev_sep in E.
  destruct (lstrip_sep (rev (take (after_last_sep p) p))) as [|x r] eqn:El.
  - apply lstrip_sep_nil in El. congruence.
  - exists (rev r), x. split; [done|]. by eapply lstrip_sep_head.
Qed.

(** The tail [split] returns holds no slash. *)
Lemma split_tail_free (p : pstr) :
  forallb (fun c => negb (c =? sep)) (split p).2 = true.
Proof.
  unfold split. simpl.
  destruct (last_sep_decomp p) as [[-> Hp]|(a & b & -> & Hb & ->)].
  - by rewrite drop_0.
  - replace (a ++ sep :: b) with ((a ++ [sep]) ++ b)
      by (by rewrite <- app_assoc).
    rewrite drop_app_length'; [done|]. rewrite length_app. simpl. lia.
Qed.

(** Joining a head of that shape and a name gives a path that [split]
    cuts back into the two. *)
Lemma split_join (h f : pstr) :
  (forallb (fun c => c =? sep) h = true
   \/ exists h' x, h = h' ++ [x] /\ (x =? sep) = false) ->
  forallb (fun c => negb (c =? sep)) f = true ->
  f ≠ [] ->
  split (join h f) = (h, f).
Proof.
  intros Hh Hf Hne.
  assert (Hstart : startswith f [sep] = false).
  { destruct f as [|y f]; [done|]. simpl in *.
    apply andb_true_iff in Hf as [Hy _]. apply negb_true_iff in Hy.
    by rewrite Hy. }
  unfold join. rewrite Hstart.
  destruct h as [|c h0] using rev_ind.
  - simpl. unfold split. rewrite after_last_sep_eq.
    pose proof (after_last_free sep [] f Hf) as E. simpl in E. rewrite E.
    by rewrite take_0, drop_0.
  - clear IHh0.
    assert (Hend : endswith (h0 ++ [c]) [sep] = (c =? sep)).
    { unfold endswith. rewrite rev_app_distr. simpl. by rewrite andb_true_r. }
    rewrite Hend.
    assert (Hnil : match h0 ++ [c] with [] => true | _ => false end = false)
      by (by destruct h0).
    rewrite Hnil. simpl orb.
    destruct (c =? sep) eqn:Hc.
    + (* the head ends with a slash: it is made of slashes *)
      destruct Hh as [Hall | (h' & x & Heq & Hx)].
      2: { apply app_inj_tail in Heq as [_ <-]. congruence. }
      apply N.eqb_eq in Hc as ->.
      unfold split. rewrite after_last_sep_eq.
      rewrite <- app_assoc. simpl app.
      rewrite after_last_here by done.
      replace (h0 ++ sep :: f) with ((h0 ++ [sep]) ++ f)
        by (by rewrite <- app_assoc).
      rewrite take_app_length', drop_app_length'
        by (rewrite length_app; simpl; lia).
      by rewrite Hall.
    + (* the head ends with another character *)
      unfold split. rewrite after_last_sep_eq.
      rewrite after_last_here by done.
      replace ((h0 ++ [c]) ++ sep :: f) with (((h0 ++ [c]) ++ [sep]) ++ f)
        by (by rewrite <- !app_assoc).
      rewrite take_app_length', drop_app_length'
        by (rewrite !length_app; simpl; lia).
      assert (Hnot : forallb (fun c0 => c0 =? sep) ((h0 ++ [c]) ++ [sep])
                     = false).
      { rewrite !forallb_app. simpl. rewrite Hc.
        by rewrite andb_false_r. }
      rewrite Hnot. rewrite !rev_app_distr. simpl. rewrite Hc. simpl.
      by rewrite rev_involutive.
Qed.

End test_file_path.

(** X19: the test file the editor writes for a file lies in the same
    directory and is named after it: [split] cuts the path that
    [get_test_file_path] returns into the directory of the file and its
    name behind the prefix [test_], for every path. *)
Theorem test_file_is_a_sibling (file_path : pstr) :
  posixpath.split (app.get_test_file_path file_path)
  = ((posixpath.split file_path).1, py "test_" ++ (posixpath.split file_path).2).
Proof.
  unfold app.get_test_file_path.
  destruct (posixpath.split file_path) as [directory filename] eqn:Hs.
  pose proof (split_head_shape file_path) as Hh.
  pose proof (split_tail_free file_path) as Ht.
  rewrite Hs in Hh, Ht. simpl in Hh, Ht.
  pose proof (splitext_app filename) as Hext.
  destruct (posixpath.splitext filename) as [name ext].
  cbn [fst snd] in *. rewrite Hext.
  apply split_join; [done| |done].
  rewrite forallb_app. by rewrite Ht.
Qed.

(** ** The git commands of [GitService] *)


Section git_calls.
Context (w : World) (self : GitService.t).

Lemma run_git_launched (o : OS) (command : list pstr) :
  launched (GitService._run_git_command w self o command).2
  = launched o ++ [git_call self command].
Proof.
  unfold GitService._run_git_command, os.subprocess_run. simpl.
  by destruct (launch w _ _ _ _).
Qed.

Lemma is_git_repo_launched (o : OS) :
  launched (GitService.is_git_repo w self o).2
  = launched o ++ [git_call self [py "status"]].
Proof.
  unfold GitService.is_git_repo.
  pose proof (run_git_launched o [py "status"]) as H.
  by destruct (GitService._run_git_command w self o _) as [[r|e] o1].
Qed.

Lemma git_calls_refl (o : OS) : git_calls self 0 o o.
Proof. exists []. by rewrite app_nil_r. Qed.

Lemma git_calls_le (n m : nat) (o o' : OS) :
  (n <= m)%nat -> git_calls self n o o' -> git_calls self m o o'.
Proof. intros Hle (l & ? & ? & ?). exists l. repeat split; [done|lia|done]. Qed.

Lemma git_calls_run (n : nat) (o o1 o2 : OS) (command : list pstr)
      (r : res CompletedProcess) :
  GitService._run_git_command w self o1 command = (r, o2) ->
  git_calls self n o o1 -> git_calls self (S n) o o2.
Proof.
  intros Hrun (l & Hl & Hn & Hall).
  pose proof (run_git_launched o1 command) as H. rewrite Hrun in H. simpl in H.
  exists (l ++ [git_call self command]). repeat split.
  - by rewrite H, Hl, app_assoc.
  - rewrite length_app. simpl. lia.
  - apply Forall_app. split; [done|]. apply Forall_singleton. by eexists.
Qed.

Lemma git_calls_is_repo (n : nat) (o o1 o2 : OS) (b : bool) :
  GitService.is_git_repo w self o1 = (b, o2) ->
  git_calls self n o o1 -> git_calls self (S n) o o2.
Proof.
  unfold GitService.is_git_repo. intros H Hc.
  destruct (GitService._run_git_command w self o1 _) as [[r|e] o'] eqn:E;
    simplify_eq; by eapply git_calls_run.
Qed.

Lemma git_calls_add_each (files : list pstr) (n : nat) (o o1 : OS) :
  git_calls self n o o1 ->
  git_calls self (n + length files) o (GitService.add_each w self o1 files).2.
Proof.
  revert n o1. induction files as [|f files IH]; intros n o1 Hc; simpl.
  - by rewrite Nat.add_0_r.
  - destruct (GitService._run_git_command w self o1 _) as [[r|e] o2] eqn:E.
    + pose proof (git_calls_run _ _ _ _ _ _ E Hc) as Hc'.
      case_bool_decide.
      * replace (n + S (length files))%nat with (S n + length files)%nat
          by lia.
        by apply IH.
      * simpl. eapply git_calls_le; [|done]. lia.
    + simpl. eapply git_calls_le; [|by eapply git_calls_run]. lia.
Qed.

Lemma git_calls_add_files (files : list pstr) (n : nat) (o o1 : OS) :
  git_calls self n o o1 ->
  git_calls self (S n + length files) o
            (GitService.add_files w self o1 files).2.
Proof.
  intros Hc. unfold GitService.add_files.
  destruct (GitService.is_git_repo w self o1) as [b o2] eqn:E.
  pose proof (git_calls_is_repo _ _ _ _ _ E Hc) as Hc'.
  destruct b; simpl negb; cbv iota.
  - by apply (git_calls_add_each files (S n)).
  - simpl. eapply git_calls_le; [|done]. lia.
Qed.

Lemma git_calls_branch (branch : option pstr) (n : nat) (o o1 : OS) :
  git_calls self n o o1 ->
  git_calls self (S n) o (GitService.branch_to_use w self o1 branch).2.
Proof.
  intros Hc. unfold GitService.branch_to_use.
  destruct branch as [[|c b]|];
    try (simpl; eapply git_calls_le; [|done]; lia).
  all: destruct (GitService._run_git_command w self o1 _) as [[r|e] o2] eqn:E;
    simpl; by eapply git_calls_run.
Qed.

End git_calls.

(** X20: whatever the host answers, an operation of the git service
    starts nothing but [git] in the workspace directory, and a bounded
    number of times: one process for [is_git_repo] and [init_repo], at
    most four for [get_status] and [push_changes], two for [get_diff],
    three for [pull_changes], one and one for each file for [add_files],
    three and one for each file for [commit_changes]. *)
Theorem git_service_launches_git (w : World) (self : GitService.t) (o : OS) :
  git_calls self 1 o (GitService.is_git_repo w self o).2
  /\ git_calls self 1 o (GitService.init_repo w self o).2
  /\ git_calls self 4 o (GitService.get_status w self o).2
  /\ (forall file_path,
         git_calls self 2 o (GitService.get_diff w self o file_path).2)
  /\ (forall files,
         git_calls self (1 + length files) o
                   (GitService.add_files w self o files).2)
  /\ (forall message files,
         git_calls self (3 + length (default [] files)) o
                   (GitService.commit_changes w self o message files).2)
  /\ (forall remote branch,
         git_calls self 4 o
                   (GitService.push_changes w self o remote branch).2)
  /\ (forall remote branch,
         git_calls self 3 o
                   (GitService.pull_changes w self o remote branch).2).
Proof.
  pose proof (git_calls_refl self o) as H0.
  assert (Hinit : forall n o1, git_calls self n o o1 ->
            git_calls self (S n) o (GitService.init_repo w self o1).2).
  { intros n o1 Hc. unfold GitService.init_repo.
    destruct (GitService._run_git_command w self o1 _) as [[r|e] o2] eqn:E;
      [case_bool_decide|]; simpl; by eapply git_calls_run. }
  repeat split.
  - destruct (GitService.is_git_repo w self o) as [b o1] eqn:E.
    by eapply git_calls_is_repo.
  - by apply Hinit.
  - unfold GitService.get_status.
    destruct (GitService.is_git_repo w self o) as [b o1] eqn:E.
    eapply git_calls_is_repo in E; [|exact H0].
    assert (Hc2 : git_calls self 2 o
              (if b then (Ok tt, o1) else GitService.init_repo w self o1).2).
    { destruct b; [eapply git_calls_le; [|done]; lia|by apply Hinit]. }
    destruct (if b then _ else _) as [[[]|e] o2]; simpl in Hc2;
      [|eapply git_calls_le; [|done]; lia].
    destruct (GitService._run_git_command w self o2 _) as [[r3|e] o3] eqn:E3;
      [|simpl; eapply git_calls_le; [|by eapply git_calls_run]; lia].
    pose proof (git_calls_run _ _ _ _ _ _ _ _ E3 Hc2) as Hc3.
    destruct (GitService._run_git_command w self o3 _) as [[r4|e] o4] eqn:E4;
      simpl; by eapply git_calls_run.
  - intros fp. unfold GitService.get_diff.
    destruct (GitService.is_git_repo w self o) as [b o1] eqn:E.
    eapply git_calls_is_repo in E; [|exact H0]. destruct b; simpl;
      [|eapply git_calls_le; [|done]; lia].
    destruct (GitService._run_git_command w self o1 _) as [[r|e] o2] eqn:E2;
      simpl; by eapply git_calls_run.
  - intros files. by apply git_calls_add_files.
  - intros message files. unfold GitService.commit_changes.
    destruct (GitService.is_git_repo w self o) as [b o1] eqn:E.
    eapply git_calls_is_repo in E; [|exact H0]. destruct b; simpl negb; cbv iota;
      [|simpl; eapply git_calls_le; [|done]; lia].
    assert (Hc2 : git_calls self (2 + length (default [] files)) o
     (match files with
      | Some (f :: fs) => GitService.add_files w self o1 (f :: fs)
      | _ =>
          match GitService._run_git_command w self o1 [py "add"; py "-A"] with
          | (Ok result, o2) =>
              if bool_decide (returncode result = 0%Z) then (Ok tt, o2)
              else (Raise (Exc RuntimeError
                               (py "Failed to add files: "
                                ++ stderr result)), o2)
          | (Raise e, o2) => (Raise e, o2)
          end
      end).2).
    { destruct files as [[|f fs]|].
      2: by apply git_calls_add_files.
      all: destruct (GitService._run_git_command w self o1 _)
          as [[r|e] o2] eqn:E2; [case_bool_decide|]; simpl;
        (eapply git_calls_le; [|by eapply git_calls_run]); lia. }
    destruct (match files with Some (f :: fs) => _ | _ => _ end)
      as [[[]|e] o2]; simpl in Hc2;
      [|simpl; eapply git_calls_le; [|done]; lia].
    destruct (GitService._run_git_command w self o2 _) as [[r|e] o3] eqn:E3;
      [case_bool_decide; [|case_match]|]; simpl; by eapply git_calls_run.
  - intros remote branch. unfold GitService.push_changes.
    destruct (GitService.is_git_repo w self o) as [b o1] eqn:E.
    eapply git_calls_is_repo in E; [|exact H0]. destruct b; simpl negb; cbv iota;
      [|simpl; eapply git_calls_le; [|done]; lia].
    pose proof (git_calls_branch w self branch _ _ _ E) as Hb.
    destruct (GitService.branch_to_use w self o1 branch) as [[b|e] o2];
      simpl in Hb; [|simpl; eapply git_calls_le; [|done]; lia].
    destruct (GitService._run_git_command w self o2 _) as [[r|e] o3] eqn:E3;
      [|simpl; eapply git_calls_le; [|by eapply git_calls_run]; lia].
    pose proof (git_calls_run _ _ _ _ _ _ _ _ E3 Hb) as Hc3.
    case_bool_decide; [simpl; eapply git_calls_le; [|done]; lia|].
    destruct (GitService._run_git_command w self o3 _) as [[r4|e] o4] eqn:E4;
      [case_bool_decide|]; simpl; by eapply git_calls_run.
  - intros remote branch. unfold GitService.pull_changes.
    destruct (GitService.is_git_repo w self o) as [b o1] eqn:E.
    eapply git_calls_is_repo in E; [|exact H0]. destruct b; simpl negb; cbv iota;
      [|simpl; eapply git_calls_le; [|done]; lia].
    pose proof (git_calls_branch w self branch _ _ _ E) as Hb.
    destruct (GitService.branch_to_use w self o1 branch) as [[b|e] o2];
      simpl in Hb; [|simpl; eapply git_calls_le; [|done]; lia].
    destruct (GitService._run_git_command w self o2 _) as [[r|e] o3] eqn:E3;
      [case_bool_decide|]; simpl; by eapply git_calls_run.
Qed.

(** X21: where [git status] fails or cannot be started, [get_diff]
    returns the text [Not a git repository] as if it were the diff, while
    [add_files], [commit_changes], [push_changes] and [pull_changes]
    raise a [RuntimeError] with that text; none of them starts another
    process after the failed [git status]. *)
Theorem outside_a_repository (w : World) (self : GitService.t) (o : OS) :
  (GitService.is_git_repo w self o).1 = false ->
  let o1 := (GitService.is_git_repo w self o).2 in
  let refused := Raise (Exc RuntimeError (py "Not a git repository")) in
  launched o1 = launched o ++ [git_call self [py "status"]]
  /\ (forall file_path,
         GitService.get_diff w self o file_path
         = (Ok (py "Not a git repository"), o1))
  /\ (forall files, GitService.add_files w self o files = (refused, o1))
  /\ (forall message files,
         GitService.commit_changes w self o message files = (refused, o1))
  /\ (forall remote branch,
         GitService.push_changes w self o remote branch = (refused, o1))
  /\ (forall remote branch,
         GitService.pull_changes w self o remote branch = (refused, o1)).
Proof.
  intros Hno o1 refused. subst o1 refused.
  split; [apply is_git_repo_launched|].
  unfold GitService.get_diff, GitService.add_files,
    GitService.commit_changes, GitService.push_changes,
    GitService.pull_changes.
  destruct (GitService.is_git_repo w self o) as [b o1].
  simpl in Hno. subst b. by repeat split.
Qed.

Lemma outside_a_repository_witness :
  launched (GitService.is_git_repo bare_host app_git empty_os).2
  = [git_call app_git [py "status"]]
  /\ GitService.get_diff bare_host app_git empty_os (Some (py "a.py"))
     = (Ok (py "Not a git repository"),
        (GitService.is_git_repo bare_host app_git empty_os).2)
  /\ GitService.push_changes bare_host app_git empty_os (py "origin") None
     = (Raise (Exc RuntimeError (py "Not a git repository")),
        (GitService.is_git_repo bare_host app_git empty_os).2).
Proof.
  destruct (outside_a_repository bare_host app_git empty_os eq_refl)
    as (Hl & Hd & _ & _ & Hp & _).
  split; [exact Hl|]. split; [apply Hd|apply Hp].
Defined.

(** The loop of [add_files] starts [git add] for the first [k] files, in
    their order, and comes to its end only when that is all of them. *)
Lemma add_each_launched (w : World) (self : GitService.t)
      (files : list pstr) (o1 : OS) :
  exists k : nat,
    (k <= length files)%nat
    /\ launched (GitService.add_each w self o1 files).2
       = launched o1
         ++ map (fun f => git_call self [py "add"; f]) (take k files)
    /\ ((GitService.add_each w self o1 files).1 = Ok tt -> k = length files).
Proof.
  revert o1. induction files as [|f files IH]; intros o1; simpl.
  - exists 0%nat. by rewrite app_nil_r.
  - pose proof (run_git_launched w self o1 [py "add"; f]) as Hl.
    destruct (GitService._run_git_command w self o1 _) as [[r|e] o2].
    + case_bool_decide.
      * destruct (IH o2) as (k & Hk & Hlk & Hok). exists (S k).
        split; [lia|]. split; [|by intros ->%Hok].
        rewrite Hlk. simpl in Hl. rewrite Hl. simpl.
        by rewrite <- app_assoc.
      * exists 1%nat. simpl. split; [lia|]. by split.
    + exists 1%nat. simpl. split; [lia|]. by split.
Qed.

Lemma staged_all_launched (w : World) (self : GitService.t) (o o' : OS)
      (files : list pstr) :
  staged_all w self o files o' ->
  launched o'
  = launched o ++ map (fun f => git_call self [py "add"; f]) files.
Proof.
  induction 1 as [o|o o1 o2 f files r Hrun Hcode _ IH]; simpl.
  - by rewrite app_nil_r.
  - pose proof (run_git_launched w self o [py "add"; f]) as Hl.
    rewrite Hrun in Hl. simpl in Hl. rewrite IH, Hl.
    by rewrite <- app_assoc.
Qed.

Lemma staged_all_snoc (w : World) (self : GitService.t) (o o1 o2 : OS)
      (f : pstr) (files : list pstr) (r : CompletedProcess) :
  staged_all w self o files o1 ->
  GitService._run_git_command w self o1 [py "add"; f] = (Ok r, o2) ->
  returncode r = 0%Z ->
  staged_all w self o (files ++ [f]) o2.
Proof.
  induction 1 as [o|o oa ob g files r' Hrun Hcode _ IH]; intros Hf Hc; simpl.
  - econstructor; [done|done|constructor].
  - econstructor; [done|done|]. by apply IH.
Qed.

(** The loop of [add_files], from a state reached by adding [before]. *)
Lemma add_each_stops (w : World) (self : GitService.t) (files : list pstr) :
  forall (before : list pstr) (o0 o : OS),
    staged_all w self o0 before o ->
    match GitService.add_each w self o files with
    | (Ok _, o') => staged_all w self o0 (before ++ files) o'
    | (Raise e, o') =>
        exists pre f post o2,
          before ++ files = pre ++ f :: post
          /\ staged_all w self o0 pre o2
          /\ match GitService._run_git_command w self o2 [py "add"; f] with
             | (Ok r, o3) =>
                 returncode r ≠ 0%Z
                 /\ e = Exc RuntimeError
                          (py "Failed to add file " ++ f ++ py ": "
                           ++ stderr r)
                 /\ o' = o3
             | (Raise e', o3) => e = e' /\ o' = o3
             end
    end.
Proof.
  induction files as [|f files IH]; intros before o0 o Hbefore; simpl.
  - by rewrite app_nil_r.
  - destruct (GitService._run_git_command w self o [py "add"; f])
      as [[r|e] o1] eqn:Hrun.
    + case_bool_decide as Hcode.
      * specialize (IH (before ++ [f]) o0 o1
                       (staged_all_snoc _ _ _ _ _ _ _ _ Hbefore Hrun Hcode)).
        by rewrite <- app_assoc in IH.
      * exists before, f, files, o. split; [done|]. split; [done|].
        by rewrite Hrun.
    + exists before, f, files, o. split; [done|]. split; [done|].
      by rewrite Hrun.
Qed.

(** X22: [add_files] hands the files to [git add] one at a time and in
    their order, after one [git status], and stops at the first that
    fails. It returns without an error exactly when the workspace is a
    repository and every file was added with the exit code 0, each
    addition starting from the state the one before left. Otherwise the
    workspace is no repository, or some file [f] is the first whose
    addition fails: the files before it were added, the error is what
    the launch of [git add f] raised, or names [f] and carries the error
    output, the state is the one that launch left, and no file behind
    [f] was handed to git. *)
Theorem add_files_in_order (w : World) (self : GitService.t) (o : OS)
        (files : list pstr) :
  let o1 := (GitService.is_git_repo w self o).2 in
  let add := fun f => git_call self [py "add"; f] in
  match GitService.add_files w self o files with
  | (Ok _, o') =>
      (GitService.is_git_repo w self o).1 = true
      /\ staged_all w self o1 files o'
      /\ launched o'
         = launched o ++ git_call self [py "status"] :: map add files
  | (Raise e, o') =>
      ((GitService.is_git_repo w self o).1 = false
       /\ e = Exc RuntimeError (py "Not a git repository")
       /\ o' = o1)
      \/ ((GitService.is_git_repo w self o).1 = true
          /\ exists pre f post o2,
               files = pre ++ f :: post
               /\ staged_all w self o1 pre o2
               /\ launched o'
                  = launched o
                    ++ git_call self [py "status"] :: map add (pre ++ [f])
               /\ match GitService._run_git_command w self o2
                                                    [py "add"; f] with
                  | (Ok r, o3) =>
                      returncode r ≠ 0%Z
                      /\ e = Exc RuntimeError
                               (py "Failed to add file " ++ f ++ py ": "
                                ++ stderr r)
                      /\ o' = o3
                  | (Raise e', o3) => e = e' /\ o' = o3
                  end)
  end.
Proof.
  intros o1 add. subst o1. unfold GitService.add_files.
  pose proof (is_git_repo_launched w self o) as Hl.
  destruct (GitService.is_git_repo w self o) as [b o1]. simpl in Hl.
  destruct b; simpl negb; cbv iota; [|left; by repeat split].
  pose proof (add_each_stops w self files [] o1 o1 (staged_none w self o1))
    as Hloop.
  destruct (GitService.add_each w self o1 files) as [[[]|e] o'].
  - simpl in Hloop. split; [done|]. split; [done|].
    rewrite (staged_all_launched _ _ _ _ _ Hloop), Hl.
    by rewrite <- app_assoc.
  - right. split; [done|].
    destruct Hloop as (pre & f & post & o2 & Heq & Hpre & Hfail).
    simpl in Heq. exists pre, f, post, o2.
    split; [done|]. split; [done|]. split; [|done].
    pose proof (run_git_launched w self o2 [py "add"; f]) as Hl2.
    pose proof (staged_all_launched _ _ _ _ _ Hpre) as Hl1.
    destruct (GitService._run_git_command w self o2 [py "add"; f])
      as [[r|e'] o3]; simpl in Hl2.
    + destruct Hfail as (_ & _ & ->). rewrite Hl2, Hl1, Hl.
      rewrite map_app. simpl. by rewrite <- !app_assoc.
    + destruct Hfail as (_ & ->). rewrite Hl2, Hl1, Hl.
      rewrite map_app. simpl. by rewrite <- !app_assoc.
Qed.

(** X23: a commit that succeeds was staged first: when [commit_changes]
    returns without an error, the processes it started are [git status],
    then [git status] once more and [git add f] for each given file in
    order, or [git add -A] when no file or an empty list was given, and
    last [git commit -m message], the message being one argument. *)
Theorem commit_stages_first (w : World) (self : GitService.t) (o : OS)
        (message : pstr) (files : option (list pstr)) :
  (GitService.commit_changes w self o message files).1 = Ok tt ->
  launched (GitService.commit_changes w self o message files).2
  = launched o
    ++ git_call self [py "status"]
    :: match files with
       | Some (f :: fs) =>
           git_call self [py "status"]
           :: map (fun f => git_call self [py "add"; f]) (f :: fs)
       | _ => [git_call self [py "add"; py "-A"]]
       end
    ++ [git_call self [py "commit"; py "-m"; message]].
Proof.
  unfold GitService.commit_changes.
  pose proof (is_git_repo_launched w self o) as Hl.
  destruct (GitService.is_git_repo w self o) as [b o1]. simpl in Hl.
  destruct b; simpl negb; cbv iota; [|done].
  assert (Hstage : forall r o2,
    match files with
    | Some (f :: fs) => GitService.add_files w self o1 (f :: fs)
    | _ =>
        match GitService._run_git_command w self o1 [py "add"; py "-A"] with
        | (Ok result, o2) =>
            if bool_decide (returncode result = 0%Z) then (Ok tt, o2)
            else (Raise (Exc RuntimeError
                             (py "Failed to add files: "
                              ++ stderr result)), o2)
        | (Raise e, o2) => (Raise e, o2)
        end
    end = (Ok r, o2) ->
    launched o2
    = launched o1
      ++ match files with
         | Some (f :: fs) =>
             git_call self [py "status"]
             :: map (fun f => git_call self [py "add"; f]) (f :: fs)
         | _ => [git_call self [py "add"; py "-A"]]
         end).
  { intros r o2 E.
    destruct files as [[|f fs]|].
    2: { unfold GitService.add_files in E.
         pose proof (is_git_repo_launched w self o1) as Hl1.
         destruct (GitService.is_git_repo w self o1) as [b o1'].
         destruct b; [|done]. simpl negb in E. cbv iota in E.
         destruct (add_each_launched w self (f :: fs) o1')
           as (k & Hk & Hlk & Hok).
         rewrite E in Hlk, Hok. simpl fst in Hok. simpl snd in Hlk.
         destruct r. rewrite (Hok eq_refl), take_ge in Hlk by done.
         simpl in Hl1. rewrite Hlk, Hl1. by rewrite <- app_assoc. }
    all: pose proof (run_git_launched w self o1 [py "add"; py "-A"]) as Hr;
      destruct (GitService._run_git_command w self o1 _) as [[r'|e] o'];
      [case_bool_decide|]; by simplify_eq. }
  destruct (match files with Some (f :: fs) => _ | _ => _ end)
    as [[r|e] o2]; [|done].
  specialize (Hstage r o2 eq_refl).
  pose proof (run_git_launched w self o2 [py "commit"; py "-m"; message]) as Hr.
  destruct (GitService._run_git_command w self o2 _) as [[r3|e] o3]; [|done].
  case_bool_decide; [|destruct (contains _ _); simpl; intros [=]].
  intros _. simpl in Hr |- *. rewrite Hr, Hstage, Hl.
  by rewrite <- !app_assoc.
Qed.

Lemma commit_stages_first_witness :
  launched (GitService.commit_changes yes_host app_git empty_os
              (py "fix the parser") (Some [py "a.py"; py "b.py"])).2
  = [git_call app_git [py "status"];
     git_call app_git [py "status"];
     git_call app_git [py "add"; py "a.py"];
     git_call app_git [py "add"; py "b.py"];
     git_call app_git [py "commit"; py "-m"; py "fix the parser"]].
Proof.
  exact (commit_stages_first yes_host app_git empty_os (py "fix the parser")
           (Some [py "a.py"; py "b.py"]) eq_refl).
Defined.

Lemma branch_or_main_not_empty (out : pstr) :
  GitService.branch_or_main out ≠ [].
Proof. unfold GitService.branch_or_main. by destruct (strip out). Qed.

(** The branch [push_changes] and [pull_changes] go on with: the one
    given, or what [git branch --show-current] prints, stripped, or
    [main]; the command is started only when none was given. *)
Lemma branch_to_use_launched (w : World) (self : GitService.t) (o : OS)
      (branch : option pstr) :
  launched (GitService.branch_to_use w self o branch).2
  = launched o
    ++ match branch with
       | Some (_ :: _) => []
       | _ => [git_call self [py "branch"; py "--show-current"]]
       end
  /\ match (GitService.branch_to_use w self o branch).1 with
     | Ok b =>
         b ≠ []
         /\ match branch with
            | Some (c :: s) => Some b = Some (c :: s)
            | _ =>
                match GitService._run_git_command
                        w self o [py "branch"; py "--show-current"] with
                | (Ok r, _) =>
                    Some b = Some match strip (stdout r) with
                                  | [] => py "main"
                                  | x => x
                                  end
                | (Raise _, _) => False
                end
            end
     | Raise e =>
         match branch with
         | Some (_ :: _) => False
         | _ =>
             match GitService._run_git_command
                     w self o [py "branch"; py "--show-current"] with
             | (Ok _, _) => False
             | (Raise _, _) => True
             end
         end
     end.
Proof.
  unfold GitService.branch_to_use.
  pose proof (run_git_launched w self o [py "branch"; py "--show-current"])
    as Hl.
  destruct branch as [[|c s]|].
  2: { simpl. by rewrite app_nil_r. }
  all: destruct (GitService._run_git_command w self o _) as [[r|e] o1];
    simpl in *; (split; [done|]); try done;
    (split; [apply branch_or_main_not_empty|done]).
Qed.

(** X24: [push_changes] and [pull_changes] never hand git an empty
    branch name, whatever the host answers. The name is the one given,
    if one that is not empty was given, and otherwise what
    [git branch --show-current] printed, stripped of white space, or
    [main] when nothing is left. The processes started are the first
    ones of [git status], [git branch --show-current] if no name was
    given, and then [git push remote name], [git push -u remote name]
    for a push, [git pull remote name] for a pull; a push that returns
    without an error has started [git push remote name], and a pull that
    does has started all of its three. *)
Theorem push_and_pull_name_a_branch (w : World) (self : GitService.t)
        (o : OS) (remote : pstr) (branch : option pstr) :
  let o1 := (GitService.is_git_repo w self o).2 in
  let asked :=
    match branch with
    | Some (_ :: _) => []
    | _ => [git_call self [py "branch"; py "--show-current"]]
    end in
  let named :=
    match branch with
    | Some (c :: s) => Some (c :: s)
    | _ =>
        match GitService._run_git_command
                w self o1 [py "branch"; py "--show-current"] with
        | (Ok r, _) => Some match strip (stdout r) with
                            | [] => py "main"
                            | x => x
                            end
        | (Raise _, _) => None
        end
    end in
  let pushes :=
    match named with
    | Some b => [git_call self [py "push"; remote; b];
                 git_call self [py "push"; py "-u"; remote; b]]
    | None => []
    end in
  let pulls :=
    match named with
    | Some b => [git_call self [py "pull"; remote; b]]
    | None => []
    end in
  (forall b, named = Some b -> b ≠ [])
  /\ (exists l,
         launched (GitService.push_changes w self o remote branch).2
         = launched o ++ l
         /\ l `prefix_of` git_call self [py "status"] :: asked ++ pushes
         /\ ((GitService.push_changes w self o remote branch).1 = Ok tt ->
             exists b, named = Some b
                       /\ git_call self [py "push"; remote; b] ∈ l))
  /\ (exists l,
         launched (GitService.pull_changes w self o remote branch).2
         = launched o ++ l
         /\ l `prefix_of` git_call self [py "status"] :: asked ++ pulls
         /\ ((GitService.pull_changes w self o remote branch).1 = Ok tt ->
             l = git_call self [py "status"] :: asked ++ pulls
             /\ exists b, named = Some b)).
Proof.
  intros o1 asked named pushes pulls.
  unfold GitService.push_changes, GitService.pull_changes.
  pose proof (is_git_repo_launched w self o) as Hl.
  subst o1. destruct (GitService.is_git_repo w self o) as [r o1].
  simpl in Hl, named.
  destruct (branch_to_use_launched w self o1 branch) as [Hlb Hb].
  fold asked in Hlb. rewrite Hl, <- app_assoc in Hlb. simpl in Hlb.
  split.
  { intros b Hn. subst named.
    destruct branch as [[|c s]|]; simplify_eq; try done;
      destruct (GitService._run_git_command w self o1 _) as [[r'|e] o2];
      simplify_eq; by destruct (strip (stdout r')). }
  destruct r; simpl negb; cbv iota.
  2: { split; exists [git_call self [py "status"]];
       (split; [done|]); (split; [by eexists|done]). }
  destruct (GitService.branch_to_use w self o1 branch) as [[b|e] o2];
    simpl in Hlb, Hb.
  2: { split; exists (git_call self [py "status"] :: asked);
       (split; [done|]); (split; [by eexists|done]). }
  destruct Hb as [Hne Hb].
  assert (Hnamed : named = Some b).
  { subst named. destruct branch as [[|c s]|]; try by symmetry.
    all: by destruct (GitService._run_git_command w self o1 _)
        as [[r'|e] o3]. }
  subst pushes pulls. rewrite Hnamed. clear Hb.
  split.
  - pose proof (run_git_launched w self o2 [py "push"; remote; b]) as H3.
    destruct (GitService._run_git_command w self o2 _) as [[r3|e] o3];
      simpl in H3; rewrite Hlb, <- app_assoc in H3.
    2: { exists ((git_call self [py "status"] :: asked)
                 ++ [git_call self [py "push"; remote; b]]).
         split; [done|]. split; [|done].
         exists [git_call self [py "push"; py "-u"; remote; b]].
         by rewrite <- app_assoc. }
    case_bool_decide.
    { exists ((git_call self [py "status"] :: asked)
              ++ [git_call self [py "push"; remote; b]]).
      split; [done|]. split.
      - exists [git_call self [py "push"; py "-u"; remote; b]].
        by rewrite <- app_assoc.
      - intros _. exists b. split; [done|].
        apply elem_of_app. right. apply list_elem_of_here. }
    pose proof (run_git_launched w self o3 [py "push"; py "-u"; remote; b])
      as H4.
    exists (git_call self [py "status"] :: asked
            ++ [git_call self [py "push"; remote; b];
                git_call self [py "push"; py "-u"; remote; b]]).
    split; [|split; [done|]].
    + destruct (GitService._run_git_command w self o3 _) as [[r4|e] o4];
        [case_bool_decide|]; simpl in *; rewrite H4, H3, <- app_assoc;
        simpl; by rewrite <- app_assoc.
    + intros _. exists b. split; [done|].
      apply elem_of_cons. right. apply elem_of_app. right.
      apply list_elem_of_here.
  - pose proof (run_git_launched w self o2 [py "pull"; remote; b]) as H3.
    exists (git_call self [py "status"] :: asked
            ++ [git_call self [py "pull"; remote; b]]).
    split; [|split; [done|by eauto]].
    destruct (GitService._run_git_command w self o2 _) as [[r3|e] o3];
      [case_bool_decide|]; simpl in *; rewrite H3, Hlb, <- app_assoc;
      simpl; done.
Qed.

(** ** The lists of [get_status] *)









(** ** The assistant *)


Lemma generate_well_formed (c : AIService.Client) (prompt : pstr) :
  well_formed (AIService.generate c prompt).
Proof.
  unfold AIService.generate.
  destruct (AIService.generate_content c _ prompt) as [[[|x s]|]|e];
    [left|left|left|right]; simpl; repeat split; try done.
  by exists (py "error: " ++ exc_msg e).
Qed.

Lemma not_available_well_formed : well_formed AIService.not_available.
Proof.
  right. repeat split.
  by exists (py "not available. Please set GEMINI_API_KEY environment variable.").
Qed.

(** X26: whatever the model answers or raises, and with or without a
    client, [chat], [refactor_code] and [generate_tests] return a
    response of one of two shapes: [success] with a [content] that is
    not empty and no [error], or no [success], an empty [content] and an
    [error] that begins with [AI service]. With a client, the response
    follows what the model [gemini-2.5-flash] does with the prompt: an
    answer that is not empty is the content; for an empty answer or none
    the content is [No response generated]; an error raised gives the
    failure with [AI service error: ] before its text. Without a client
    the response is the failure that asks for the key. *)
Theorem responses_are_well_formed (self : AIService.t)
        (message code language instruction : pstr)
        (ctx : option AIService.context) :
  let follows := fun (c : AIService.Client) (prompt : pstr)
                     (r : AIResponse.t) =>
    match AIService.generate_content c (py "gemini-2.5-flash") prompt with
    | Ok (Some (x :: answer)) =>
        r = {| AIResponse.success := true;
               AIResponse.content := x :: answer;
               AIResponse.error := None |}
    | Ok _ =>
        r = {| AIResponse.success := true;
               AIResponse.content := py "No response generated";
               AIResponse.error := None |}
    | Raise e =>
        r = {| AIResponse.success := false;
               AIResponse.content := [];
               AIResponse.error :=
                 Some (py "AI service error: " ++ exc_msg e) |}
    end in
  well_formed (AIService.chat self message ctx)
  /\ well_formed (AIService.refactor_code self code language instruction)
  /\ well_formed (AIService.generate_tests self code language)
  /\ (forall c, AIService.client self = Some c ->
       follows c (AIService._build_context_prompt
                    self message (default AIService.no_context ctx))
               (AIService.chat self message ctx)
       /\ follows c (AIService.refactor_prompt code language instruction)
                  (AIService.refactor_code self code language instruction)
       /\ follows c (AIService.tests_prompt code language)
                  (AIService.generate_tests self code language))
  /\ (AIService.client self = None ->
      let asks_for_key :=
        {| AIResponse.success := false;
           AIResponse.content := [];
           AIResponse.error :=
             Some (py "AI service not available. Please set GEMINI_API_KEY environment variable.") |} in
      AIService.chat self message ctx = asks_for_key
      /\ AIService.refactor_code self code language instruction
         = asks_for_key
      /\ AIService.generate_tests self code language = asks_for_key).
Proof.
  intros follows.
  unfold AIService.chat, AIService.refactor_code, AIService.generate_tests.
  destruct (AIService.client self) as [c|].
  - split; [apply generate_well_formed|].
    split; [apply generate_well_formed|].
    split; [apply generate_well_formed|].
    split; [|done].
    intros c' [= <-]. subst follows. cbv beta.
    unfold AIService.generate.
    repeat split;
      by destruct (AIService.generate_content c _ _) as [[[|x s]|]|e].
  - split; [apply not_available_well_formed|].
    split; [apply not_available_well_formed|].
    split; [apply not_available_well_formed|].
    split; [by intros c'|]. by intros _.
Qed.

(** X27: an assistant made while [GEMINI_API_KEY] is not set, or set to
    the empty string, is not available, and each of its operations
    returns the response that asks for the key, whatever it is asked. *)
Theorem no_key_no_assistant (w : World) (connect : pstr -> AIService.Client) :
  environ w !! py "GEMINI_API_KEY" = None
  \/ environ w !! py "GEMINI_API_KEY" = Some [] ->
  let self := AIService.__init__ w connect in
  AIService._is_available self = false
  /\ (forall message ctx,
         AIService.chat self message ctx = AIService.not_available)
  /\ (forall code language instruction,
         AIService.refactor_code self code language instruction
         = AIService.not_available)
  /\ (forall code language,
         AIService.generate_tests self code language
         = AIService.not_available).
Proof.
  intros Hkey self.
  assert (Hc : AIService.client self = None).
  { subst self. unfold AIService.__init__. by destruct Hkey as [-> | ->]. }
  unfold AIService._is_available, AIService.chat, AIService.refactor_code,
    AIService.generate_tests.
  by rewrite Hc.
Qed.

Lemma no_key_no_assistant_witness :
  AIService._is_available (AIService.__init__ bare_host (fun _ => parrot))
  = false
  /\ AIService.chat (AIService.__init__ bare_host (fun _ => parrot))
                    (py "hello") None
     = AIService.not_available.
Proof.
  destruct (no_key_no_assistant bare_host (fun _ => parrot)
              (or_introl eq_refl)) as (Ha & Hchat & _).
  split; [exact Ha|apply Hchat].
Defined.

Section prompt.
Context (self : AIService.t) (message : pstr).

Lemma current_file_parts_trimmed (ctx : AIService.context) :
  AIService.current_file_parts (trimmed ctx)
  = AIService.current_file_parts ctx.
Proof.
  unfold AIService.current_file_parts, trimmed, slice_to. simpl.
  destruct (AIService.currentFile ctx) as [f|]; [|done]. simpl.
  destruct (AIService.content f) as [[|c text]|]; [done| |done]. simpl.
  change (c :: take 1999 text) with (take 2000 (c :: text)).
  by rewrite take_take.
Qed.

Lemma open_files_parts_trimmed (ctx : AIService.context) :
  AIService.open_files_parts (trimmed ctx) = AIService.open_files_parts ctx.
Proof.
  unfold AIService.open_files_parts, trimmed.
  cbn [AIService.openFiles].
  rewrite firstn_map. fold (@take AIService.file).
  rewrite take_take. change (5 `min` 5)%nat with 5%nat.
  rewrite map_map. cbn [AIService.path AIService.language].
  by destruct (AIService.openFiles ctx) as [|f files].
Qed.

Lemma conversation_parts_trimmed (ctx : AIService.context) :
  AIService.conversation_parts (trimmed ctx)
  = AIService.conversation_parts ctx.
Proof.
  unfold AIService.conversation_parts, trimmed, slice_to.
  cbn [AIService.conversationHistory].
  remember (AIService.conversationHistory ctx) as h eqn:Eh. clear Eh.
  remember (drop (length h - 3) h) as last3 eqn:E3.
  assert (Hlen : (length last3 <= 3)%nat).
  { rewrite E3, length_drop. lia. }
  assert (Hne : h <> [] -> last3 <> []).
  { rewrite E3. intros Hh Hd. apply (f_equal length) in Hd.
    rewrite length_drop in Hd. destruct h; [done|]. simpl in Hd. lia. }
  destruct h as [|e h']; [by rewrite E3|].
  cbv beta iota. rewrite <- E3. clear E3.
  destruct last3 as [|e1 l3]; [by destruct Hne|].
  destruct l3 as [|e2 [|e3 [|e4 l]]]; simpl in Hlen; [..|lia];
    cbn [map length Nat.sub drop flat_map app AIService.user
         AIService.assistant];
    by rewrite ?take_take.
Qed.

Lemma join_with_ends (s : N) (first last : pstr) (between : list pstr) :
  exists middle,
    join_with s (first :: between ++ [last]) = first ++ middle ++ s :: last.
Proof.
  revert first. induction between as [|p between IH]; intros first.
  - by exists [].
  - destruct (IH p) as [middle Hm].
    exists (s :: p ++ middle).
    change (join_with s (first :: (p :: between) ++ [last]))
      with (first ++ s :: join_with s (p :: between ++ [last])).
    rewrite Hm. simpl. by rewrite <- !app_assoc.
Qed.

End prompt.

(** X28: the prompt of [chat] reads a bounded part of the context: it is
    the same for a context and for what is left of it when the content
    of the current file is cut to its first 2000 characters, the open
    files to path and language of the first five, and the conversation
    to its last three exchanges, with each answer cut to 200
    characters. *)
Theorem prompt_reads_bounded_context (self : AIService.t) (message : pstr)
        (ctx : AIService.context) :
  AIService._build_context_prompt self message (trimmed ctx)
  = AIService._build_context_prompt self message ctx.
Proof.
  unfold AIService._build_context_prompt.
  by rewrite current_file_parts_trimmed, open_files_parts_trimmed,
    conversation_parts_trimmed.
Qed.

(** X29: the prompt of [chat] opens with the fixed introduction and
    closes with the request of the user in full, on a line of its own
    behind an empty line, whatever the context holds. *)
Theorem prompt_ends_with_request (self : AIService.t) (message : pstr)
        (ctx : AIService.context) :
  exists middle,
    AIService._build_context_prompt self message ctx
    = AIService.preamble ++ middle
      ++ [10; 10] ++ py "User request: " ++ message.
Proof.
  unfold AIService._build_context_prompt.
  destruct (join_with_ends 10 AIService.preamble
              (10 :: py "User request: " ++ message)
              (AIService.current_file_parts ctx
               ++ AIService.open_files_parts ctx
               ++ AIService.conversation_parts ctx)) as [middle Hm].
  exists middle.
  replace ([AIService.preamble] ++ AIService.current_file_parts ctx
           ++ AIService.open_files_parts ctx
           ++ AIService.conversation_parts ctx
           ++ [10 :: py "User request: " ++ message])
    with (AIService.preamble
          :: (AIService.current_file_parts ctx
              ++ AIService.open_files_parts ctx
              ++ AIService.conversation_parts ctx)
          ++ [10 :: py "User request: " ++ message])
    by (cbn [app]; by rewrite <- !app_assoc).
  by rewrite Hm.
Qed.

(** ** What reading gives *)

Lemma translate_newlines_other (c : N) (text : pstr) :
  c <> 13 ->
  textio.translate_newlines (c :: text) = c :: textio.translate_newlines text.
Proof.
  intros Hc. destruct c as [|p]; [done|].
  do 4 (destruct p as [p|p|]; try done).
Qed.

(** Text read in text mode holds no carriage return. *)
Lemma translate_newlines_no_cr (text : pstr) :
  no_cr (textio.translate_newlines text) = true.
Proof.
  assert (H : forall n text, (length text <= n)%nat ->
                             no_cr (textio.translate_newlines text) = true).
  { clear. induction n as [|n IH]; intros text Hn.
    - destruct text; [done|simpl in Hn; lia].
    - destruct text as [|c text]; [done|]. simpl in Hn.
      destruct (N.eq_dec c 13) as [->|Hc].
      + destruct text as [|d text]; [done|]. simpl in Hn.
        destruct (N.eq_dec d 10) as [->|Hd].
        * change (no_cr (10 :: textio.translate_newlines text) = true).
          simpl. apply IH. lia.
        * assert (textio.translate_newlines (13 :: d :: text)
                  = 10 :: textio.translate_newlines (d :: text)) as ->.
          { destruct d as [|p]; [done|].
            do 4 (destruct p as [p|p|]; try done). }
          change (no_cr (textio.translate_newlines (d :: text)) = true).
          apply IH. simpl. lia.
      + rewrite translate_newlines_other by done.
        unfold no_cr. cbn [forallb]. fold (no_cr (textio.translate_newlines text)).
        apply N.eqb_neq in Hc. rewrite Hc. simpl negb. cbn [andb].
        apply IH. lia. }
  by apply (H (length text)).
Qed.

(** X30: [read_file] has five outcomes and no other: the text of a
    regular file that is not an image, in which every line ends with a
    line feed alone (no carriage return is left), or one of the errors
    [Path outside workspace], [File not found], [Path is a directory]
    and [Cannot read binary file]; on a host where nothing else changes
    the files and none is protected, opening cannot fail once the checks
    have passed, and bytes that are not UTF-8 are no error. *)
Theorem read_file_outcomes (w : World) (self : FileService.t) (o : OS)
        (file_path : pstr) :
  match FileService.read_file w self o file_path with
  | Ok text =>
      no_cr text = true
      /\ exists full_path data,
           FileService._get_full_path self file_path = Ok full_path
           /\ os.lookup w o full_path = Some (File data)
           /\ guess_image w full_path = false
           /\ text = textio.read_text data
  | Raise e =>
      e = FileService.path_outside
      \/ e = FileService.not_found file_path
      \/ e = FileService.is_directory file_path
      \/ e = FileService.binary_file file_path
  end.
Proof.
  unfold FileService.read_file.
  destruct (FileService._get_full_path self file_path) as [full_path|e] eqn:E.
  2: { simpl. left.
       unfold FileService._get_full_path in E.
       destruct file_path; [done|]. by case_match; simplify_eq. }
  simpl. unfold os.exists_, os.isdir, os.read_text.
  destruct (os.lookup w o full_path) as [[|data]|] eqn:El; simpl; [tauto| |tauto].
  destruct (guess_image w full_path) eqn:Eg; [tauto|].
  destruct (lookup_Some w o full_path _ El) as (_ & -> & _).
  split; [apply translate_newlines_no_cr|]. by exists full_path, data.
Qed.
